(** * DenseNet notebook: the architecture, its forward pass and the training loop

    A shallow embedding of [DenseNetNotebook.ipynb].  The notebook defines
    three [nn.Sequential] subclasses ([_DenseLayer], [_DenseBlock],
    [_Transition]), the [DenseNet] module built from them, the constructor
    [densenet121], and the fine-tuning helpers [train_model] and
    [visualize_model].

    What is modelled, and how:
    - Python integers are [Z]; [//] is [Z.div] (both floor); floats that are
      only compared or stored ([drop_rate], accuracies) are exact rationals [Q];
      the floats [optim_scheduler_ft] multiplies and raises to a power are
      kept abstract ([PyFloats]).
    - A tensor is its size and an index function into an uninterpreted
      [scalar] type.  The arithmetic of the numerical library (convolution,
      normalisation, pooling, the linear map, dropout) is a parameter
      ([Numerics]); the sizes it produces and the errors it raises, on a
      size mismatch and on a single value per channel given to a batch
      normalisation in training mode, are written out.
    - Tensors live in a store ([Mem]) and are passed by address, so that the
      in-place [ReLU(inplace=True)] is a write to the cell it is given and
      not a fresh value.
    - A module is a value that [forward] returns, possibly updated (batch
      normalisation tracks running statistics in training mode); an
      exception is the result [None].
    - [nn.Sequential] keeps its children in an ordered dictionary: an
      association list in which [add_module] replaces an existing name and
      appends a new one.
    - Constructors are total: a module is the record of its constructor
      arguments, and the library's own rejection of meaningless arguments
      (a channel count that is not positive) is not modelled.  Printing,
      timing and the moves between devices are left out. *)

From Stdlib Require Import QArith.
From stdpp Require Import base list strings pretty numbers.
Local Open Scope Z_scope.

(** ** Parameters and buffers *)

(** Where the contents of a parameter or buffer tensor of a module come
    from.  The numbers themselves are never inspected. *)
Inductive Storage : Type :=
  | Initialised                      (* set by the module's constructor *)
  | Loaded (url key : string)        (* copied by [load_state_dict] from the state dict at [url] *)
  | Stepped (s : Storage)            (* updated in place by [optimizer.step()] *)
  | Tracked (s : Storage).           (* running statistics updated by a training-mode forward *)

(** ** The library modules the notebook instantiates *)

(** [nn.Conv2d] (always with [bias=False] here), [nn.BatchNorm2d], [nn.ReLU],
    [nn.MaxPool2d], [nn.AvgPool2d] and [nn.Linear], with the constructor
    arguments the notebook passes.  [training] is [nn.Module]'s flag, [True]
    after construction; the notebook never clears it. *)
Inductive Module : Type :=
  | Conv2d (in_channels out_channels kernel_size stride padding : Z) (weight : Storage)
  | BatchNorm2d (num_features : Z) (affine running : Storage) (training : bool)
  | ReLU (inplace : bool)
  | MaxPool2d (kernel_size stride padding : Z)
  | AvgPool2d (kernel_size stride : Z)
  | Linear (in_features out_features : Z) (params : Storage).

Global Instance Storage_eq_dec : EqDecision Storage.
Proof. solve_decision. Defined.

Global Instance Module_eq_dec : EqDecision Module.
Proof. solve_decision. Defined.

(** ** Tensors *)

Record Tensor (scalar : Type) : Type := mkTensor {
  size : list Z;
  data : list Z -> scalar
}.
Arguments mkTensor {scalar} _ _.
Arguments size {scalar} _.
Arguments data {scalar} _ _.

(** The numerical kernels of the library, left uninterpreted. *)
Class Numerics : Type := {
  scalar : Type;
  generator : Type;                                   (* state of the random number generator *)
  kernel : Module -> Tensor scalar -> list Z -> scalar; (* output values of a module on an input *)
  relu : scalar -> scalar;
  times_zero : scalar -> scalar;                      (* the product with 0 *)
  dropout_kernel : Q -> generator -> Tensor scalar -> list Z -> scalar;
  advance : generator -> generator
}.

(** Output extent of a convolution or pooling window along one axis
    (floor mode); the library raises when the padded input is smaller than
    the window. *)
Definition window_out (h kernel_size stride padding : Z) : option Z :=
  if (0 <? stride) && (kernel_size <=? h + 2 * padding)
  then Some ((h + 2 * padding - kernel_size) / stride + 1)
  else None.

Definition window2d (s : list Z) (c_out kernel_size stride padding : Z) : option (list Z) :=
  match s with
  | [n; _; h; w] =>
      match window_out h kernel_size stride padding, window_out w kernel_size stride padding with
      | Some h', Some w' => Some [n; c_out; h'; w']
      | _, _ => None
      end
  | _ => None
  end.

Definition channels (s : list Z) : option Z :=
  match s with
  | [_; c; _; _] => Some c
  | _ => None
  end.

(** The size a module produces on an input of size [s] as far as the
    channel counts and the window arithmetic decide it; [None] when these
    make it raise (wrong rank, wrong channel count, window larger than the
    input). *)
Definition Module_shape (self : Module) (s : list Z) : option (list Z) :=
  match self with
  | Conv2d in_channels out_channels kernel_size stride padding _ =>
      if decide (channels s = Some in_channels)
      then window2d s out_channels kernel_size stride padding else None
  | BatchNorm2d num_features _ _ _ =>
      if decide (channels s = Some num_features) then Some s else None
  | ReLU _ => Some s
  | MaxPool2d kernel_size stride padding =>
      match channels s with
      | Some c => window2d s c kernel_size stride padding
      | None => None
      end
  | AvgPool2d kernel_size stride =>
      match channels s with
      | Some c => window2d s c kernel_size stride 0
      | None => None
      end
  | Linear in_features out_features _ =>
      match s with
      | [n; f] => if decide (f = in_features) then Some [n; out_features] else None
      | _ => None
      end
  end.

(** The number of values a batch normalisation averages for each channel:
    the batch size times the spatial extents. *)
Definition values_per_channel (s : list Z) : Z :=
  match s with
  | n :: _ :: spatial => n * foldr Z.mul 1 spatial
  | _ => 0
  end.

(** The size a module produces on an input of size [s]; [None] when it
    raises.  A batch normalisation in training mode also raises when it is
    given a single value per channel, from which it can take no statistics. *)
Definition Module_size (self : Module) (s : list Z) : option (list Z) :=
  match self with
  | BatchNorm2d _ _ _ true =>
      if decide (values_per_channel s = 1) then None else Module_shape self s
  | _ => Module_shape self s
  end.

(** ** The tensor store *)

(** An address is the position of a cell in the store. *)
Abbreviation addr := nat (only parsing).

Record Mem `{Numerics} : Type := mkMem {
  cells : list (Tensor scalar);
  gen : generator
}.
Arguments mkMem {_} _ _.

Section Store.
Context `{Numerics}.

Definition alloc (mem : Mem) (t : Tensor scalar) : Mem * option addr :=
  (mkMem (cells mem ++ [t]) (gen mem), Some (length (cells mem))).

Definition write (mem : Mem) (a : addr) (t : Tensor scalar) : Mem :=
  mkMem (<[a:=t]> (cells mem)) (gen mem).

(** [module(x)] for a library module: the output is a new tensor, except
    for an in-place ReLU, which overwrites its input and returns it.  Batch
    normalisation in training mode also updates its running statistics. *)
Definition Module_forward (self : Module) (x : addr) (mem : Mem) : Module * Mem * option addr :=
  match cells mem !! x with
  | None => (self, mem, None)
  | Some t =>
      match Module_size self (size t) with
      | None => (self, mem, None)
      | Some s =>
          match self with
          | ReLU true =>
              (self, write mem x (mkTensor s (fun i => relu (data t i))), Some x)
          | ReLU false =>
              let '(mem', y) := alloc mem (mkTensor s (fun i => relu (data t i))) in
              (self, mem', y)
          | BatchNorm2d num_features affine running training =>
              let '(mem', y) := alloc mem (mkTensor s (kernel self t)) in
              (BatchNorm2d num_features affine (if training then Tracked running else running) training,
               mem', y)
          | _ =>
              let '(mem', y) := alloc mem (mkTensor s (kernel self t)) in
              (self, mem', y)
          end
      end
  end.

End Store.

(** ** The functions of [torch] and [torch.nn.functional] the notebook calls *)

Section Functional.
Context `{Numerics}.

(** [F.relu(x, inplace=True)] *)
Definition F_relu_ (x : addr) (mem : Mem) : Mem * option addr :=
  match cells mem !! x with
  | None => (mem, None)
  | Some t => (write mem x (mkTensor (size t) (fun i => relu (data t i))), Some x)
  end.

(** [F.avg_pool2d(x, kernel_size=k)]: the stride defaults to the kernel size. *)
Definition F_avg_pool2d (x : addr) (kernel_size : Z) (mem : Mem) : Mem * option addr :=
  match cells mem !! x with
  | None => (mem, None)
  | Some t =>
      match Module_size (AvgPool2d kernel_size kernel_size) (size t) with
      | None => (mem, None)
      | Some s => alloc mem (mkTensor s (kernel (AvgPool2d kernel_size kernel_size) t))
      end
  end.

(** [F.dropout(x, p=p, training=training)]: the library rejects a
    probability outside [0, 1]; outside training mode, and with [p = 0], it
    returns its input; with [p = 1] it returns the product of the input with
    0 and draws nothing; otherwise it draws a mask. *)
Definition F_dropout (x : addr) (p : Q) (training : bool) (mem : Mem) : Mem * option addr :=
  match cells mem !! x with
  | None => (mem, None)
  | Some t =>
      if Qle_bool 0 p && Qle_bool p 1 then
        if negb training || Qeq_bool p 0 then (mem, Some x)
        else if Qeq_bool p 1 then
          alloc mem (mkTensor (size t) (fun i => times_zero (data t i)))
        else
          alloc (mkMem (cells mem) (advance (gen mem)))
                (mkTensor (size t) (dropout_kernel p (gen mem) t))
      else (mem, None)
  end.

(** The tensor [torch.cat([x, y], 1)] denotes: [x] and [y] agree in every
    dimension but the second, along which the entries of [y] follow those
    of [x]. *)
Definition cat1 (x y : Tensor scalar) : option (Tensor scalar) :=
  match size x, size y with
  | n :: c :: rest, n' :: c' :: rest' =>
      if decide (n = n' /\ rest = rest') then
        Some (mkTensor (n :: c + c' :: rest)
                (fun i => match i with
                          | b :: k :: j => if decide (k < c) then data x i else data y (b :: k - c :: j)
                          | _ => data x i
                          end))
      else None
  | _, _ => None
  end.

(** [torch.cat([x, y], 1)] *)
Definition torch_cat1 (x y : addr) (mem : Mem) : Mem * option addr :=
  match cells mem !! x, cells mem !! y with
  | Some tx, Some ty =>
      match cat1 tx ty with
      | Some t => alloc mem t
      | None => (mem, None)
      end
  | _, _ => (mem, None)
  end.

Definition numel (s : list Z) : Z := foldr Z.mul 1 s.

(** The index of the [k]-th element of a contiguous tensor of size [s]. *)
Fixpoint unravel (s : list Z) (k : Z) : list Z :=
  match s with
  | [] => []
  | _ :: s' => k / numel s' :: unravel s' (k mod numel s')
  end.

(** [x.size(0)] *)
Definition size0 (x : addr) (mem : Mem) : option Z :=
  match cells mem !! x with
  | Some t => head (size t)
  | None => None
  end.

(** [x.view(n, -1)]: [n] rows, the second extent inferred from the number
    of elements.  The view is read only (by the classifier), so it is kept
    as a cell of its own holding the elements of [x] in the same order. *)
Definition view_rows (x : addr) (n : Z) (mem : Mem) : Mem * option addr :=
  match cells mem !! x with
  | None => (mem, None)
  | Some t =>
      if decide (0 < n /\ numel (size t) `mod` n = 0) then
        let cols := numel (size t) / n in
        alloc mem (mkTensor [n; cols]
                     (fun i => match i with
                               | [r; c] => data t (unravel (size t) (r * cols + c))
                               | _ => data t i
                               end))
      else (mem, None)
  end.

End Functional.

(** ** [nn.Sequential] *)

(** The ordered dictionary [_modules] of a container. *)
Abbreviation Sequential M := (list (string * M)).

(** [self.add_module(name, module)], that is [self._modules[name] = module]:
    an existing name keeps its place and gets the new module. *)
Fixpoint add_module {M : Type} (self : Sequential M) (name : string) (module : M) : Sequential M :=
  match self with
  | [] => [(name, module)]
  | (k, m) :: rest =>
      if decide (k = name) then (k, module) :: rest
      else (k, m) :: add_module rest name module
  end.

(** [nn.Sequential(OrderedDict(items))] *)
Definition Sequential_init {M : Type} (items : list (string * M)) : Sequential M :=
  fold_left (fun self '(name, module) => add_module self name module) items [].

Section SequentialForward.
Context `{Numerics} {M : Type}.
Variable call : M -> addr -> Mem -> M * Mem * option addr.

(** [nn.Sequential.forward]: each child is called on the output of the one
    before it.  A child that raises ends the pass. *)
Fixpoint Sequential_forward (self : Sequential M) (x : addr) (mem : Mem)
  : Sequential M * Mem * option addr :=
  match self with
  | [] => ([], mem, Some x)
  | (name, module) :: rest =>
      let '(module', mem1, r) := call module x mem in
      match r with
      | None => ((name, module') :: rest, mem1, None)
      | Some y =>
          let '(rest', mem2, r') := Sequential_forward rest y mem1 in
          ((name, module') :: rest', mem2, r')
      end
  end.

End SequentialForward.

(** ** [_DenseLayer] *)

Record _DenseLayer : Type := mk_DenseLayer {
  layer_modules : Sequential Module;
  drop_rate : Q;
  layer_training : bool
}.

Definition _DenseLayer_init (num_input_features growth_rate bn_size : Z) (drop_rate : Q)
  : _DenseLayer :=
  let self := [] in
  let self := add_module self "norm.1" (BatchNorm2d num_input_features Initialised Initialised true) in
  let self := add_module self "relu.1" (ReLU true) in
  let self := add_module self "conv.1"
                (Conv2d num_input_features (bn_size * growth_rate) 1 1 0 Initialised) in
  let self := add_module self "norm.2" (BatchNorm2d (bn_size * growth_rate) Initialised Initialised true) in
  let self := add_module self "relu.2" (ReLU true) in
  let self := add_module self "conv.2"
                (Conv2d (bn_size * growth_rate) growth_rate 3 1 1 Initialised) in
  mk_DenseLayer self drop_rate true.

Section LayerForward.
Context `{Numerics}.

(** [_DenseLayer.forward] *)
Definition _DenseLayer_forward (self : _DenseLayer) (x : addr) (mem : Mem)
  : _DenseLayer * Mem * option addr :=
  let '(modules', mem1, r) := Sequential_forward Module_forward (layer_modules self) x mem in
  let self := mk_DenseLayer modules' (drop_rate self) (layer_training self) in
  match r with
  | None => (self, mem1, None)
  | Some new_features =>
      let '(mem2, r2) :=
        if Qlt_le_dec 0 (drop_rate self)
        then F_dropout new_features (drop_rate self) (layer_training self) mem1
        else (mem1, Some new_features) in
      match r2 with
      | None => (self, mem2, None)
      | Some new_features =>
          let '(mem3, r3) := torch_cat1 x new_features mem2 in
          (self, mem3, r3)
      end
  end.

End LayerForward.

(** ** [_DenseBlock] and [_Transition] *)

Abbreviation _DenseBlock := (Sequential _DenseLayer).

(** [range(n)] is [seqZ 0 n]; ['denselayer%d' % (i + 1)] prints [i + 1] in decimal. *)
Definition _DenseBlock_init (num_layers num_input_features bn_size growth_rate : Z) (drop_rate : Q)
  : _DenseBlock :=
  fold_left
    (fun self i =>
       let layer := _DenseLayer_init (num_input_features + i * growth_rate) growth_rate bn_size drop_rate in
       add_module self ("denselayer" +:+ pretty (i + 1)) layer)
    (seqZ 0 num_layers) [].

Abbreviation _Transition := (Sequential Module).

Definition _Transition_init (num_input_features num_output_features : Z) : _Transition :=
  let self := [] in
  let self := add_module self "norm" (BatchNorm2d num_input_features Initialised Initialised true) in
  let self := add_module self "relu" (ReLU true) in
  let self := add_module self "conv"
                (Conv2d num_input_features num_output_features 1 1 0 Initialised) in
  let self := add_module self "pool" (AvgPool2d 2 2) in
  self.

(** ** [DenseNet] *)

(** A child of [DenseNet.features]. *)
Inductive Feature : Type :=
  | Plain (module : Module)
  | Block (block : _DenseBlock)
  | Transition (trans : _Transition).

Record DenseNet : Type := mkDenseNet {
  features : Sequential Feature;
  classifier : Module
}.

(** [enumerate(l)] *)
Definition enumerate {A : Type} (l : list A) : list (Z * A) :=
  zip (seqZ 0 (Z.of_nat (length l))) l.

Definition DenseNet_init (growth_rate : Z) (block_config : list Z)
    (num_init_features bn_size : Z) (drop_rate : Q) (num_classes : Z) : DenseNet :=
  (* First convolution *)
  let features := Sequential_init [
    ("conv0", Plain (Conv2d 3 num_init_features 7 2 3 Initialised));
    ("norm0", Plain (BatchNorm2d num_init_features Initialised Initialised true));
    ("relu0", Plain (ReLU true));
    ("pool0", Plain (MaxPool2d 3 2 1)) ] in
  (* Each denseblock *)
  let num_features := num_init_features in
  let '(features, num_features) :=
    fold_left
      (fun '(features, num_features) '(i, num_layers) =>
         let block := _DenseBlock_init num_layers num_features bn_size growth_rate drop_rate in
         let features := add_module features ("denseblock" +:+ pretty (i + 1)) (Block block) in
         let num_features := num_features + num_layers * growth_rate in
         if decide (i <> Z.of_nat (length block_config) - 1) then
           let trans := _Transition_init num_features (num_features / 2) in
           let features := add_module features ("transition" +:+ pretty (i + 1)) (Transition trans) in
           (features, num_features / 2)
         else (features, num_features))
      (enumerate block_config) (features, num_features) in
  (* Final batch norm *)
  let features := add_module features "norm5"
                    (Plain (BatchNorm2d num_features Initialised Initialised true)) in
  (* Linear layer *)
  mkDenseNet features (Linear num_features num_classes Initialised).

Section NetForward.
Context `{Numerics}.

(** Calling a child of [features]: each class has only the [forward] it
    defines or inherits from [nn.Sequential]. *)
Definition Feature_forward (self : Feature) (x : addr) (mem : Mem) : Feature * Mem * option addr :=
  match self with
  | Plain module =>
      let '(module', mem', r) := Module_forward module x mem in (Plain module', mem', r)
  | Block block =>
      let '(block', mem', r) := Sequential_forward _DenseLayer_forward block x mem in
      (Block block', mem', r)
  | Transition trans =>
      let '(trans', mem', r) := Sequential_forward Module_forward trans x mem in
      (Transition trans', mem', r)
  end.

(** [DenseNet.forward] *)
Definition DenseNet_forward (self : DenseNet) (x : addr) (mem : Mem) : DenseNet * Mem * option addr :=
  let '(features', mem1, r) := Sequential_forward Feature_forward (features self) x mem in
  let self := mkDenseNet features' (classifier self) in
  match r with
  | None => (self, mem1, None)
  | Some features_out =>
      match F_relu_ features_out mem1 with
      | (mem2, None) => (self, mem2, None)
      | (mem2, Some out) =>
          match F_avg_pool2d out 7 mem2 with
          | (mem3, None) => (self, mem3, None)
          | (mem3, Some out) =>
              match size0 features_out mem3 with
              | None => (self, mem3, None)
              | Some n =>
                  match view_rows out n mem3 with
                  | (mem4, None) => (self, mem4, None)
                  | (mem4, Some out) =>
                      let '(classifier', mem5, r5) := Module_forward (classifier self) out mem4 in
                      (mkDenseNet features' classifier', mem5, r5)
                  end
              end
          end
      end
  end.

End NetForward.

(** ** Pretrained models *)

Definition model_urls : list (string * string) := [
  ("densenet121", "https://download.pytorch.org/models/densenet121-241335ed.pth");
  ("densenet169", "https://download.pytorch.org/models/densenet169-6f0f7f60.pth");
  ("densenet201", "https://download.pytorch.org/models/densenet201-4c113574.pth");
  ("densenet161", "https://download.pytorch.org/models/densenet161-17b70270.pth") ].

(** [d[key]] for a dictionary written as a list of items. *)
Fixpoint getitem {V : Type} (d : list (string * V)) (key : string) : option V :=
  match d with
  | [] => None
  | (k, v) :: rest => if decide (k = key) then Some v else getitem rest key
  end.

(** [load_state_dict] copies the entry of every parameter and buffer from
    the state dict into the module's own tensors; [model_zoo.load_url(url)]
    is the state dict stored at [url], entries keyed by the dotted path of
    the module. *)
Definition Module_load (url key : string) (self : Module) : Module :=
  match self with
  | Conv2d i o k s p _ => Conv2d i o k s p (Loaded url key)
  | BatchNorm2d c _ _ training => BatchNorm2d c (Loaded url key) (Loaded url key) training
  | Linear i o _ => Linear i o (Loaded url key)
  | ReLU _ | MaxPool2d _ _ _ | AvgPool2d _ _ => self
  end.

Definition Sequential_load {M : Type} (load : string -> M -> M) (prefix : string)
    (self : Sequential M) : Sequential M :=
  map (fun '(name, module) => (name, load (prefix +:+ "." +:+ name) module)) self.

Definition _DenseLayer_load (url key : string) (self : _DenseLayer) : _DenseLayer :=
  mk_DenseLayer (Sequential_load (Module_load url) key (layer_modules self))
                (drop_rate self) (layer_training self).

Definition Feature_load (url key : string) (self : Feature) : Feature :=
  match self with
  | Plain module => Plain (Module_load url key module)
  | Block block => Block (Sequential_load (_DenseLayer_load url) key block)
  | Transition trans => Transition (Sequential_load (Module_load url) key trans)
  end.

Definition load_state_dict (self : DenseNet) (url : string) : DenseNet :=
  mkDenseNet (Sequential_load (Feature_load url) "features" (features self))
             (Module_load url "classifier" (classifier self)).

(** A Python value passed as a keyword argument. *)
Inductive PyValue : Type :=
  | PyInt (z : Z)
  | PyFloat (q : Q)
  | PyBool (b : bool)
  | PyTuple (items : list Z).

(** [densenet121(pretrained=False, **kwargs)]: [kwargs] is received and not
    used.  [None] stands for the [KeyError] of a missing dictionary key. *)
Definition densenet121 (pretrained : bool) (kwargs : list (string * PyValue)) : option DenseNet :=
  let model := DenseNet_init 32 [6; 12; 24; 16] 64 4 0 1000 in
  if pretrained then
    match getitem model_urls "densenet121" with
    | Some url => Some (load_state_dict model url)
    | None => None
    end
  else Some model.

(** ** What the notebook does to a model after constructing it *)

(** [optimizer.step()] of [optim.SGD(model.parameters(), ...)]: every
    parameter tensor is updated in place; buffers are not parameters. *)
Definition Module_step (self : Module) : Module :=
  match self with
  | Conv2d i o k s p weight => Conv2d i o k s p (Stepped weight)
  | BatchNorm2d c affine running training => BatchNorm2d c (Stepped affine) running training
  | Linear i o params => Linear i o (Stepped params)
  | ReLU _ | MaxPool2d _ _ _ | AvgPool2d _ _ => self
  end.

Definition Sequential_map {M : Type} (f : M -> M) (self : Sequential M) : Sequential M :=
  map (fun '(name, module) => (name, f module)) self.

Definition _DenseLayer_step (self : _DenseLayer) : _DenseLayer :=
  mk_DenseLayer (Sequential_map Module_step (layer_modules self))
                (drop_rate self) (layer_training self).

Definition Feature_step (self : Feature) : Feature :=
  match self with
  | Plain module => Plain (Module_step module)
  | Block block => Block (Sequential_map _DenseLayer_step block)
  | Transition trans => Transition (Sequential_map Module_step trans)
  end.

Definition optimizer_step (self : DenseNet) : DenseNet :=
  mkDenseNet (Sequential_map Feature_step (features self)) (Module_step (classifier self)).

(** [module.in_features] *)
Definition get_in_features (self : Module) : option Z :=
  match self with
  | Linear in_features _ _ => Some in_features
  | _ => None
  end.

(** The cell "Run DenseNet":
    [densenet_model = densenet121(pretrained=True)],
    [num_ftrs = densenet_model.classifier.in_features],
    [densenet_model.classifier = nn.Linear(num_ftrs, 2)]. *)
Definition replace_classifier (densenet_model : DenseNet) : option DenseNet :=
  num_ftrs ← get_in_features (classifier densenet_model);
  Some (mkDenseNet (features densenet_model) (Linear num_ftrs 2 Initialised)).

Definition run_densenet_cell : option DenseNet :=
  densenet_model ← densenet121 true [];
  replace_classifier densenet_model.

(** *** Configuration, parameters and buffers of a module *)

(** The structural configuration of a module: the module as its
    constructor leaves it, that is, its class and constructor arguments
    without the state of its parameters, buffers and training flag. *)
Definition Module_config (self : Module) : Module :=
  match self with
  | Conv2d i o k s p _ => Conv2d i o k s p Initialised
  | BatchNorm2d c _ _ _ => BatchNorm2d c Initialised Initialised true
  | Linear i o _ => Linear i o Initialised
  | ReLU _ | MaxPool2d _ _ _ | AvgPool2d _ _ => self
  end.

Definition _DenseLayer_config (self : _DenseLayer) : _DenseLayer :=
  mk_DenseLayer (Sequential_map Module_config (layer_modules self)) (drop_rate self) true.

Definition Feature_config (self : Feature) : Feature :=
  match self with
  | Plain module => Plain (Module_config module)
  | Block block => Block (Sequential_map _DenseLayer_config block)
  | Transition trans => Transition (Sequential_map Module_config trans)
  end.

Definition DenseNet_config (self : DenseNet) : DenseNet :=
  mkDenseNet (Sequential_map Feature_config (features self)) (Module_config (classifier self)).

(** [module.parameters()]: the learnable tensors. *)
Definition Module_parameters (self : Module) : list Storage :=
  match self with
  | Conv2d _ _ _ _ _ weight => [weight]
  | BatchNorm2d _ affine _ _ => [affine]
  | Linear _ _ params => [params]
  | ReLU _ | MaxPool2d _ _ _ | AvgPool2d _ _ => []
  end.

Definition _DenseLayer_parameters (self : _DenseLayer) : list Storage :=
  flat_map (fun '(_, module) => Module_parameters module) (layer_modules self).

Definition Feature_parameters (self : Feature) : list Storage :=
  match self with
  | Plain module => Module_parameters module
  | Block block => flat_map (fun '(_, layer) => _DenseLayer_parameters layer) block
  | Transition trans => flat_map (fun '(_, module) => Module_parameters module) trans
  end.

Definition parameters (self : DenseNet) : list Storage :=
  flat_map (fun '(_, feature) => Feature_parameters feature) (features self)
  ++ Module_parameters (classifier self).

(** The running statistics of the batch normalisations. *)
Definition Module_buffers (self : Module) : list Storage :=
  match self with
  | BatchNorm2d _ _ running _ => [running]
  | _ => []
  end.

Definition _DenseLayer_buffers (self : _DenseLayer) : list Storage :=
  flat_map (fun '(_, module) => Module_buffers module) (layer_modules self).

Definition Feature_buffers (self : Feature) : list Storage :=
  match self with
  | Plain module => Module_buffers module
  | Block block => flat_map (fun '(_, layer) => _DenseLayer_buffers layer) block
  | Transition trans => flat_map (fun '(_, module) => Module_buffers module) trans
  end.

Definition buffers (self : DenseNet) : list Storage :=
  flat_map (fun '(_, feature) => Feature_buffers feature) (features self)
  ++ Module_buffers (classifier self).

(** The tensor was copied from the state dict stored at [url]. *)
Definition loaded_from (url : string) (s : Storage) : Prop :=
  match s with
  | Loaded u _ => u = url
  | _ => False
  end.

Global Instance loaded_from_dec url s : Decision (loaded_from url s).
Proof. destruct s; simpl; apply _. Defined.

(** The operations the notebook applies to a constructed [DenseNet]. *)
Inductive Operation `{Numerics} : Type :=
  | OpForward (x : addr) (mem : Mem)       (* [model(inputs)] *)
  | OpLoadStateDict (url : string)         (* [model.load_state_dict(...)] *)
  | OpOptimizerStep                        (* [optimizer.step()] *)
  | OpReplaceClassifier.                   (* [model.classifier = nn.Linear(num_ftrs, 2)] *)

Definition apply_operation `{Numerics} (op : Operation) (self : DenseNet) : DenseNet :=
  match op with
  | OpForward x mem => (DenseNet_forward self x mem).1.1
  | OpLoadStateDict url => load_state_dict self url
  | OpOptimizerStep => optimizer_step self
  | OpReplaceClassifier => default self (replace_classifier self)
  end.

(** ** Fine-tuning: [train_model] and [visualize_model] *)

(** [train_model] and [visualize_model] take any model object.  What they
    need of the library is kept abstract: the state of a model object
    (parameters, gradients, buffers), calling it, back-propagating a loss,
    and the optimizer's [zero_grad] and [step].  The outputs of a model are
    the logits, one row per sample. *)
Class Trainable : Type := {
  Model : Type;
  Optimizer : Type;
  Image : Type;
  Loss : Type;
  model_call : Model -> list Image -> Model * list (list Q);  (* [outputs = model(inputs)] *)
  loss_backward : Loss -> Model -> Model;                      (* [loss.backward()] *)
  zero_grad : Optimizer -> Model -> Model;                     (* [optimizer.zero_grad()] *)
  step : Optimizer -> Model -> Optimizer * Model;              (* [optimizer.step()] *)
  loss_item : Loss -> Q                                        (* [loss.data[0]] *)
}.

Inductive Phase : Type := train | val.

Global Instance Qlt_dec (x y : Q) : Decision (x < y)%Q :=
  match Qlt_le_dec x y with
  | left lt => left lt
  | right le => right (Qle_not_lt _ _ le)
  end.

Global Instance Phase_eq_dec : EqDecision Phase.
Proof. solve_decision. Defined.

(** The notebook's globals.  [dset_loaders phase k] is the sequence of
    batches (inputs, labels) the shuffling loader yields on its [k]-th
    traversal; [train_model] traverses each loader once per epoch. *)
Record Globals `{Trainable} : Type := mkGlobals {
  dset_loaders : Phase -> Z -> list (list Image * list Z);
  dset_sizes : Phase -> Z;
  dset_classes : list string
}.

(** What a run does, in order. *)
Inductive Event : Type :=
  | Scheduled (epoch : Z)                 (* [optimizer = optim_scheduler(model, epoch)] *)
  | ZeroGrad
  | Forward
  | Backward
  | Step
  | Printed (phase : Phase) (epoch_loss epoch_acc : Q)  (* the line with the phase's loss and accuracy *)
  | DeepCopy.

(** [torch.max(outputs.data, 1)]: the index of the largest logit of a row. *)
Fixpoint argmax_from (best : Q) (best_i i : Z) (row : list Q) : Z :=
  match row with
  | [] => best_i
  | v :: rest =>
      if Qlt_le_dec best v then argmax_from v i (i + 1) rest
      else argmax_from best best_i (i + 1) rest
  end.

Definition argmax (row : list Q) : Z :=
  match row with
  | [] => 0
  | v :: rest => argmax_from v 0 1 rest
  end.

Definition torch_max1 (outputs : list (list Q)) : list Z := map argmax outputs.

(** [torch.sum(preds == labels)], for predictions and labels of the same
    length, as the batches of a loader give them: the positions where the
    two agree. *)
Definition sum_eq (preds labels : list Z) : Z :=
  Z.of_nat (length (filter (fun '(p, l) => p = l) (zip preds labels))).

(** [l[i]] for a Python list: a negative index counts from the end. *)
Definition list_getitem {A : Type} (l : list A) (i : Z) : option A :=
  if decide (0 <= i) then l !! Z.to_nat i
  else if decide (- Z.of_nat (length l) <= i) then l !! Z.to_nat (Z.of_nat (length l) + i)
  else None.

(** A [for] loop whose body may raise. *)
Fixpoint for_each {S A : Type} (body : S -> A -> option S) (items : list A) (s : S) : option S :=
  match items with
  | [] => Some s
  | a :: rest =>
      match body s a with
      | Some s' => for_each body rest s'
      | None => None
      end
  end.

(** The local variables of [train_model], with the store of model objects
    ([model] and [best_model] are references into it) and the record of
    what was done. *)
Record Locals `{Trainable} : Type := mkLocals {
  store : list Model;
  optimizer : option Optimizer;
  running_loss : Q;
  running_corrects : Z;
  epoch_acc : option Q;
  best_model : addr;
  best_acc : Q;
  events : list Event
}.
Arguments mkLocals {_} _ _ _ _ _ _ _ _.

Section TrainModel.
Context `{Trainable} (globals : Globals).
Variable model : addr.
Variable criterion : list (list Q) -> list Z -> Loss.
Variable optim_scheduler : Model -> Z -> Optimizer.

(** The body of [for data in dset_loaders[phase]]. *)
Definition batch_body (phase : Phase) (l : Locals) (data : list Image * list Z) : option Locals :=
  let '(inputs, labels) := data in
  opt ← optimizer l;
  m ← store l !! model;
  (* zero the parameter gradients *)
  let m := zero_grad opt m in
  (* forward *)
  let '(m, outputs) := model_call m inputs in
  let preds := torch_max1 outputs in
  let loss := criterion outputs labels in
  (* backward + optimize only if in training phase *)
  let '(opt, m, done) :=
    if decide (phase = train)
    then let '(opt', m') := step opt (loss_backward loss m) in (opt', m', [Backward; Step])
    else (opt, m, []) in
  (* statistics *)
  Some (mkLocals (<[model:=m]> (store l)) (Some opt)
          (running_loss l + loss_item loss)%Q
          (running_corrects l + sum_eq preds labels)
          (epoch_acc l) (best_model l) (best_acc l)
          (events l ++ [ZeroGrad; Forward] ++ done)).

(** The body of [for phase in ['train', 'val']]. *)
Definition phase_body (epoch : Z) (l : Locals) (phase : Phase) : option Locals :=
  l ← (if decide (phase = train) then
         m ← store l !! model;
         Some (mkLocals (store l) (Some (optim_scheduler m epoch))
                 (running_loss l) (running_corrects l) (epoch_acc l)
                 (best_model l) (best_acc l) (events l ++ [Scheduled epoch]))
       else Some l);
  let l := mkLocals (store l) (optimizer l) 0 0 (epoch_acc l)
             (best_model l) (best_acc l) (events l) in
  (* Iterate over data. *)
  l ← for_each (batch_body phase) (dset_loaders globals phase epoch) l;
  if decide (dset_sizes globals phase = 0) then None   (* ZeroDivisionError *)
  else
    let epoch_loss := (running_loss l / inject_Z (dset_sizes globals phase))%Q in
    let acc := (inject_Z (running_corrects l) / inject_Z (dset_sizes globals phase))%Q in
    let printed := events l ++ [Printed phase epoch_loss acc] in
    (* deep copy the model *)
    if bool_decide (phase = val) && bool_decide (best_acc l < acc)%Q then
      m ← store l !! model;
      Some (mkLocals (store l ++ [m]) (optimizer l) (running_loss l) (running_corrects l)
              (Some acc) (length (store l)) acc (printed ++ [DeepCopy]))
    else
      Some (mkLocals (store l) (optimizer l) (running_loss l) (running_corrects l)
              (Some acc) (best_model l) (best_acc l) printed).

(** The body of [for epoch in range(num_epochs)]. *)
Definition epoch_body (l : Locals) (epoch : Z) : option Locals :=
  for_each (phase_body epoch) [train; val] l.

(** The locals before the first epoch: [best_model = model], [best_acc = 0.0]. *)
Definition train_model_start (objects : list Model) : Locals :=
  mkLocals objects None 0 0 None model 0 [].

(** [train_model(model, criterion, optim_scheduler, num_epochs)], run on
    the store [objects]: the locals at [return best_model], or [None] when
    an exception ends the run.  The returned object is
    [store l !! best_model l]. *)
Definition train_model (num_epochs : Z) (objects : list Model) : option Locals :=
  for_each epoch_body (seqZ 0 num_epochs) (train_model_start objects).

(** The validation accuracy of epoch [k] of a run ([epoch_acc] when the
    epoch ends), and the state of the live model object when epoch [k] ends. *)
Definition val_acc (k : Z) (objects : list Model) : option Q :=
  l ← train_model (k + 1) objects; epoch_acc l.

Definition live_model_after (k : Z) (objects : list Model) : option Model :=
  l ← train_model (k + 1) objects; store l !! model.

(** What an epoch does, in order: the training phase with a backward pass
    and an optimizer step for every batch, then the validation phase with
    forward passes only, then the deep copy if there is one. *)
Definition epoch_events (k : Z) (train_line val_line : Event) (copied : bool) : list Event :=
  [Scheduled k]
  ++ flat_map (fun _ => [ZeroGrad; Forward; Backward; Step]) (dset_loaders globals train k)
  ++ [train_line]
  ++ flat_map (fun _ => [ZeroGrad; Forward]) (dset_loaders globals val k)
  ++ [val_line]
  ++ (if copied then [DeepCopy] else []).

(** A figure: the image shown and its title. *)
Definition Figure : Type := Image * string.

(** The body of [for i, data in enumerate(dset_loaders['val'])], with the
    [break] after the figure of index [num_images - 1]. *)
Fixpoint visualize_loop (num_images : Z) (batches : list (Z * (list Image * list Z)))
    (objects : list Model) (figures : list Figure) : option (list Model * list Figure) :=
  match batches with
  | [] => Some (objects, figures)
  | (i, (inputs, labels)) :: rest =>
      m ← objects !! model;
      let '(m, outputs) := model_call m inputs in
      let preds := torch_max1 outputs in
      image ← inputs !! 0%nat;
      label ← labels !! 0%nat;
      class ← list_getitem (dset_classes globals) label;
      let figures := figures ++ [(image, "pred: " +:+ class)] in
      let objects := <[model:=m]> objects in
      if decide (i = num_images - 1) then Some (objects, figures)
      else visualize_loop num_images rest objects figures
  end.

(** [visualize_model(model, num_images)] on the [k]-th traversal of the
    validation loader. *)
Definition visualize_model (num_images : Z) (k : Z) (objects : list Model)
  : option (list Model * list Figure) :=
  visualize_loop num_images (enumerate (dset_loaders globals val k)) objects [].

End TrainModel.

(** ** Sizes through a container, and what a call does to the store *)

(** The size a [nn.Sequential] produces, from the sizes its children produce. *)
Fixpoint Sequential_size {M : Type} (child_size : M -> list Z -> option (list Z))
    (self : Sequential M) (s : list Z) : option (list Z) :=
  match self with
  | [] => Some s
  | (_, module) :: rest => s' ← child_size module s; Sequential_size child_size rest s'
  end.

(** The size of [torch.cat([x, y], 1)]. *)
Definition cat1_size (sx sy : list Z) : option (list Z) :=
  match sx, sy with
  | n :: c :: rest, n' :: c' :: rest' =>
      if decide (n = n' /\ rest = rest') then Some (n :: c + c' :: rest) else None
  | _, _ => None
  end.

Definition _DenseLayer_size (self : _DenseLayer) (s : list Z) : option (list Z) :=
  new ← Sequential_size Module_size (layer_modules self) s;
  if Qlt_le_dec 0 (drop_rate self)
  then (if Qle_bool 0 (drop_rate self) && Qle_bool (drop_rate self) 1 then cat1_size s new else None)
  else cat1_size s new.

Definition Feature_size (self : Feature) (s : list Z) : option (list Z) :=
  match self with
  | Plain module => Module_size module s
  | Block block => Sequential_size _DenseLayer_size block s
  | Transition trans => Sequential_size Module_size trans s
  end.

(** The same with [Module_shape] for the library modules: the sizes as far
    as channel counts, windows and the dropout rate decide them. *)
Definition _DenseLayer_shape (self : _DenseLayer) (s : list Z) : option (list Z) :=
  new ← Sequential_size Module_shape (layer_modules self) s;
  if Qlt_le_dec 0 (drop_rate self)
  then (if Qle_bool 0 (drop_rate self) && Qle_bool (drop_rate self) 1 then cat1_size s new else None)
  else cat1_size s new.

Definition Feature_shape (self : Feature) (s : list Z) : option (list Z) :=
  match self with
  | Plain module => Module_shape module s
  | Block block => Sequential_size _DenseLayer_shape block s
  | Transition trans => Sequential_size Module_shape trans s
  end.

Section StoreSpec.
Context `{Numerics}.

(** The cell at [a] holds a tensor of size [s]. *)
Definition has_size (mem : Mem) (a : addr) (s : list Z) : Prop :=
  exists t, cells mem !! a = Some t /\ size t = s.

(** A call that got [x] and returned [y] wrote to no cell that existed
    before other than [x], kept the size of [x], and [y] is [x] or a new
    cell. *)
Definition touches_only (mem : Mem) (x : addr) (mem' : Mem) (y : addr) : Prop :=
  (length (cells mem) <= length (cells mem'))%nat /\
  (forall a, (a < length (cells mem))%nat -> a <> x -> cells mem' !! a = cells mem !! a) /\
  (forall s, has_size mem x s -> has_size mem' x s) /\
  (y = x \/ (length (cells mem) <= y)%nat).

(** A call that returned [y] left every cell that existed before as it
    was, and [y] is a new cell. *)
Definition extends (mem mem' : Mem) (y : addr) : Prop :=
  cells mem `prefix_of` cells mem' /\ (length (cells mem) <= y)%nat.

(** The contract of calling the module [m] on a valid input whose size it
    accepts: the call returns, the module keeps its configuration, the
    output has the predicted size, and the store is changed as
    [touches_only] (or [extends]) says. *)
Definition ok_at {M : Type} (call : M -> addr -> Mem -> M * Mem * option addr)
    (child_size : M -> list Z -> option (list Z)) (config : M -> M) (m : M) : Prop :=
  forall x mem t s', cells mem !! x = Some t -> child_size m (size t) = Some s' ->
    exists m' mem' y, call m x mem = (m', mem', Some y) /\ config m' = config m /\
                      touches_only mem x mem' y /\ has_size mem' y s'.

Definition fresh_at {M : Type} (call : M -> addr -> Mem -> M * Mem * option addr)
    (child_size : M -> list Z -> option (list Z)) (config : M -> M) (m : M) : Prop :=
  forall x mem t s', cells mem !! x = Some t -> child_size m (size t) = Some s' ->
    exists m' mem' y, call m x mem = (m', mem', Some y) /\ config m' = config m /\
                      extends mem mem' y /\ has_size mem' y s'.

(** What [_DenseLayer.forward] does once its children have produced
    [new_features]: the optional dropout and the concatenation. *)
Definition dropout_cat (drop_rate : Q) (training : bool) (x new_features : addr) (mem : Mem)
  : Mem * option addr :=
  let '(mem2, r2) :=
    if Qlt_le_dec 0 drop_rate
    then F_dropout new_features drop_rate training mem
    else (mem, Some new_features) in
  match r2 with
  | None => (mem2, None)
  | Some new_features => torch_cat1 x new_features mem2
  end.


End StoreSpec.

(** The extent of a spatial axis after [conv0] and [pool0], and at the end
    of the [features] of a network of four blocks (three transitions). *)
Definition stem_extent (h : Z) : Z := ((h - 1) / 2 + 1 - 1) / 2 + 1.

Definition features_extent (h : Z) : Z := stem_extent h / 2 / 2 / 2.

(** The channel count leaving a stage that [c] channels enter. *)
Definition stage_out (c num_layers growth_rate : Z) : Z := c + num_layers * growth_rate.

(** Kernels that forget the numbers: every scalar is [tt].  With them a
    pass can be evaluated, sizes, addresses and errors included. *)
Definition sizes_only : Numerics :=
  {| scalar := unit; generator := unit;
     kernel := fun _ _ _ => tt; relu := fun v => v; times_zero := fun v => v;
     dropout_kernel := fun _ _ _ _ => tt; advance := fun g => g |}.

(** A store holding one tensor of size [s], at address 0. *)
Definition one_tensor (s : list Z) : @Mem sizes_only :=
  @mkMem sizes_only [mkTensor s (fun _ => tt)] tt.

(** The size of the tensor a call returned, if it returned one. *)
Definition result_size `{Numerics} (mem : Mem) (r : option nat) : option (list Z) :=
  a ← r; size <$> cells mem !! a.

(** A model object for concrete runs: its state counts the optimizer steps
    taken; until it has taken three it gives every image the logits
    [0, 1], that is, it predicts class 1, and from then on the logits
    [1, 0], class 0. *)
Definition step_counter : Trainable :=
  {| Model := nat; Optimizer := unit; Image := Z; Loss := unit;
     model_call := fun m inputs =>
       (m, map (fun _ => if (3 <=? m)%nat then [1; 0]%Q else [0; 1]%Q) inputs);
     loss_backward := fun _ m => m;
     zero_grad := fun _ m => m;
     step := fun opt m => (opt, S m);
     loss_item := fun _ => 0%Q |}.

(** Data for concrete runs: each loader yields one batch of one image,
    image 7, labelled 0; the classes are those of the notebook's dataset. *)
Definition one_ant : @Globals step_counter :=
  @mkGlobals step_counter (fun _ _ => [([7], [0])]) (fun _ => 1) ["ants"; "bees"].

(** ** Training mode, depth and the learning-rate schedule *)

(** [module.training], for the modules whose [forward] reads it: the batch
    normalisations and the dense layers. *)
Definition Module_training (self : Module) : list bool :=
  match self with
  | BatchNorm2d _ _ _ training => [training]
  | _ => []
  end.

Definition _DenseLayer_training (self : _DenseLayer) : list bool :=
  layer_training self :: flat_map (fun '(_, module) => Module_training module) (layer_modules self).

Definition Feature_training (self : Feature) : list bool :=
  match self with
  | Plain module => Module_training module
  | Block block => flat_map (fun '(_, layer) => _DenseLayer_training layer) block
  | Transition trans => flat_map (fun '(_, module) => Module_training module) trans
  end.

Definition training_flags (self : DenseNet) : list bool :=
  flat_map (fun '(_, feature) => Feature_training feature) (features self)
  ++ Module_training (classifier self).

(** The transitions among the children of [features], with their names,
    in order. *)
Definition transitions (fs : Sequential Feature) : list (string * _Transition) :=
  omap (fun item => match item.2 with
                    | Transition trans => Some (item.1, trans)
                    | _ => None
                    end) fs.


(** The convolutions and linear layers of a module, the count that names
    an architecture ([densenet121]). *)
Definition Module_depth (self : Module) : nat :=
  match self with
  | Conv2d _ _ _ _ _ _ | Linear _ _ _ => 1
  | _ => 0
  end.

Definition _DenseLayer_depth (self : _DenseLayer) : nat :=
  sum_list ((fun item => Module_depth item.2) <$> layer_modules self).

Definition Feature_depth (self : Feature) : nat :=
  match self with
  | Plain module => Module_depth module
  | Block block => sum_list ((fun item => _DenseLayer_depth item.2) <$> block)
  | Transition trans => sum_list ((fun item => Module_depth item.2) <$> trans)
  end.

Definition depth (self : DenseNet) : nat :=
  (sum_list ((fun item => Feature_depth item.2) <$> features self)
   + Module_depth (classifier self))%nat.

(** Python floats, as far as [optim_scheduler_ft] computes with them: the
    product, a float to the power of an integer, which raises
    [OverflowError] when the result is out of range, and the test [x < 0.0]
    of the optimizer's constructor.  [float_lit q] is the float a decimal
    literal denotes. *)
Class PyFloats : Type := {
  float : Type;
  float_lit : Q -> float;
  float_mul : float -> float -> float;
  float_pow : float -> Z -> option float;
  float_negative : float -> bool
}.

(** [optim.SGD(params, lr=lr, momentum=momentum)] as its constructor leaves
    it: the parameters it is to update and its hyperparameters.  A new
    optimizer has gathered no momentum.  The constructor raises on a
    negative learning rate or momentum and on an empty list of parameters. *)
Record SGD `{PyFloats} (P : Type) : Type := mkSGD {
  sgd_params : list P;
  sgd_lr : float;
  sgd_momentum : float
}.
Arguments mkSGD {_ _} _ _ _.
Arguments sgd_params {_ _} _.
Arguments sgd_lr {_ _} _.
Arguments sgd_momentum {_ _} _.

Definition SGD_init `{PyFloats} {P : Type} (params : list P) (lr momentum : float)
  : option (SGD P) :=
  if float_negative lr || float_negative momentum then None
  else
    match params with
    | [] => None
    | _ => Some (mkSGD params lr momentum)
    end.

(** [optim_scheduler_ft(model, epoch, init_lr, lr_decay_epoch)]: the
    learning rates it printed ('LR is set to ...') and the optimizer it
    returned, or [None] when it raised.  [parameters] is
    [model.parameters()]. *)
Definition optim_scheduler_ft `{PyFloats} {Model P : Type} (parameters : Model -> list P)
    (model : Model) (epoch : Z) (init_lr : float) (lr_decay_epoch : Z)
  : option (list float * SGD P) :=
  if decide (lr_decay_epoch = 0) then None   (* ZeroDivisionError *)
  else
    power ← float_pow (float_lit 0.1) (epoch / lr_decay_epoch);
    let lr := float_mul init_lr power in
    let printed := if decide (epoch `mod` lr_decay_epoch = 0) then [lr] else [] in
    optimizer ← SGD_init (parameters model) lr (float_lit 0.9);
    Some (printed, optimizer).

(** Floats without rounding, for concrete runs. *)
Definition exact_floats : PyFloats :=
  {| float := Q; float_lit := fun q => q; float_mul := Qmult;
     float_pow := fun x n => Some (Qpower x n);
     float_negative := fun x => if Qlt_le_dec x 0 then true else false |}.

(** Kernels that forget the numbers and count the dropout masks drawn:
    the generator is the number of draws so far. *)
Definition draw_counter : Numerics :=
  {| scalar := unit; generator := nat;
     kernel := fun _ _ _ => tt; relu := fun v => v; times_zero := fun v => v;
     dropout_kernel := fun _ _ _ _ => tt; advance := S |}.

(** Empty datasets, for concrete runs. *)
Definition no_data : @Globals step_counter :=
  @mkGlobals step_counter (fun _ _ => []) (fun _ => 0) ["ants"; "bees"].

(** * Properties *)

(** ** The store *)

Section StoreLemmas.
Context `{Numerics}.

Lemma has_size_lookup mem a t : cells mem !! a = Some t -> has_size mem a (size t).
Proof. intros Ht. exists t. done. Qed.

Lemma extends_lookup mem mem' y a t :
  extends mem mem' y -> cells mem !! a = Some t -> cells mem' !! a = Some t.
Proof.
  intros [[new ->] _] Ha. by apply lookup_app_l_Some.
Qed.

Lemma extends_touches mem mem' x y : extends mem mem' y -> touches_only mem x mem' y.
Proof.
  intros [[new Hnew] Hy]. repeat split.
  - rewrite Hnew, length_app. lia.
  - intros a Ha _. rewrite Hnew. by apply lookup_app_l.
  - intros s (t & Ht & Hs). exists t. split; [|done].
    rewrite Hnew. by apply lookup_app_l_Some.
  - by right.
Qed.

Lemma touches_only_refl mem x : touches_only mem x mem x.
Proof. repeat split; auto. Qed.

Lemma touches_only_trans mem x mem1 y1 mem2 y2 :
  (x < length (cells mem))%nat ->
  touches_only mem x mem1 y1 -> touches_only mem1 y1 mem2 y2 -> touches_only mem x mem2 y2.
Proof.
  intros Hx (Hlen1 & Hkeep1 & Hsz1 & Hy1) (Hlen2 & Hkeep2 & Hsz2 & Hy2).
  repeat split.
  - lia.
  - intros a Ha Hax. rewrite Hkeep2, Hkeep1; [done..|lia|].
    destruct Hy1 as [->|Hy1]; [done|lia].
  - intros s Hs. apply Hsz1 in Hs.
    destruct Hy1 as [->|Hy1]; [by apply Hsz2|].
    destruct Hs as (t & Ht & Hs). exists t. split; [|done].
    rewrite Hkeep2; [done|lia|lia].
  - destruct Hy2 as [->|Hy2]; [|right; lia].
    destruct Hy1 as [->|Hy1]; [by left|right; lia].
Qed.

Lemma extends_then_touches mem mem1 y1 mem2 y2 :
  extends mem mem1 y1 -> touches_only mem1 y1 mem2 y2 -> extends mem mem2 y2.
Proof.
  intros [[new Hnew] Hy1] (Hlen2 & Hkeep2 & _ & Hy2).
  assert (Hlen1 : (length (cells mem) <= length (cells mem1))%nat).
  { rewrite Hnew, length_app. lia. }
  split; [|destruct Hy2 as [->|Hy2]; lia].
  exists (drop (length (cells mem)) (cells mem2)).
  rewrite <- (take_drop (length (cells mem)) (cells mem2)) at 1.
  f_equal. apply list_eq. intros a.
  destruct (decide (a < length (cells mem))%nat) as [Ha|Ha].
  - rewrite lookup_take_lt by done.
    rewrite Hkeep2 by lia. rewrite Hnew. by apply lookup_app_l.
  - rewrite lookup_take_ge by lia. symmetry. apply lookup_ge_None. lia.
Qed.

Lemma extends_trans mem mem1 y1 mem2 y2 :
  extends mem mem1 y1 -> extends mem1 mem2 y2 -> extends mem mem2 y2.
Proof.
  intros H1 H2. eapply extends_then_touches; [done|]. by apply extends_touches.
Qed.

Lemma alloc_extends mem t :
  extends mem (alloc mem t).1 (length (cells mem)) /\
  cells (alloc mem t).1 !! length (cells mem) = Some t.
Proof.
  split; [split|]; simpl.
  - by exists [t].
  - done.
  - rewrite lookup_app_r by done. by rewrite Nat.sub_diag.
Qed.

Lemma write_touches mem x t t' :
  cells mem !! x = Some t -> size t' = size t ->
  touches_only mem x (write mem x t') x /\ cells (write mem x t') !! x = Some t'.
Proof.
  intros Hx Hs. pose proof (lookup_lt_Some _ _ _ Hx) as Hlt.
  split; [repeat split|]; simpl.
  - by rewrite length_insert.
  - intros a _ Ha. by rewrite list_lookup_insert_ne.
  - intros s (t0 & Ht0 & Hs0). exists t'. simpl.
    rewrite list_lookup_insert_eq by done. split; [done|]. congruence.
  - by left.
  - by rewrite list_lookup_insert_eq.
Qed.

End StoreLemmas.

(** ** Library modules and containers *)

Section CallLemmas.
Context `{Numerics}.

Lemma fresh_ok {M : Type} (call : M -> addr -> Mem -> M * Mem * option addr) child_size config m :
  fresh_at call child_size config m -> ok_at call child_size config m.
Proof.
  intros Hm x mem t s' Hx Hs.
  destruct (Hm x mem t s' Hx Hs) as (m' & mem' & y & Hcall & Hcfg & Hext & Hsz).
  exists m', mem', y. eauto using extends_touches.
Qed.

Lemma Module_fresh m : m <> ReLU true -> fresh_at Module_forward Module_size Module_config m.
Proof.
  intros Hm x mem t s' Hx Hs. unfold Module_forward. rewrite Hx, Hs.
  destruct (alloc_extends mem (mkTensor s' (kernel m t))) as [Hext Hnew].
  destruct (alloc_extends mem (mkTensor s' (fun i => relu (data t i)))) as [Hext' Hnew'].
  destruct m as [| | [] | | |]; try done;
    (eexists _, _, _; split; [reflexivity|]; split; [done|]; split; [eassumption|]);
    eexists; split; try eassumption; done.
Qed.

Lemma Module_ok m : ok_at Module_forward Module_size Module_config m.
Proof.
  destruct (decide (m = ReLU true)) as [->|Hm]; [|by apply fresh_ok, Module_fresh].
  intros x mem t s' Hx Hs. unfold Module_forward. rewrite Hx, Hs.
  simpl in Hs. injection Hs as <-.
  destruct (write_touches mem x t (mkTensor (size t) (fun i => relu (data t i))) Hx eq_refl)
    as [Htouch Hnew].
  eexists _, _, _. split; [reflexivity|]. split; [done|]. split; [done|].
  eexists. split; [eassumption|done].
Qed.

Lemma Module_shape_config m : Module_shape (Module_config m) = Module_shape m.
Proof. by destruct m. Qed.

(** What a module accepts, the window arithmetic accepts, with the same size. *)
Lemma Module_size_shape m s s' : Module_size m s = Some s' -> Module_shape m s = Some s'.
Proof.
  destruct m as [| ? ? ? [] | | | |]; try done. unfold Module_size.
  by destruct (decide _).
Qed.

(** A module accepts what it accepts in training mode. *)
Lemma Module_size_config_Some m s s' :
  Module_size (Module_config m) s = Some s' -> Module_size m s = Some s'.
Proof.
  destruct m as [| c a r [] | | | |]; try done. unfold Module_config, Module_size.
  destruct (decide _); [done|]. done.
Qed.

Lemma Module_size_Linear m i o s :
  Module_config m = Linear i o Initialised ->
  Module_size m s = Module_size (Linear i o Initialised) s.
Proof. destruct m; try done. simpl. by intros [= -> ->]. Qed.

Lemma Module_forward_config m x mem :
  Module_config (Module_forward m x mem).1.1 = Module_config m.
Proof.
  unfold Module_forward. destruct (cells mem !! x); [|done].
  destruct (Module_size m _); [|done]. by destruct m as [| | [] | | |].
Qed.

Lemma Module_forward_parameters m x mem :
  Module_parameters (Module_forward m x mem).1.1 = Module_parameters m.
Proof.
  unfold Module_forward. destruct (cells mem !! x); [|done].
  destruct (Module_size m _); [|done]. by destruct m as [| | [] | | |].
Qed.

Section Containers.
Context {M : Type}.
Variable call : M -> addr -> Mem -> M * Mem * option addr.
Variable child_size : M -> list Z -> option (list Z).
Variable config : M -> M.

Lemma Sequential_ok (self : Sequential M) :
  Forall (fun item => ok_at call child_size config item.2) self ->
  ok_at (Sequential_forward call) (Sequential_size child_size) (Sequential_map config) self.
Proof.
  induction 1 as [|[name m] rest Hm _ IH]; intros x mem t s' Hx Hs; simpl in *.
  - injection Hs as <-. exists [], mem, x.
    split; [done|]. split; [done|]. split; [apply touches_only_refl|by exists t].
  - destruct (child_size m (size t)) as [s1|] eqn:Hs1; [|done]. simpl in Hs.
    destruct (Hm x mem t s1 Hx Hs1) as (m' & mem1 & y1 & -> & Hcfg & Htouch & (t1 & Hy1 & Ht1)).
    subst s1.
    destruct (IH y1 mem1 t1 s' Hy1 Hs) as (rest' & mem2 & y2 & -> & Hcfg' & Htouch' & Hsz).
    exists ((name, m') :: rest'), mem2, y2.
    split; [done|]. split; [by rewrite <- Hcfg, <- Hcfg'|]. split; [|done].
    eapply touches_only_trans; [by eapply lookup_lt_Some|done..].
Qed.

Lemma Sequential_fresh name m (rest : Sequential M) :
  fresh_at call child_size config m ->
  Forall (fun item => ok_at call child_size config item.2) rest ->
  fresh_at (Sequential_forward call) (Sequential_size child_size) (Sequential_map config)
           ((name, m) :: rest).
Proof.
  intros Hm Hrest x mem t s' Hx Hs; simpl in *.
  destruct (child_size m (size t)) as [s1|] eqn:Hs1; [|done]. simpl in Hs.
  destruct (Hm x mem t s1 Hx Hs1) as (m' & mem1 & y1 & -> & Hcfg & Hext & (t1 & Hy1 & Ht1)).
  subst s1.
  destruct (Sequential_ok rest Hrest y1 mem1 t1 s' Hy1 Hs)
    as (rest' & mem2 & y2 & -> & Hcfg' & Htouch' & Hsz).
  exists ((name, m') :: rest'), mem2, y2.
  split; [done|]. split; [by rewrite <- Hcfg, <- Hcfg'|]. split; [|done].
  by eapply extends_then_touches.
Qed.


Lemma Sequential_size_app (l1 l2 : Sequential M) s :
  Sequential_size child_size (l1 ++ l2) s =
  Sequential_size child_size l1 s ≫= Sequential_size child_size l2.
Proof.
  revert s. induction l1 as [|[name m] l1 IH]; intros s; simpl; [done|].
  destruct (child_size m s); simpl; [apply IH|done].
Qed.

Lemma Sequential_size_config (self : Sequential M) s :
  (forall m s, child_size (config m) s = child_size m s) ->
  Sequential_size child_size (Sequential_map config self) s = Sequential_size child_size self s.
Proof.
  intros Hcfg. revert s. induction self as [|[name m] rest IH]; intros s; simpl; [done|].
  rewrite Hcfg. destruct (child_size m s); simpl; [apply IH|done].
Qed.

Lemma Sequential_size_config_Some (self : Sequential M) s s' :
  (forall m s s', child_size (config m) s = Some s' -> child_size m s = Some s') ->
  Sequential_size child_size (Sequential_map config self) s = Some s' ->
  Sequential_size child_size self s = Some s'.
Proof.
  intros Hcfg. revert s. induction self as [|[name m] rest IH]; intros s; simpl; [done|].
  destruct (child_size (config m) s) as [s1|] eqn:Hs1; [|done]. simpl.
  rewrite (Hcfg _ _ _ Hs1). simpl. apply IH.
Qed.

Lemma Sequential_size_mono (other_size : M -> list Z -> option (list Z))
    (self : Sequential M) s s' :
  (forall m s s', child_size m s = Some s' -> other_size m s = Some s') ->
  Sequential_size child_size self s = Some s' -> Sequential_size other_size self s = Some s'.
Proof.
  intros Hmono. revert s. induction self as [|[name m] rest IH]; intros s; simpl; [done|].
  destruct (child_size m s) as [s1|] eqn:Hs1; [|done]. simpl.
  rewrite (Hmono _ _ _ Hs1). simpl. apply IH.
Qed.

(** Whatever a pass does, also when a child raises, the children keep
    what [keep] reads of them. *)
Lemma Sequential_forward_keeps {C : Type} (keep : M -> C) (self : Sequential M) x mem :
  (forall m x mem, keep (call m x mem).1.1 = keep m) ->
  map (fun item => (item.1, keep item.2)) (Sequential_forward call self x mem).1.1 =
  map (fun item => (item.1, keep item.2)) self.
Proof.
  intros Hkeep. revert x mem. induction self as [|[name m] rest IH]; intros x mem; simpl; [done|].
  specialize (Hkeep m x mem). destruct (call m x mem) as [[m' mem1] [y|]]; simpl in *.
  - specialize (IH y mem1).
    destruct (Sequential_forward call rest y mem1) as [[rest' mem2] r]; simpl in *.
    by rewrite Hkeep, IH.
  - by rewrite Hkeep.
Qed.

End Containers.

End CallLemmas.

(** ** [_DenseLayer] *)

Section LayerLemmas.
Context `{Numerics}.

Lemma cat1_Some (x y : Tensor scalar) s :
  cat1_size (size x) (size y) = Some s -> exists out, cat1 x y = Some out /\ size out = s.
Proof.
  unfold cat1_size, cat1.
  destruct (size x) as [|n [|c rest]]; try done.
  destruct (size y) as [|n' [|c' rest']]; try done.
  destruct (decide _); [|done]. intros [= <-]. eexists. split; [reflexivity|done].
Qed.

Lemma _DenseLayer_forward_unfold (self : _DenseLayer) x mem :
  _DenseLayer_forward self x mem =
  let '(modules', mem1, r) := Sequential_forward Module_forward (layer_modules self) x mem in
  let self' := mk_DenseLayer modules' (drop_rate self) (layer_training self) in
  match r with
  | None => (self', mem1, None)
  | Some new_features =>
      let '(mem3, r3) := dropout_cat (drop_rate self) (layer_training self) x new_features mem1 in
      (self', mem3, r3)
  end.
Proof.
  unfold _DenseLayer_forward, dropout_cat.
  destruct (Sequential_forward _ _ _ _) as [[modules' mem1] [nf|]]; [|done]. simpl.
  destruct (Qlt_le_dec 0 (drop_rate self)).
  - destruct (F_dropout _ _ _ _) as [mem2 [nf'|]]; [|done].
    by destruct (torch_cat1 _ _ _).
  - by destruct (torch_cat1 _ _ _).
Qed.

Lemma dropout_cat_spec (dr : Q) tr x nf mem1 t1 tn s' :
  cells mem1 !! x = Some t1 -> cells mem1 !! nf = Some tn ->
  (if Qlt_le_dec 0 dr
   then (if Qle_bool 0 dr && Qle_bool dr 1 then cat1_size (size t1) (size tn) else None)
   else cat1_size (size t1) (size tn)) = Some s' ->
  exists mem3 y a new out,
    dropout_cat dr tr x nf mem1 = (mem3, Some y) /\ extends mem1 mem3 y /\
    cells mem3 !! y = Some out /\ (nf <= a)%nat /\ cells mem3 !! a = Some new /\
    size new = size tn /\ cat1 t1 new = Some out /\ size out = s'.
Proof.
  intros Hx Hnf Hs. unfold dropout_cat.
  assert (Hplain : cat1_size (size t1) (size tn) = Some s' ->
    exists mem3 y a new out,
      torch_cat1 x nf mem1 = (mem3, Some y) /\ extends mem1 mem3 y /\
      cells mem3 !! y = Some out /\ (nf <= a)%nat /\ cells mem3 !! a = Some new /\
      size new = size tn /\ cat1 t1 new = Some out /\ size out = s').
  { intros Hs'. destruct (cat1_Some _ _ _ Hs') as (out & Hcat & Hout).
    destruct (alloc_extends mem1 out) as [Hext Hnew].
    exists (alloc mem1 out).1, (length (cells mem1)), nf, tn, out.
    split; [unfold torch_cat1; by rewrite Hx, Hnf, Hcat|].
    split; [done|]. split; [done|]. split; [done|].
    split; [|done]. eapply extends_lookup; done. }
  destruct (Qlt_le_dec 0 dr) as [Hdr|Hdr]; [|by apply Hplain].
  unfold F_dropout. rewrite Hnf.
  destruct (Qle_bool 0 dr && Qle_bool dr 1); [|done].
  destruct (negb tr || Qeq_bool dr 0); [by apply Hplain|].
  set (new := if Qeq_bool dr 1 then mkTensor (size tn) (fun i => times_zero (data tn i))
              else mkTensor (size tn) (dropout_kernel dr (gen mem1) tn)).
  assert (Hnew : size new = size tn) by (subst new; by destruct (Qeq_bool dr 1)).
  rewrite <- Hnew in Hs. destruct (cat1_Some _ _ _ Hs) as (out & Hcat & Hout).
  set (mem1' := if Qeq_bool dr 1 then mem1 else mkMem (cells mem1) (advance (gen mem1))).
  assert (Hcells : cells mem1' = cells mem1) by (subst mem1'; by destruct (Qeq_bool dr 1)).
  destruct (alloc_extends mem1' new) as [Hext2 Hnew2].
  destruct (alloc_extends (alloc mem1' new).1 out) as [Hext3 Hout3].
  assert (Hx2 : cells (alloc mem1' new).1 !! x = Some t1).
  { eapply extends_lookup; [done|]. by rewrite Hcells. }
  exists (alloc (alloc mem1' new).1 out).1, (length (cells (alloc mem1' new).1)),
    (length (cells mem1')), new, out.
  split.
  - replace (if Qeq_bool dr 1 then alloc _ _ else alloc _ _) with (alloc mem1' new)
      by (subst new mem1'; by destruct (Qeq_bool dr 1)).
    unfold alloc in *. simpl in *. unfold torch_cat1. simpl.
    by rewrite Hx2, Hnew2, Hcat.
  - split.
    { pose proof (extends_trans _ _ _ _ _ Hext2 Hext3) as [Hpre Hlen].
      split; [by rewrite <- Hcells|]. rewrite <- Hcells. done. }
    split; [done|]. split.
    { rewrite Hcells. apply lookup_lt_Some in Hnf. lia. }
    split; [|done]. eapply extends_lookup; done.
Qed.

Lemma _DenseLayer_config_forward (self : _DenseLayer) x mem :
  _DenseLayer_config (_DenseLayer_forward self x mem).1.1 = _DenseLayer_config self.
Proof.
  rewrite _DenseLayer_forward_unfold.
  pose proof (Sequential_forward_keeps Module_forward Module_config (layer_modules self) x mem
                Module_forward_config) as Hkeep.
  destruct (Sequential_forward _ _ _ _) as [[modules' mem1] [nf|]]; simpl in *.
  - destruct (dropout_cat _ _ _ _ _). unfold _DenseLayer_config, Sequential_map. simpl.
    f_equal. etrans; [|etrans; [exact Hkeep|]]; apply map_ext; by intros [].
  - unfold _DenseLayer_config, Sequential_map. simpl.
    f_equal. etrans; [|etrans; [exact Hkeep|]]; apply map_ext; by intros [].
Qed.

(** A layer whose first child is not an in-place ReLU leaves its input
    alone: the output is [torch.cat] of the input with new features. *)
Lemma _DenseLayer_forward_cat (self : _DenseLayer) name m rest x mem t s_new s' :
  layer_modules self = (name, m) :: rest -> m <> ReLU true ->
  cells mem !! x = Some t ->
  Sequential_size Module_size (layer_modules self) (size t) = Some s_new ->
  _DenseLayer_size self (size t) = Some s' ->
  exists self' mem' y a new out,
    _DenseLayer_forward self x mem = (self', mem', Some y) /\
    _DenseLayer_config self' = _DenseLayer_config self /\
    extends mem mem' y /\ cells mem' !! y = Some out /\
    (length (cells mem) <= a)%nat /\ cells mem' !! a = Some new /\
    size new = s_new /\ cat1 t new = Some out /\ size out = s'.
Proof.
  intros Hmods Hm Hx Hnew Hs.
  pose proof (_DenseLayer_config_forward self x mem) as Hcfg.
  rewrite _DenseLayer_forward_unfold in *.
  unfold _DenseLayer_size in Hs. rewrite Hnew in Hs. simpl in Hs.
  assert (Hfresh : fresh_at (Sequential_forward Module_forward) (Sequential_size Module_size)
                     (Sequential_map Module_config) (layer_modules self)).
  { rewrite Hmods. apply Sequential_fresh; [by apply Module_fresh|].
    apply Forall_forall. intros ? _. apply Module_ok. }
  destruct (Hfresh x mem t s_new Hx Hnew)
    as (ms' & mem1 & nf & Hrun & _ & Hext1 & (tn & Hnf & Htn)).
  rewrite Hrun in *. simpl in *. subst s_new.
  destruct (dropout_cat_spec (drop_rate self) (layer_training self) x nf mem1 t tn s'
              (extends_lookup _ _ _ _ _ Hext1 Hx) Hnf Hs)
    as (mem3 & y & a & new & out & Hdc & Hext3 & Hy & Ha & Hnew' & Hsn & Hcat & Hout).
  rewrite Hdc in *. simpl in *.
  exists (mk_DenseLayer ms' (drop_rate self) (layer_training self)), mem3, y, a, new, out.
  split; [done|]. split; [done|]. split; [by eapply extends_trans|].
  split; [done|]. split; [destruct Hext1; lia|done].
Qed.

Lemma _DenseLayer_ok (self : _DenseLayer) :
  ok_at _DenseLayer_forward _DenseLayer_size _DenseLayer_config self.
Proof.
  intros x mem t s' Hx Hs.
  pose proof (_DenseLayer_config_forward self x mem) as Hcfg.
  rewrite _DenseLayer_forward_unfold in *.
  unfold _DenseLayer_size in Hs.
  destruct (Sequential_size Module_size (layer_modules self) (size t)) as [s_new|] eqn:Hnew;
    [|done]. simpl in Hs.
  assert (Hok : ok_at (Sequential_forward Module_forward) (Sequential_size Module_size)
                  (Sequential_map Module_config) (layer_modules self)).
  { apply Sequential_ok, Forall_forall. intros ? _. apply Module_ok. }
  destruct (Hok x mem t s_new Hx Hnew)
    as (ms' & mem1 & nf & Hrun & _ & Htouch & (tn & Hnf & Htn)).
  rewrite Hrun in *. simpl in *. subst s_new.
  destruct Htouch as (Hlen & Hkeep & Hsize & Hnf').
  destruct (Hsize (size t)) as (t1 & Hx1 & Ht1); [by exists t|].
  rewrite <- Ht1 in Hs.
  destruct (dropout_cat_spec (drop_rate self) (layer_training self) x nf mem1 t1 tn s' Hx1 Hnf Hs)
    as (mem3 & y & _ & new & out & Hdc & [[more Hmore] Hlen3] & Hy & _ & _ & Hsn & Hcat & Hout).
  rewrite Hdc in *. simpl in *.
  exists (mk_DenseLayer ms' (drop_rate self) (layer_training self)), mem3, y.
  split; [done|]. split; [done|]. split; [|by exists out].
  repeat split.
  - rewrite Hmore, length_app. lia.
  - intros a Ha Hax. rewrite Hmore, lookup_app_l by lia. by apply Hkeep.
  - intros s Hsx. apply Hsize in Hsx as (t0 & Ht0 & Hs0). exists t0. split; [|done].
    rewrite Hmore. by apply lookup_app_l_Some.
  - right. lia.
Qed.

End LayerLemmas.

(** ** Sizes in closed form *)

Lemma window_out_same h k p :
  1 <= h -> k = 2 * p + 1 -> 0 <= p -> window_out h k 1 p = Some h.
Proof.
  intros Hh -> Hp. unfold window_out.
  rewrite andb_true_intro by (split; [done|apply Z.leb_le; lia]).
  f_equal. rewrite Z.div_1_r. lia.
Qed.

Lemma window_out_halve h : 2 <= h -> window_out h 2 2 0 = Some (h / 2).
Proof.
  intros Hh. unfold window_out.
  rewrite andb_true_intro by (split; [done|apply Z.leb_le; lia]).
  f_equal. replace (h + 2 * 0 - 2) with (h + (-1) * 2) by lia.
  rewrite Z.div_add by done. lia.
Qed.

Lemma window_out_stride2 h k p :
  k = 2 * p + 1 -> 0 <= p -> 1 <= h -> window_out h k 2 p = Some ((h - 1) / 2 + 1).
Proof.
  intros -> Hp Hh. unfold window_out.
  rewrite andb_true_intro by (split; [done|apply Z.leb_le; lia]).
  by replace (h + 2 * p - (2 * p + 1)) with (h - 1) by lia.
Qed.

Lemma window_out_pool7 h : 7 <= h -> window_out h 7 7 0 = Some (h / 7).
Proof.
  intros Hh. unfold window_out.
  rewrite andb_true_intro by (split; [done|apply Z.leb_le; lia]).
  f_equal. replace (h + 2 * 0 - 7) with (h + (-1) * 7) by lia.
  rewrite Z.div_add by done. lia.
Qed.

Lemma _DenseLayer_init_modules c g bn (dr : Q) :
  layer_modules (_DenseLayer_init c g bn dr) =
  [("norm.1", BatchNorm2d c Initialised Initialised true);
   ("relu.1", ReLU true);
   ("conv.1", Conv2d c (bn * g) 1 1 0 Initialised);
   ("norm.2", BatchNorm2d (bn * g) Initialised Initialised true);
   ("relu.2", ReLU true);
   ("conv.2", Conv2d (bn * g) g 3 1 1 Initialised)].
Proof. reflexivity. Qed.

Lemma Sequential_size_step {M : Type} (child_size : M -> list Z -> option (list Z))
    name m (rest : Sequential M) s s1 :
  child_size m s = Some s1 ->
  Sequential_size child_size ((name, m) :: rest) s = Sequential_size child_size rest s1.
Proof. intros Hm. simpl. by rewrite Hm. Qed.

Lemma BatchNorm2d_shape c a r tr n h w :
  Module_shape (BatchNorm2d c a r tr) [n; c; h; w] = Some [n; c; h; w].
Proof. simpl. by rewrite decide_True. Qed.

Lemma ReLU_shape inplace s : Module_shape (ReLU inplace) s = Some s.
Proof. done. Qed.

Lemma Conv2d_shape_same c_in c_out k p weight n h w :
  1 <= h -> 1 <= w -> k = 2 * p + 1 -> 0 <= p ->
  Module_shape (Conv2d c_in c_out k 1 p weight) [n; c_in; h; w] = Some [n; c_out; h; w].
Proof.
  intros Hh Hw Hk Hp. simpl. rewrite decide_True by done. unfold window2d.
  by rewrite !window_out_same.
Qed.

Lemma AvgPool2d_shape_halve n c h w :
  2 <= h -> 2 <= w -> Module_shape (AvgPool2d 2 2) [n; c; h; w] = Some [n; c; h / 2; w / 2].
Proof. intros Hh Hw. simpl. unfold window2d. by rewrite !window_out_halve. Qed.

Lemma _DenseLayer_init_new_shape c g bn (dr : Q) n h w :
  1 <= h -> 1 <= w ->
  Sequential_size Module_shape (layer_modules (_DenseLayer_init c g bn dr)) [n; c; h; w]
  = Some [n; g; h; w].
Proof.
  intros Hh Hw. rewrite _DenseLayer_init_modules.
  erewrite Sequential_size_step by apply BatchNorm2d_shape.
  erewrite Sequential_size_step by apply ReLU_shape.
  erewrite Sequential_size_step by (by apply Conv2d_shape_same).
  erewrite Sequential_size_step by apply BatchNorm2d_shape.
  erewrite Sequential_size_step by apply ReLU_shape.
  erewrite Sequential_size_step by (by apply Conv2d_shape_same).
  done.
Qed.

Lemma _DenseLayer_init_shape c g bn (dr : Q) n h w :
  1 <= h -> 1 <= w -> (dr <= 1)%Q ->
  _DenseLayer_shape (_DenseLayer_init c g bn dr) [n; c; h; w] = Some [n; c + g; h; w].
Proof.
  intros Hh Hw Hdr. unfold _DenseLayer_shape.
  rewrite _DenseLayer_init_new_shape by done. simpl.
  assert (Hcat : cat1_size [n; c; h; w] [n; g; h; w] = Some [n; c + g; h; w]).
  { unfold cat1_size. by rewrite decide_True. }
  destruct (Qlt_le_dec 0 dr) as [Hpos|Hneg]; [|done].
  apply Qlt_le_weak in Hpos.
  apply Qle_bool_iff in Hpos, Hdr. by rewrite Hpos, Hdr.
Qed.

Lemma _Transition_init_shape c_in c_out n h w :
  2 <= h -> 2 <= w ->
  Sequential_size Module_shape (_Transition_init c_in c_out) [n; c_in; h; w]
  = Some [n; c_out; h / 2; w / 2].
Proof.
  intros Hh Hw. change (_Transition_init c_in c_out) with
    [("norm", BatchNorm2d c_in Initialised Initialised true); ("relu", ReLU true);
     ("conv", Conv2d c_in c_out 1 1 0 Initialised); ("pool", AvgPool2d 2 2)].
  erewrite Sequential_size_step by apply BatchNorm2d_shape.
  erewrite Sequential_size_step by apply ReLU_shape.
  erewrite Sequential_size_step by (apply Conv2d_shape_same; lia).
  erewrite Sequential_size_step by (by apply AvgPool2d_shape_halve).
  done.
Qed.

(** With more than one value per channel the batch normalisations accept
    what the window arithmetic accepts. *)
Lemma several_values n h w : 1 <= h -> 1 <= w -> 2 <= h \/ 2 <= w -> n * h * w <> 1.
Proof. intros Hh Hw Hhw. destruct (Z_le_gt_dec n 0); nia. Qed.

Lemma BatchNorm2d_size c a r tr n h w :
  n * h * w <> 1 -> Module_size (BatchNorm2d c a r tr) [n; c; h; w] = Some [n; c; h; w].
Proof.
  intros Hv. unfold Module_size.
  assert (Hvalues : values_per_channel [n; c; h; w] <> 1) by (simpl; lia).
  destruct tr; [rewrite decide_False by done|]; apply BatchNorm2d_shape.
Qed.

Lemma ReLU_size inplace s : Module_size (ReLU inplace) s = Some s.
Proof. done. Qed.

Lemma Conv2d_size_same c_in c_out k p weight n h w :
  1 <= h -> 1 <= w -> k = 2 * p + 1 -> 0 <= p ->
  Module_size (Conv2d c_in c_out k 1 p weight) [n; c_in; h; w] = Some [n; c_out; h; w].
Proof. apply Conv2d_shape_same. Qed.

Lemma AvgPool2d_size_halve n c h w :
  2 <= h -> 2 <= w -> Module_size (AvgPool2d 2 2) [n; c; h; w] = Some [n; c; h / 2; w / 2].
Proof. apply AvgPool2d_shape_halve. Qed.

Lemma _DenseLayer_init_new_size c g bn (dr : Q) n h w :
  1 <= h -> 1 <= w -> n * h * w <> 1 ->
  Sequential_size Module_size (layer_modules (_DenseLayer_init c g bn dr)) [n; c; h; w]
  = Some [n; g; h; w].
Proof.
  intros Hh Hw Hv. rewrite _DenseLayer_init_modules.
  erewrite Sequential_size_step by (by apply BatchNorm2d_size).
  erewrite Sequential_size_step by apply ReLU_size.
  erewrite Sequential_size_step by (by apply Conv2d_size_same).
  erewrite Sequential_size_step by (by apply BatchNorm2d_size).
  erewrite Sequential_size_step by apply ReLU_size.
  erewrite Sequential_size_step by (by apply Conv2d_size_same).
  done.
Qed.

Lemma _DenseLayer_init_size c g bn (dr : Q) n h w :
  1 <= h -> 1 <= w -> n * h * w <> 1 -> (dr <= 1)%Q ->
  _DenseLayer_size (_DenseLayer_init c g bn dr) [n; c; h; w] = Some [n; c + g; h; w].
Proof.
  intros Hh Hw Hv Hdr. unfold _DenseLayer_size.
  rewrite _DenseLayer_init_new_size by done. simpl.
  assert (Hcat : cat1_size [n; c; h; w] [n; g; h; w] = Some [n; c + g; h; w]).
  { unfold cat1_size. by rewrite decide_True. }
  destruct (Qlt_le_dec 0 dr) as [Hpos|Hneg]; [|done].
  apply Qlt_le_weak in Hpos.
  apply Qle_bool_iff in Hpos, Hdr. by rewrite Hpos, Hdr.
Qed.

Lemma _Transition_init_size c_in c_out n h w :
  2 <= h -> 2 <= w ->
  Sequential_size Module_size (_Transition_init c_in c_out) [n; c_in; h; w]
  = Some [n; c_out; h / 2; w / 2].
Proof.
  intros Hh Hw. change (_Transition_init c_in c_out) with
    [("norm", BatchNorm2d c_in Initialised Initialised true); ("relu", ReLU true);
     ("conv", Conv2d c_in c_out 1 1 0 Initialised); ("pool", AvgPool2d 2 2)].
  erewrite Sequential_size_step by (apply BatchNorm2d_size, several_values; lia).
  erewrite Sequential_size_step by apply ReLU_size.
  erewrite Sequential_size_step by (apply Conv2d_size_same; lia).
  erewrite Sequential_size_step by (by apply AvgPool2d_size_halve).
  done.
Qed.

(** ** [add_module] with new names, and the children of a [_DenseBlock] *)

Lemma add_module_new {M : Type} (self : Sequential M) name (module : M) :
  name ∉ self.*1 -> add_module self name module = self ++ [(name, module)].
Proof.
  induction self as [|[k m] rest IH]; intros Hname; simpl; [done|].
  rewrite fmap_cons, not_elem_of_cons in Hname. destruct Hname as [Hk Hrest]. simpl in Hk.
  rewrite decide_False by done. by rewrite IH.
Qed.

Lemma fold_add_module {M A : Type} (name : A -> string) (module : A -> M) (l : list A)
    (self : Sequential M) :
  NoDup (self.*1 ++ (name <$> l)) ->
  fold_left (fun self i => add_module self (name i) (module i)) l self
  = self ++ ((fun i => (name i, module i)) <$> l).
Proof.
  revert self. induction l as [|i l IH]; intros self Hnd; simpl.
  - by rewrite app_nil_r.
  - rewrite fmap_cons in Hnd. apply list.NoDup_app in Hnd as (Hself & Hdisj & Hl).
    apply list.NoDup_cons in Hl as [Hi Hl].
    rewrite add_module_new by (intros Hin; eapply Hdisj; [done|left]).
    rewrite IH, <- app_assoc; [done|].
    rewrite fmap_app. simpl. rewrite <- app_assoc. simpl.
    apply list.NoDup_app. split; [done|]. split; [|by apply list.NoDup_cons].
    intros k Hk. apply Hdisj in Hk. done.
Qed.

Lemma denselayer_name_inj : Inj (=) (=) (fun i : Z => "denselayer" +:+ pretty (i + 1)).
Proof.
  intros i j Hij. apply (inj (String.append "denselayer")) in Hij.
  apply (inj pretty) in Hij. lia.
Qed.

Lemma _DenseBlock_init_children num_layers c bn g (dr : Q) :
  _DenseBlock_init num_layers c bn g dr =
  (fun i => ("denselayer" +:+ pretty (i + 1), _DenseLayer_init (c + i * g) g bn dr))
    <$> seqZ 0 num_layers.
Proof.
  unfold _DenseBlock_init.
  rewrite (fold_add_module (fun i => "denselayer" +:+ pretty (i + 1))
             (fun i => _DenseLayer_init (c + i * g) g bn dr)); [done|].
  simpl. apply NoDup_fmap_2; [apply denselayer_name_inj|apply NoDup_seqZ].
Qed.

Lemma _DenseBlock_init_shape num_layers c bn g (dr : Q) n h w :
  0 <= num_layers -> 1 <= h -> 1 <= w -> (dr <= 1)%Q ->
  Sequential_size _DenseLayer_shape (_DenseBlock_init num_layers c bn g dr) [n; c; h; w]
  = Some [n; c + num_layers * g; h; w].
Proof.
  intros HL Hh Hw Hdr. rewrite _DenseBlock_init_children.
  rewrite <- (Z2Nat.id num_layers) by done.
  generalize (Z.to_nat num_layers). clear HL num_layers. intros k.
  assert (Hgen : forall start,
    Sequential_size _DenseLayer_shape
      ((fun i => ("denselayer" +:+ pretty (i + 1), _DenseLayer_init (c + i * g) g bn dr))
         <$> seqZ start (Z.of_nat k)) [n; c + start * g; h; w]
    = Some [n; c + (start + Z.of_nat k) * g; h; w]).
  { induction k as [|k IH]; intros start.
    - simpl. do 3 f_equal. lia.
    - rewrite seqZ_cons by lia. rewrite fmap_cons. simpl.
      rewrite _DenseLayer_init_shape by done. simpl.
      replace (Z.pred (Z.of_nat (S k))) with (Z.of_nat k) by lia.
      replace (c + start * g + g) with (c + Z.succ start * g) by lia.
      rewrite IH. do 3 f_equal. lia. }
  specialize (Hgen 0). rewrite Z.mul_0_l, Z.add_0_r in Hgen. by rewrite Hgen.
Qed.

Lemma _DenseBlock_init_size num_layers c bn g (dr : Q) n h w :
  0 <= num_layers -> 1 <= h -> 1 <= w -> n * h * w <> 1 -> (dr <= 1)%Q ->
  Sequential_size _DenseLayer_size (_DenseBlock_init num_layers c bn g dr) [n; c; h; w]
  = Some [n; c + num_layers * g; h; w].
Proof.
  intros HL Hh Hw Hv Hdr. rewrite _DenseBlock_init_children.
  rewrite <- (Z2Nat.id num_layers) by done.
  generalize (Z.to_nat num_layers). clear HL num_layers. intros k.
  assert (Hgen : forall start,
    Sequential_size _DenseLayer_size
      ((fun i => ("denselayer" +:+ pretty (i + 1), _DenseLayer_init (c + i * g) g bn dr))
         <$> seqZ start (Z.of_nat k)) [n; c + start * g; h; w]
    = Some [n; c + (start + Z.of_nat k) * g; h; w]).
  { induction k as [|k IH]; intros start.
    - simpl. do 3 f_equal. lia.
    - rewrite seqZ_cons by lia. rewrite fmap_cons. simpl.
      rewrite _DenseLayer_init_size by done. simpl.
      replace (Z.pred (Z.of_nat (S k))) with (Z.of_nat k) by lia.
      replace (c + start * g + g) with (c + Z.succ start * g) by lia.
      rewrite IH. do 3 f_equal. lia. }
  specialize (Hgen 0). rewrite Z.mul_0_l, Z.add_0_r in Hgen. by rewrite Hgen.
Qed.

(** ** The children of [DenseNet.features] *)

Section FeatureLemmas.
Context `{Numerics}.

Lemma Feature_ok (self : Feature) : ok_at Feature_forward Feature_size Feature_config self.
Proof.
  intros x mem t s' Hx Hs. destruct self as [module|block|trans]; simpl in *.
  - destruct (Module_ok module x mem t s' Hx Hs) as (m' & mem' & y & -> & Hcfg & Htouch & Hsz).
    exists (Plain m'), mem', y. simpl. by rewrite Hcfg.
  - assert (Hok : Forall (fun item => ok_at _DenseLayer_forward _DenseLayer_size
                                        _DenseLayer_config item.2) block).
    { apply Forall_forall. intros ? _. apply _DenseLayer_ok. }
    destruct (Sequential_ok _ _ _ block Hok x mem t s' Hx Hs)
      as (b' & mem' & y & -> & Hcfg & Htouch & Hsz).
    exists (Block b'), mem', y. simpl. by rewrite Hcfg.
  - assert (Hok : Forall (fun item => ok_at Module_forward Module_size Module_config item.2) trans).
    { apply Forall_forall. intros ? _. apply Module_ok. }
    destruct (Sequential_ok _ _ _ trans Hok x mem t s' Hx Hs)
      as (t' & mem' & y & -> & Hcfg & Htouch & Hsz).
    exists (Transition t'), mem', y. simpl. by rewrite Hcfg.
Qed.

Lemma Feature_fresh module :
  module <> ReLU true -> fresh_at Feature_forward Feature_size Feature_config (Plain module).
Proof.
  intros Hm x mem t s' Hx Hs. simpl in *.
  destruct (Module_fresh module Hm x mem t s' Hx Hs) as (m' & mem' & y & -> & Hcfg & Hext & Hsz).
  exists (Plain m'), mem', y. simpl. by rewrite Hcfg.
Qed.

Lemma _DenseLayer_shape_config (self : _DenseLayer) s :
  _DenseLayer_shape (_DenseLayer_config self) s = _DenseLayer_shape self s.
Proof.
  unfold _DenseLayer_shape, _DenseLayer_config. simpl.
  rewrite Sequential_size_config; [done|]. intros m s0. by rewrite Module_shape_config.
Qed.

Lemma Feature_shape_config (self : Feature) s :
  Feature_shape (Feature_config self) s = Feature_shape self s.
Proof.
  destruct self as [module|block|trans]; simpl.
  - by rewrite Module_shape_config.
  - apply Sequential_size_config, _DenseLayer_shape_config.
  - apply Sequential_size_config. intros m s0. by rewrite Module_shape_config.
Qed.

Lemma _DenseLayer_size_shape (self : _DenseLayer) s s' :
  _DenseLayer_size self s = Some s' -> _DenseLayer_shape self s = Some s'.
Proof.
  unfold _DenseLayer_size, _DenseLayer_shape.
  destruct (Sequential_size Module_size _ s) as [s_new|] eqn:Hnew; [|done].
  by rewrite (Sequential_size_mono _ _ _ _ _ Module_size_shape Hnew).
Qed.

Lemma Feature_size_shape (self : Feature) s s' :
  Feature_size self s = Some s' -> Feature_shape self s = Some s'.
Proof.
  destruct self as [module|block|trans]; simpl.
  - apply Module_size_shape.
  - apply Sequential_size_mono, _DenseLayer_size_shape.
  - apply Sequential_size_mono, Module_size_shape.
Qed.

(** A layer, and an item of [features], accepts what it accepts in training
    mode. *)
Lemma _DenseLayer_size_config_Some (self : _DenseLayer) s s' :
  _DenseLayer_size (_DenseLayer_config self) s = Some s' -> _DenseLayer_size self s = Some s'.
Proof.
  unfold _DenseLayer_size, _DenseLayer_config. simpl.
  destruct (Sequential_size Module_size (Sequential_map _ _) s) as [s_new|] eqn:Hnew; [|done].
  by rewrite (Sequential_size_config_Some _ _ _ _ _ Module_size_config_Some Hnew).
Qed.

Lemma Feature_size_config_Some (self : Feature) s s' :
  Feature_size (Feature_config self) s = Some s' -> Feature_size self s = Some s'.
Proof.
  destruct self as [module|block|trans]; simpl.
  - apply Module_size_config_Some.
  - apply Sequential_size_config_Some, _DenseLayer_size_config_Some.
  - apply Sequential_size_config_Some, Module_size_config_Some.
Qed.

Lemma Feature_forward_config (self : Feature) x mem :
  Feature_config (Feature_forward self x mem).1.1 = Feature_config self.
Proof.
  destruct self as [module|block|trans]; simpl.
  - pose proof (Module_forward_config module x mem) as Hm.
    destruct (Module_forward module x mem) as [[m' mem'] r]. simpl in *. by rewrite Hm.
  - pose proof (Sequential_forward_keeps _DenseLayer_forward _DenseLayer_config block x mem
                  _DenseLayer_config_forward) as Hb.
    destruct (Sequential_forward _ block x mem) as [[b' mem'] r]. simpl in *.
    f_equal. unfold Sequential_map.
    etrans; [|etrans; [exact Hb|]]; apply map_ext; by intros [].
  - pose proof (Sequential_forward_keeps Module_forward Module_config trans x mem
                  Module_forward_config) as Ht.
    destruct (Sequential_forward _ trans x mem) as [[t' mem'] r]. simpl in *.
    f_equal. unfold Sequential_map.
    etrans; [|etrans; [exact Ht|]]; apply map_ext; by intros [].
Qed.

End FeatureLemmas.

(** ** [DenseNet] with four blocks *)

Lemma DenseNet_init_four g n1 n2 n3 n4 m bn (dr : Q) k :
  let o1 := stage_out m n1 g in
  let o2 := stage_out (o1 / 2) n2 g in
  let o3 := stage_out (o2 / 2) n3 g in
  let o4 := stage_out (o3 / 2) n4 g in
  DenseNet_init g [n1; n2; n3; n4] m bn dr k =
  mkDenseNet
    [("conv0", Plain (Conv2d 3 m 7 2 3 Initialised));
     ("norm0", Plain (BatchNorm2d m Initialised Initialised true));
     ("relu0", Plain (ReLU true));
     ("pool0", Plain (MaxPool2d 3 2 1));
     ("denseblock1", Block (_DenseBlock_init n1 m bn g dr));
     ("transition1", Transition (_Transition_init o1 (o1 / 2)));
     ("denseblock2", Block (_DenseBlock_init n2 (o1 / 2) bn g dr));
     ("transition2", Transition (_Transition_init o2 (o2 / 2)));
     ("denseblock3", Block (_DenseBlock_init n3 (o2 / 2) bn g dr));
     ("transition3", Transition (_Transition_init o3 (o3 / 2)));
     ("denseblock4", Block (_DenseBlock_init n4 (o3 / 2) bn g dr));
     ("norm5", Plain (BatchNorm2d o4 Initialised Initialised true))]
    (Linear o4 k Initialised).
Proof. reflexivity. Qed.

Lemma extents_in_range h :
  221 <= h <= 444 -> 8 <= stem_extent h /\ 7 <= features_extent h <= 13.
Proof.
  intros Hh. unfold features_extent, stem_extent.
  Z.div_mod_to_equations. lia.
Qed.

Lemma extent_pooled h : 7 <= h <= 13 -> h / 7 = 1.
Proof. intros Hh. Z.div_mod_to_equations. lia. Qed.

Lemma DenseNet_features_shape g n1 n2 n3 n4 m bn (dr : Q) k n h w :
  0 <= n1 -> 0 <= n2 -> 0 <= n3 -> 0 <= n4 -> (dr <= 1)%Q ->
  1 <= h -> 1 <= w -> 8 <= stem_extent h -> 8 <= stem_extent w ->
  Sequential_size Feature_shape (features (DenseNet_init g [n1; n2; n3; n4] m bn dr k)) [n; 3; h; w]
  = Some [n; stage_out (stage_out (stage_out (stage_out m n1 g / 2) n2 g / 2) n3 g / 2) n4 g;
          features_extent h; features_extent w].
Proof.
  intros Hn1 Hn2 Hn3 Hn4 Hdr Hh Hw Hsh Hsw.
  rewrite DenseNet_init_four. cbv zeta. cbn [features].
  assert (Hh2 : 4 <= stem_extent h / 2 /\ 2 <= stem_extent h / 2 / 2 /\ 1 <= stem_extent h / 2 / 2 / 2)
    by (Z.div_mod_to_equations; lia).
  assert (Hw2 : 4 <= stem_extent w / 2 /\ 2 <= stem_extent w / 2 / 2 /\ 1 <= stem_extent w / 2 / 2 / 2)
    by (Z.div_mod_to_equations; lia).
  erewrite Sequential_size_step; cycle 1.
  { unfold Feature_shape, Module_shape. rewrite decide_True by done. unfold window2d.
    by rewrite !(window_out_stride2 _ 7 3) by lia. }
  erewrite Sequential_size_step by apply BatchNorm2d_shape.
  erewrite Sequential_size_step by apply ReLU_shape.
  erewrite Sequential_size_step; cycle 1.
  { unfold Feature_shape, Module_shape, channels, window2d.
    rewrite !(window_out_stride2 _ 3 1) by (Z.div_mod_to_equations; lia). done. }
  fold (stem_extent h). fold (stem_extent w).
  erewrite Sequential_size_step by (apply _DenseBlock_init_shape; first [lia|done]).
  erewrite Sequential_size_step by (apply _Transition_init_shape; lia).
  erewrite Sequential_size_step by (apply _DenseBlock_init_shape; first [lia|done]).
  erewrite Sequential_size_step by (apply _Transition_init_shape; lia).
  erewrite Sequential_size_step by (apply _DenseBlock_init_shape; first [lia|done]).
  erewrite Sequential_size_step by (apply _Transition_init_shape; lia).
  erewrite Sequential_size_step by (apply _DenseBlock_init_shape; first [lia|done]).
  erewrite Sequential_size_step by apply BatchNorm2d_shape.
  done.
Qed.

Lemma DenseNet_features_size g n1 n2 n3 n4 m bn (dr : Q) k n h w :
  0 <= n1 -> 0 <= n2 -> 0 <= n3 -> 0 <= n4 -> (dr <= 1)%Q ->
  1 <= h -> 1 <= w -> 8 <= stem_extent h -> 8 <= stem_extent w ->
  n * features_extent h * features_extent w <> 1 ->
  Sequential_size Feature_size (features (DenseNet_init g [n1; n2; n3; n4] m bn dr k)) [n; 3; h; w]
  = Some [n; stage_out (stage_out (stage_out (stage_out m n1 g / 2) n2 g / 2) n3 g / 2) n4 g;
          features_extent h; features_extent w].
Proof.
  intros Hn1 Hn2 Hn3 Hn4 Hdr Hh Hw Hsh Hsw Hv.
  rewrite DenseNet_init_four. cbv zeta. cbn [features].
  assert (Hh2 : 4 <= stem_extent h / 2 /\ 2 <= stem_extent h / 2 / 2 /\ 1 <= stem_extent h / 2 / 2 / 2)
    by (Z.div_mod_to_equations; lia).
  assert (Hw2 : 4 <= stem_extent w / 2 /\ 2 <= stem_extent w / 2 / 2 /\ 1 <= stem_extent w / 2 / 2 / 2)
    by (Z.div_mod_to_equations; lia).
  unfold features_extent in Hv.
  erewrite Sequential_size_step; cycle 1.
  { unfold Feature_size, Module_size, Module_shape. rewrite decide_True by done. unfold window2d.
    by rewrite !(window_out_stride2 _ 7 3) by lia. }
  erewrite Sequential_size_step; cycle 1.
  { apply BatchNorm2d_size, several_values; unfold stem_extent in Hsh, Hsw;
      Z.div_mod_to_equations; lia. }
  erewrite Sequential_size_step by apply ReLU_size.
  erewrite Sequential_size_step; cycle 1.
  { unfold Feature_size, Module_size, Module_shape, channels, window2d.
    rewrite !(window_out_stride2 _ 3 1) by (Z.div_mod_to_equations; lia). done. }
  fold (stem_extent h). fold (stem_extent w).
  erewrite Sequential_size_step
    by (apply _DenseBlock_init_size; first [lia|done|apply several_values; lia]).
  erewrite Sequential_size_step by (apply _Transition_init_size; lia).
  erewrite Sequential_size_step
    by (apply _DenseBlock_init_size; first [lia|done|apply several_values; lia]).
  erewrite Sequential_size_step by (apply _Transition_init_size; lia).
  erewrite Sequential_size_step
    by (apply _DenseBlock_init_size; first [lia|done|apply several_values; lia]).
  erewrite Sequential_size_step by (apply _Transition_init_size; lia).
  erewrite Sequential_size_step
    by (apply _DenseBlock_init_size; first [lia|done|apply several_values; lia]).
  erewrite Sequential_size_step by (by apply BatchNorm2d_size).
  done.
Qed.

Section NetLemmas.
Context `{Numerics}.

Lemma F_relu__spec x mem t :
  cells mem !! x = Some t ->
  exists mem', F_relu_ x mem = (mem', Some x) /\ touches_only mem x mem' x /\
               has_size mem' x (size t).
Proof.
  intros Hx. unfold F_relu_. rewrite Hx.
  destruct (write_touches mem x t (mkTensor (size t) (fun i => relu (data t i))) Hx eq_refl)
    as [Htouch Hnew].
  eexists. split; [reflexivity|]. split; [done|]. eexists. split; [eassumption|done].
Qed.

Lemma F_avg_pool2d_7 x mem t n c h w :
  cells mem !! x = Some t -> size t = [n; c; h; w] -> 7 <= h <= 13 -> 7 <= w <= 13 ->
  exists mem' y, F_avg_pool2d x 7 mem = (mem', Some y) /\ extends mem mem' y /\
                 has_size mem' y [n; c; 1; 1].
Proof.
  intros Hx Hs Hh Hw. unfold F_avg_pool2d. rewrite Hx, Hs.
  unfold Module_size, Module_shape, channels, window2d.
  rewrite !window_out_pool7 by lia. rewrite !extent_pooled by done.
  destruct (alloc_extends mem (mkTensor [n; c; 1; 1] (kernel (AvgPool2d 7 7) t))) as [Hext Hnew].
  eexists _, _. split; [reflexivity|]. split; [done|]. eexists. split; [eassumption|done].
Qed.

Lemma view_rows_spec x mem t n c :
  cells mem !! x = Some t -> size t = [n; c; 1; 1] -> 0 < n ->
  exists mem' y, view_rows x n mem = (mem', Some y) /\ extends mem mem' y /\
                 has_size mem' y [n; c].
Proof.
  intros Hx Hs Hn. unfold view_rows. rewrite Hx, Hs.
  assert (Hnumel : numel [n; c; 1; 1] = c * n) by (unfold numel; simpl; lia).
  rewrite Hnumel. rewrite decide_True by (split; [done|apply Z_mod_mult]).
  rewrite Z_div_mult by lia.
  match goal with |- context [alloc mem ?t'] =>
    destruct (alloc_extends mem t') as [Hext Hnew] end.
  eexists _, _. split; [reflexivity|]. split; [done|]. eexists. split; [eassumption|done].
Qed.

Lemma features_fresh (fs : Sequential Feature) name c rest :
  Sequential_map Feature_config fs = (name, Plain c) :: rest -> c <> ReLU true ->
  fresh_at (Sequential_forward Feature_forward) (Sequential_size Feature_size)
           (Sequential_map Feature_config) fs.
Proof.
  intros Hfs Hc. destruct fs as [|[name1 f1] fs]; [done|].
  simpl in Hfs. injection Hfs as -> Hf1 _.
  destruct f1 as [m1| |]; try done. simpl in Hf1. injection Hf1 as Hm1.
  apply Sequential_fresh.
  - apply Feature_fresh. intros ->. by subst c.
  - apply Forall_forall. intros ? _. apply Feature_ok.
Qed.

Lemma DenseNet_config_forward (self : DenseNet) x mem :
  DenseNet_config (DenseNet_forward self x mem).1.1 = DenseNet_config self.
Proof.
  unfold DenseNet_forward.
  pose proof (Sequential_forward_keeps Feature_forward Feature_config (features self) x mem
                Feature_forward_config) as Hkeep.
  destruct (Sequential_forward _ (features self) x mem) as [[fs' mem1] r]. simpl in Hkeep.
  assert (Hfs : Sequential_map Feature_config fs' = Sequential_map Feature_config (features self)).
  { unfold Sequential_map. etrans; [|etrans; [exact Hkeep|]]; apply map_ext; by intros []. }
  assert (Hnet : DenseNet_config (mkDenseNet fs' (classifier self)) = DenseNet_config self).
  { unfold DenseNet_config. cbn [features classifier]. by rewrite Hfs. }
  destruct r as [fo|]; [|done].
  destruct (F_relu_ fo mem1) as [mem2 [out|]]; [|done].
  destruct (F_avg_pool2d out 7 mem2) as [mem3 [out'|]]; [|done].
  destruct (size0 fo mem3) as [n|]; [|done].
  destruct (view_rows out' n mem3) as [mem4 [out''|]]; [|done].
  cbn [classifier].
  pose proof (Module_forward_config (classifier self) out'' mem4) as Hcls.
  destruct (Module_forward (classifier self) out'' mem4) as [[cls' mem5] r5]. simpl in *.
  unfold DenseNet_config. cbn [features classifier fst]. by rewrite Hfs, Hcls.
Qed.

Lemma DenseNet_forward_ok (self : DenseNet) g n1 n2 n3 n4 m bn (dr : Q) k x mem t n h w :
  DenseNet_config self = DenseNet_init g [n1; n2; n3; n4] m bn dr k ->
  0 <= n1 -> 0 <= n2 -> 0 <= n3 -> 0 <= n4 -> (dr <= 1)%Q ->
  0 < n -> 221 <= h <= 444 -> 221 <= w <= 444 ->
  cells mem !! x = Some t -> size t = [n; 3; h; w] ->
  exists self' mem' y,
    DenseNet_forward self x mem = (self', mem', Some y) /\
    extends mem mem' y /\ has_size mem' y [n; k].
Proof.
  intros Hcfg Hn1 Hn2 Hn3 Hn4 Hdr Hn Hh Hw Hx Hs.
  destruct (extents_in_range h Hh) as [Hsh Hfh].
  destruct (extents_in_range w Hw) as [Hsw Hfw].
  pose proof (DenseNet_features_size g n1 n2 n3 n4 m bn dr k n h w
                Hn1 Hn2 Hn3 Hn4 Hdr ltac:(lia) ltac:(lia) Hsh Hsw
                ltac:(apply several_values; lia)) as Hfs.
  pose proof (DenseNet_init_four g n1 n2 n3 n4 m bn dr k) as Hinit. cbv zeta in Hinit.
  set (o4 := stage_out (stage_out (stage_out (stage_out m n1 g / 2) n2 g / 2) n3 g / 2) n4 g) in *.
  rewrite <- Hcfg in Hfs, Hinit. unfold DenseNet_config in Hfs, Hinit. simpl in Hfs.
  injection Hinit as Hfeatures Hclassifier.
  apply (Sequential_size_config_Some _ _ _ _ _ Feature_size_config_Some) in Hfs.
  rewrite <- Hs in Hfs.
  destruct (features_fresh (features self) _ _ _ Hfeatures ltac:(done) x mem t _ Hx Hfs)
    as (fs' & mem1 & fo & Hrun & _ & Hext1 & (tf & Hfo & Htf)).
  unfold DenseNet_forward. rewrite Hrun.
  destruct (F_relu__spec fo mem1 tf Hfo) as (mem2 & -> & Htouch2 & (tf2 & Hfo2 & Htf2)).
  rewrite Htf in Htf2.
  destruct (F_avg_pool2d_7 fo mem2 tf2 _ _ _ _ Hfo2 Htf2 Hfh Hfw)
    as (mem3 & out1 & -> & Hext3 & (tp & Hout1 & Htp)).
  unfold size0. rewrite (extends_lookup _ _ _ _ _ Hext3 Hfo2), Htf2. simpl.
  destruct (view_rows_spec out1 mem3 tp _ _ Hout1 Htp Hn)
    as (mem4 & out2 & -> & Hext4 & (tv & Hout2 & Htv)).
  assert (Hcls : Module_size (classifier self) (size tv) = Some [n; k]).
  { apply Module_size_config_Some. rewrite Hclassifier, Htv. simpl. by rewrite decide_True. }
  assert (Hlin : classifier self <> ReLU true).
  { intros Heq. by rewrite Heq in Hclassifier. }
  destruct (Module_fresh _ Hlin out2 mem4 tv _ Hout2 Hcls)
    as (cls' & mem5 & y & -> & _ & Hext5 & Hy).
  eexists _, _, _. split; [reflexivity|]. split; [|done].
  eapply extends_trans; [|exact Hext5].
  eapply extends_trans; [|exact Hext4].
  eapply extends_trans; [|exact Hext3].
  by eapply extends_then_touches.
Qed.

End NetLemmas.

(** ** [_DenseLayer.forward] concatenates *)

Section LayerTheorems.
Context `{Numerics}.

Lemma cat1_data (x y out : Tensor scalar) n c rest b k j :
  cat1 x y = Some out -> size x = n :: c :: rest ->
  data out (b :: k :: j) =
  if decide (k < c) then data x (b :: k :: j) else data y (b :: k - c :: j).
Proof.
  unfold cat1. intros Hcat Hx. rewrite Hx in Hcat.
  destruct (size y) as [|n' [|c' rest']]; try done.
  destruct (decide _); [|done]. by injection Hcat as <-.
Qed.

Lemma _DenseLayer_config_first (self : _DenseLayer) c g bn (dr : Q) :
  _DenseLayer_config self = _DenseLayer_init c g bn dr ->
  exists name m rest, layer_modules self = (name, m) :: rest /\ m <> ReLU true.
Proof.
  intros Hcfg. apply (f_equal layer_modules) in Hcfg.
  rewrite _DenseLayer_init_modules in Hcfg. simpl in Hcfg.
  destruct (layer_modules self) as [|[name m] rest]; [done|].
  exists name, m, rest. split; [done|]. intros ->. done.
Qed.

Lemma _DenseLayer_config_sizes (self : _DenseLayer) c g bn (dr : Q) n h w :
  _DenseLayer_config self = _DenseLayer_init c g bn dr ->
  1 <= h -> 1 <= w -> n * h * w <> 1 -> (dr <= 1)%Q ->
  Sequential_size Module_size (layer_modules self) [n; c; h; w] = Some [n; g; h; w] /\
  _DenseLayer_size self [n; c; h; w] = Some [n; c + g; h; w].
Proof.
  intros Hcfg Hh Hw Hv Hdr. split.
  - apply (Sequential_size_config_Some _ _ _ _ _ Module_size_config_Some).
    change (Sequential_map Module_config (layer_modules self))
      with (layer_modules (_DenseLayer_config self)).
    rewrite Hcfg. by apply _DenseLayer_init_new_size.
  - apply _DenseLayer_size_config_Some. rewrite Hcfg. by apply _DenseLayer_init_size.
Qed.

(** C3.  For every input [x] with [C] channels that a [_DenseLayer] built
    with [num_input_features = C] and growth rate [g] accepts (four
    dimensions, spatial extents at least 1, more than the single value per
    channel on which batch normalisation in training mode raises, and a
    dropout rate the library accepts), [forward] returns the concatenation along the
    channel dimension of [x] itself with the [g] channels of new features
    it computed: the output has [C + g] channels, its first [C] channels
    are those of [x], the rest are the new features, and the input tensor
    is left as it was. *)
Theorem C3_dense_layer_concatenates (self : _DenseLayer) C g bn (dr : Q) x mem t n h w :
  _DenseLayer_config self = _DenseLayer_init C g bn dr ->
  (dr <= 1)%Q ->
  cells mem !! x = Some t -> size t = [n; C; h; w] -> 1 <= h -> 1 <= w ->
  n * h * w <> 1 ->
  exists self' mem' y a new out,
    _DenseLayer_forward self x mem = (self', mem', Some y) /\
    cells mem' !! x = Some t /\
    (length (cells mem) <= a)%nat /\ cells mem' !! a = Some new /\ size new = [n; g; h; w] /\
    cells mem' !! y = Some out /\ cat1 t new = Some out /\
    size out = [n; C + g; h; w] /\
    (forall b k i j, k < C -> data out [b; k; i; j] = data t [b; k; i; j]) /\
    (forall b k i j, C <= k -> data out [b; k; i; j] = data new [b; k - C; i; j]).
Proof.
  intros Hcfg Hdr Hx Hs Hh Hw Hv.
  destruct (_DenseLayer_config_first self C g bn dr Hcfg) as (name & m & rest & Hmods & Hm).
  destruct (_DenseLayer_config_sizes self C g bn dr n h w Hcfg Hh Hw Hv Hdr) as [Hnew Hout].
  rewrite <- Hs in Hnew, Hout.
  destruct (_DenseLayer_forward_cat self name m rest x mem t _ _ Hmods Hm Hx Hnew Hout)
    as (self' & mem' & y & a & new & out & Hrun & _ & Hext & Hy & Ha & Hnew' & Hsn & Hcat & Hso).
  exists self', mem', y, a, new, out.
  split; [done|]. split; [by eapply extends_lookup|].
  do 6 (split; [done|]).
  split; intros b k i j Hk; rewrite (cat1_data _ _ _ _ _ _ b k [i; j] Hcat Hs).
  - by rewrite decide_True.
  - by rewrite decide_False by lia.
Qed.

End LayerTheorems.

(** C3 at a layer built by [_DenseLayer(1, 2, 3, .5)] (the notebook's test
    cell) on one 1-channel 4 x 4 image. *)
Lemma C3_dense_layer_concatenates_witness :
  let input : Tensor (@scalar sizes_only) := mkTensor [1; 1; 4; 4] (fun _ => tt) in
  exists (self' : _DenseLayer) (mem' : @Mem sizes_only) (y a : nat)
         (new out : Tensor (@scalar sizes_only)),
    @_DenseLayer_forward sizes_only (_DenseLayer_init 1 2 3 0.5) 0%nat (one_tensor [1; 1; 4; 4])
      = (self', mem', Some y) /\
    cells mem' !! 0%nat = Some input /\
    (length (cells (one_tensor [1; 1; 4; 4]%Z)) <= a)%nat /\
    cells mem' !! a = Some new /\ size new = [1; 2; 4; 4] /\
    cells mem' !! y = Some out /\
    @cat1 sizes_only input new = Some out /\
    size out = [1; 1 + 2; 4; 4] /\
    (forall b k i j, k < 1 -> data out [b; k; i; j] = data input [b; k; i; j]) /\
    (forall b k i j, 1 <= k -> data out [b; k; i; j] = data new [b; k - 1; i; j]).
Proof.
  apply (@C3_dense_layer_concatenates sizes_only (_DenseLayer_init 1 2 3 0.5) 1 2 3 0.5
           0%nat (one_tensor [1; 1; 4; 4]) (mkTensor [1; 1; 4; 4] (fun _ => tt)) 1 4 4).
  - reflexivity.
  - discriminate.
  - reflexivity.
  - reflexivity.
  - lia.
  - lia.
  - lia.
Defined.

(** ** [_DenseBlock]: every layer sees all the layers before it *)

Section BlockTheorems.
Context `{Numerics}.




End BlockTheorems.


(** ** [_Transition] *)

Lemma add_module_Forall {M : Type} (P : M -> Prop) (self : Sequential M) name module :
  Forall (fun item => P item.2) self -> P module ->
  Forall (fun item => P item.2) (add_module self name module).
Proof.
  intros Hself Hm. induction Hself as [|[k m] rest Hk Hrest IH]; simpl.
  - by constructor.
  - destruct (decide (k = name)); by constructor.
Qed.

Lemma DenseNet_init_Forall (P : Feature -> Prop) g block_config m bn (dr : Q) k :
  (forall module, P (Plain module)) ->
  (forall num_layers c, P (Block (_DenseBlock_init num_layers c bn g dr))) ->
  (forall c, P (Transition (_Transition_init c (c / 2)))) ->
  Forall (fun item => P item.2) (features (DenseNet_init g block_config m bn dr k)).
Proof.
  intros Hplain Hblock Htrans. unfold DenseNet_init.
  match goal with |- context [fold_left ?F ?l ?acc] =>
    assert (Hfold : forall l' acc', Forall (fun item => P item.2) acc'.1 ->
                      Forall (fun item => P item.2) (fold_left F l' acc').1);
    [|specialize (Hfold l acc); destruct (fold_left F l acc) as [fs c]]
  end.
  - induction l' as [|[i num_layers] l' IH]; intros [fs c] Hfs; [done|].
    cbn [fold_left]. apply IH. cbn [fst] in Hfs.
    destruct (decide _); cbn [fst]; repeat apply add_module_Forall; auto.
  - cbn [features]. apply add_module_Forall; [|done]. apply Hfold. cbn [fst].
    unfold Sequential_init. simpl. repeat constructor; apply Hplain.
Qed.

Section TransitionTheorems.
Context `{Numerics}.

Lemma _Transition_forward_ok (self : _Transition) c_in c_out x mem t n h w :
  Sequential_map Module_config self = _Transition_init c_in c_out ->
  cells mem !! x = Some t -> size t = [n; c_in; h; w] -> 2 <= h -> 2 <= w ->
  exists self' mem' y,
    Sequential_forward Module_forward self x mem = (self', mem', Some y) /\
    extends mem mem' y /\ has_size mem' y [n; c_out; h / 2; w / 2].
Proof.
  intros Hcfg Hx Hs Hh Hw.
  pose proof (_Transition_init_size c_in c_out n h w Hh Hw) as Hsize.
  rewrite <- Hcfg, <- Hs in Hsize.
  apply (Sequential_size_config_Some _ _ _ _ _ Module_size_config_Some) in Hsize.
  destruct self as [|[name m] rest]; [done|].
  assert (Hm : m <> ReLU true) by (intros ->; done).
  assert (Hrest : Forall (fun item => ok_at Module_forward Module_size Module_config item.2) rest).
  { apply Forall_forall. intros ? _. apply Module_ok. }
  destruct (Sequential_fresh _ _ _ name m rest (Module_fresh m Hm) Hrest x mem t _ Hx Hsize)
    as (self' & mem' & y & Hrun & _ & Hext & Hy).
  by exists self', mem', y.
Qed.

Lemma _DenseBlock_forward_ok (self : _DenseBlock) num_layers c bn g (dr : Q) x mem t n h w :
  Sequential_map _DenseLayer_config self = _DenseBlock_init num_layers c bn g dr ->
  0 <= num_layers -> (dr <= 1)%Q ->
  cells mem !! x = Some t -> size t = [n; c; h; w] -> 1 <= h -> 1 <= w ->
  n * h * w <> 1 ->
  exists self' mem' y,
    Sequential_forward _DenseLayer_forward self x mem = (self', mem', Some y) /\
    has_size mem' y [n; stage_out c num_layers g; h; w].
Proof.
  intros Hcfg HL Hdr Hx Hs Hh Hw Hv.
  pose proof (_DenseBlock_init_size num_layers c bn g dr n h w HL Hh Hw Hv Hdr) as Hsize.
  rewrite <- Hcfg, <- Hs in Hsize.
  apply (Sequential_size_config_Some _ _ _ _ _ _DenseLayer_size_config_Some) in Hsize.
  assert (Hok : Forall (fun item => ok_at _DenseLayer_forward _DenseLayer_size
                                      _DenseLayer_config item.2) self).
  { apply Forall_forall. intros ? _. apply _DenseLayer_ok. }
  destruct (Sequential_ok _ _ _ self Hok x mem t _ Hx Hsize)
    as (self' & mem' & y & Hrun & _ & _ & Hy).
  by exists self', mem', y.
Qed.

(** C5.  A [_Transition] built with [num_input_features = c_in] and
    [num_output_features = c_out] maps an input of [c_in] channels and
    spatial size [h] x [w] (each at least 2, the pooling window) to an
    output of [c_out] channels and spatial size [h / 2] x [w / 2], floor
    division; every transition [DenseNet] builds, whatever the block
    configuration, has [c_out = c_in / 2]; and a [DenseNet] of four blocks
    builds exactly three of them, one after each block but the last, for
    the channel count [o_i] that leaves the block and [o_i / 2]. *)
Theorem C5_transition_halves :
  (forall (self : _Transition) c_in c_out x mem t n h w,
     Sequential_map Module_config self = _Transition_init c_in c_out ->
     cells mem !! x = Some t -> size t = [n; c_in; h; w] -> 2 <= h -> 2 <= w ->
     exists self' mem' y,
       Sequential_forward Module_forward self x mem = (self', mem', Some y) /\
       extends mem mem' y /\ has_size mem' y [n; c_out; h / 2; w / 2]) /\
  (forall g block_config m bn (dr : Q) k name trans,
     (name, Transition trans) ∈ features (DenseNet_init g block_config m bn dr k) ->
     exists c_in, trans = _Transition_init c_in (c_in / 2)) /\
  (forall g n1 n2 n3 n4 m bn (dr : Q) k,
     let o1 := stage_out m n1 g in
     let o2 := stage_out (o1 / 2) n2 g in
     let o3 := stage_out (o2 / 2) n3 g in
     transitions (features (DenseNet_init g [n1; n2; n3; n4] m bn dr k)) =
       [("transition1", _Transition_init o1 (o1 / 2));
        ("transition2", _Transition_init o2 (o2 / 2));
        ("transition3", _Transition_init o3 (o3 / 2))]).
Proof.
  split; [|split].
  - apply _Transition_forward_ok.
  - intros g block_config m bn dr k name trans Hin.
    pose proof (DenseNet_init_Forall
      (fun f => match f with
                | Transition trans => exists c_in, trans = _Transition_init c_in (c_in / 2)
                | _ => True
                end) g block_config m bn dr k) as Hall.
    rewrite list.Forall_forall in Hall. apply (Hall ltac:(done) ltac:(done) ltac:(by eexists) _ Hin).
  - intros g n1 n2 n3 n4 m bn dr k. by rewrite DenseNet_init_four.
Qed.

End TransitionTheorems.

(** C5 at the transition of the notebook's test cell, [_Transition(64, 5)],
    on a 64-channel 7 x 9 input, and at the second transition of a small
    network, built for 14 channels in and 7 out. *)
Lemma C5_transition_halves_witness :
  (exists self' (mem' : @Mem sizes_only) y,
     @Sequential_forward sizes_only _ (@Module_forward sizes_only) (_Transition_init 64 5)
         0%nat (one_tensor [1; 64; 7; 9]) = (self', mem', Some y) /\
     extends (one_tensor [1; 64; 7; 9]) mem' y /\ has_size mem' y [1; 5; 7 / 2; 9 / 2]) /\
  ("transition2", Transition (_Transition_init 14 7))
    ∈ features (DenseNet_init 4 [1; 2; 1; 1] 8 2 0 3) /\
  exists c_in, _Transition_init 14 7 = _Transition_init c_in (c_in / 2).
Proof.
  destruct (@C5_transition_halves sizes_only) as (Hpass & Hbuilt & _).
  assert (Hin : ("transition2", Transition (_Transition_init 14 7))
                  ∈ features (DenseNet_init 4 [1; 2; 1; 1] 8 2 0 3)).
  { apply (list_elem_of_lookup_2 _ 7%nat). reflexivity. }
  split; [|split; [exact Hin|]].
  - apply (Hpass (_Transition_init 64 5) 64 5 0%nat
             (one_tensor [1; 64; 7; 9]) (mkTensor [1; 64; 7; 9] (fun _ => tt)) 1 7 9).
    + reflexivity.
    + reflexivity.
    + reflexivity.
    + lia.
    + lia.
  - exact (Hbuilt _ _ _ _ _ _ _ _ Hin).
Defined.

(** ** [DenseNet]: channel counts chain, and the size of the logits *)

Section NetTheorems.
Context `{Numerics}.

(** C1.  In a [DenseNet] built with growth rate [g], layer counts
    [(n1, n2, n3, n4)] and [m] initial features, stage [i] is built for
    the channel count [c_i] that reaches it: [c_1 = m]; the block of stage
    [i] turns [c_i] channels into [o_i = c_i + n_i * g] by concatenation;
    each of the first three blocks is followed by a transition built for
    [o_i] input and [o_i / 2] output channels, and the next block is built
    for [c_(i+1) = o_i / 2]; the final normalisation and the classifier are
    built for [o_4], the channel count leaving the last block, not halved.
    A pass through [features] therefore returns, with [o_4] channels, on
    every batch that leaves the stem at least 8 x 8 and reaches the last
    block with more than the single value per channel on which batch
    normalisation in training mode raises; a pass through a block needs
    the same of its input. *)
Theorem C1_channel_chain g n1 n2 n3 n4 m bn (dr : Q) k :
  let net := DenseNet_init g [n1; n2; n3; n4] m bn dr k in
  let c1 := m in
  let o1 := stage_out c1 n1 g in
  let c2 := o1 / 2 in
  let o2 := stage_out c2 n2 g in
  let c3 := o2 / 2 in
  let o3 := stage_out c3 n3 g in
  let c4 := o3 / 2 in
  let o4 := stage_out c4 n4 g in
  features net =
    [("conv0", Plain (Conv2d 3 m 7 2 3 Initialised));
     ("norm0", Plain (BatchNorm2d m Initialised Initialised true));
     ("relu0", Plain (ReLU true));
     ("pool0", Plain (MaxPool2d 3 2 1));
     ("denseblock1", Block (_DenseBlock_init n1 c1 bn g dr));
     ("transition1", Transition (_Transition_init o1 (o1 / 2)));
     ("denseblock2", Block (_DenseBlock_init n2 c2 bn g dr));
     ("transition2", Transition (_Transition_init o2 (o2 / 2)));
     ("denseblock3", Block (_DenseBlock_init n3 c3 bn g dr));
     ("transition3", Transition (_Transition_init o3 (o3 / 2)));
     ("denseblock4", Block (_DenseBlock_init n4 c4 bn g dr));
     ("norm5", Plain (BatchNorm2d o4 Initialised Initialised true))] /\
  classifier net = Linear o4 k Initialised /\
  (forall (block : _DenseBlock) num_layers c x mem t n h w,
     Sequential_map _DenseLayer_config block = _DenseBlock_init num_layers c bn g dr ->
     0 <= num_layers -> (dr <= 1)%Q ->
     cells mem !! x = Some t -> size t = [n; c; h; w] -> 1 <= h -> 1 <= w ->
     n * h * w <> 1 ->
     exists block' mem' y,
       Sequential_forward _DenseLayer_forward block x mem = (block', mem', Some y) /\
       has_size mem' y [n; c + num_layers * g; h; w]) /\
  (forall (trans : _Transition) c x mem t n h w,
     Sequential_map Module_config trans = _Transition_init c (c / 2) ->
     cells mem !! x = Some t -> size t = [n; c; h; w] -> 2 <= h -> 2 <= w ->
     exists trans' mem' y,
       Sequential_forward Module_forward trans x mem = (trans', mem', Some y) /\
       has_size mem' y [n; c / 2; h / 2; w / 2]) /\
  (forall (self : DenseNet) x mem t n h w,
     DenseNet_config self = net ->
     0 <= n1 -> 0 <= n2 -> 0 <= n3 -> 0 <= n4 -> (dr <= 1)%Q ->
     cells mem !! x = Some t -> size t = [n; 3; h; w] ->
     1 <= h -> 1 <= w -> 8 <= stem_extent h -> 8 <= stem_extent w ->
     n * features_extent h * features_extent w <> 1 ->
     exists features' mem' y,
       Sequential_forward Feature_forward (features self) x mem = (features', mem', Some y) /\
       has_size mem' y [n; o4; features_extent h; features_extent w]).
Proof.
  intros net c1 o1 c2 o2 c3 o3 c4 o4.
  pose proof (DenseNet_init_four g n1 n2 n3 n4 m bn dr k) as Hinit. cbv zeta in Hinit.
  fold net c1 o1 c2 o2 c3 o3 c4 o4 in Hinit.
  split; [by rewrite Hinit|]. split; [by rewrite Hinit|]. split; [|split].
  - intros block num_layers c x mem t n h w Hcfg HL Hdr Hx Hs Hh Hw Hv.
    destruct (_DenseBlock_forward_ok block num_layers c bn g dr x mem t n h w
                Hcfg HL Hdr Hx Hs Hh Hw Hv) as (block' & mem' & y & Hrun & Hy).
    by exists block', mem', y.
  - intros trans c x mem t n h w Hcfg Hx Hs Hh Hw.
    destruct (_Transition_forward_ok trans c (c / 2) x mem t n h w Hcfg Hx Hs Hh Hw)
      as (trans' & mem' & y & Hrun & _ & Hy).
    by exists trans', mem', y.
  - intros self x mem t n h w Hcfg Hn1 Hn2 Hn3 Hn4 Hdr Hx Hs Hh Hw Hsh Hsw Hv.
    pose proof (DenseNet_features_size g n1 n2 n3 n4 m bn dr k n h w
                  Hn1 Hn2 Hn3 Hn4 Hdr Hh Hw Hsh Hsw Hv) as Hfs.
    fold net c1 o1 c2 o2 c3 o3 c4 o4 in Hfs.
    assert (Hfeatures : Sequential_map Feature_config (features self) = features net)
      by (by rewrite <- Hcfg).
    rewrite <- Hfeatures, <- Hs in Hfs.
    apply (Sequential_size_config_Some _ _ _ _ _ Feature_size_config_Some) in Hfs.
    rewrite Hinit in Hfeatures. cbn [features] in Hfeatures.
    destruct (features_fresh (features self) _ _ _ Hfeatures ltac:(done) x mem t _ Hx Hfs)
      as (fs' & mem1 & fo & Hrun & _ & _ & Hfo).
    by exists fs', mem1, fo.
Qed.

(** C2, as the code has it.  On a batch of size [(n, 3, h, w)] with [n]
    at least 1 and [h], [w] between 221 and 444, [DenseNet.forward] of a
    network of four blocks returns a tensor of size [(n, num_classes)].
    These are the sizes for which the feature map that reaches the fixed
    7 x 7 average pooling is between 7 x 7 and 13 x 13, so that one value
    per channel is left for the classifier. *)
Theorem C2_forward_size (self : DenseNet) g n1 n2 n3 n4 m bn (dr : Q) num_classes x mem t n h w :
  DenseNet_config self = DenseNet_init g [n1; n2; n3; n4] m bn dr num_classes ->
  0 <= n1 -> 0 <= n2 -> 0 <= n3 -> 0 <= n4 -> (dr <= 1)%Q ->
  0 < n -> 221 <= h <= 444 -> 221 <= w <= 444 ->
  cells mem !! x = Some t -> size t = [n; 3; h; w] ->
  exists self' mem' y,
    DenseNet_forward self x mem = (self', mem', Some y) /\
    extends mem mem' y /\ has_size mem' y [n; num_classes].
Proof. apply DenseNet_forward_ok. Qed.

End NetTheorems.

(** C1 at a small network whose channel counts are halved with a
    remainder: 8 -> 12 -> 6 -> 14 -> 7 -> 11 -> 5 -> 9. *)
Lemma C1_channel_chain_witness :
  exists features' (mem' : @Mem sizes_only) y,
    @Sequential_forward sizes_only _ (@Feature_forward sizes_only)
        (features (DenseNet_init 4 [1; 2; 1; 1] 8 2 0 3)) 0%nat (one_tensor [1; 3; 224; 224])
      = (features', mem', Some y) /\
    has_size mem' y [1; 9; 7; 7].
Proof.
  destruct (@C1_channel_chain sizes_only 4 1 2 1 1 8 2 0 3) as (_ & _ & _ & _ & Hpass).
  apply (Hpass (DenseNet_init 4 [1; 2; 1; 1] 8 2 0 3) 0%nat (one_tensor [1; 3; 224; 224])
           (mkTensor [1; 3; 224; 224] (fun _ => tt)) 1 224 224).
  - reflexivity.
  - lia.
  - lia.
  - lia.
  - lia.
  - discriminate.
  - reflexivity.
  - reflexivity.
  - lia.
  - lia.
  - by vm_compute.
  - by vm_compute.
  - by vm_compute.
Defined.

(** C2 at [DenseNet()] with its default arguments, on one 224 x 224 image. *)
Lemma C2_forward_size_witness :
  exists self' (mem' : @Mem sizes_only) y,
    @DenseNet_forward sizes_only (DenseNet_init 32 [6; 12; 24; 16] 64 4 0 1000) 0%nat
        (one_tensor [1; 3; 224; 224]) = (self', mem', Some y) /\
    extends (one_tensor [1; 3; 224; 224]) mem' y /\ has_size mem' y [1; 1000].
Proof.
  apply (@C2_forward_size sizes_only (DenseNet_init 32 [6; 12; 24; 16] 64 4 0 1000)
           32 6 12 24 16 64 4 0 1000 0%nat (one_tensor [1; 3; 224; 224])
           (mkTensor [1; 3; 224; 224] (fun _ => tt)) 1 224 224).
  - by vm_compute.
  - lia.
  - lia.
  - lia.
  - lia.
  - discriminate.
  - lia.
  - lia.
  - lia.
  - reflexivity.
  - reflexivity.
Defined.

(** C2 as stated fails: on one 448 x 448 image, [DenseNet()] applies every
    convolution and pooling (the features are 1024 x 14 x 14, the 7 x 7
    average pooling leaves 1024 x 2 x 2, which [view] flattens to 4096
    values), and then [forward] raises, because the classifier is built
    for 1024 features. *)
Lemma C2_counterexample :
  let net := DenseNet_init 32 [6; 12; 24; 16] 64 4 0 1000 in
  let mem := one_tensor [1; 3; 448; 448] in
  let features_run :=
    @Sequential_forward sizes_only _ (@Feature_forward sizes_only) (features net) 0%nat mem in
  let relu_run :=
    match features_run.2 with
    | Some features_out => @F_relu_ sizes_only features_out features_run.1.2
    | None => (features_run.1.2, None)
    end in
  let pool_run :=
    match relu_run.2 with
    | Some out => @F_avg_pool2d sizes_only out 7 relu_run.1
    | None => (relu_run.1, None)
    end in
  let view_run :=
    match pool_run.2 with
    | Some out => @view_rows sizes_only out 1 pool_run.1
    | None => (pool_run.1, None)
    end in
  result_size features_run.1.2 features_run.2 = Some [1; 1024; 14; 14] /\
  result_size pool_run.1 pool_run.2 = Some [1; 1024; 2; 2] /\
  result_size view_run.1 view_run.2 = Some [1; 4096] /\
  classifier net = Linear 1024 1000 Initialised /\
  (@DenseNet_forward sizes_only net 0%nat mem).2 = None.
Proof. by vm_compute. Qed.

(** ** Inputs too large for the fixed pooling window *)

Lemma extents_large h :
  221 <= h ->
  8 <= stem_extent h /\ 7 <= features_extent h /\ (445 <= h -> 14 <= features_extent h).
Proof. intros Hh. unfold features_extent, stem_extent. Z.div_mod_to_equations. lia. Qed.

Section TooLarge.
Context `{Numerics}.

Lemma F_avg_pool2d_7_size x mem t n c h w :
  cells mem !! x = Some t -> size t = [n; c; h; w] -> 7 <= h -> 7 <= w ->
  exists mem' y, F_avg_pool2d x 7 mem = (mem', Some y) /\ extends mem mem' y /\
                 has_size mem' y [n; c; h / 7; w / 7].
Proof.
  intros Hx Hs Hh Hw. unfold F_avg_pool2d. rewrite Hx, Hs.
  unfold Module_size, Module_shape, channels, window2d.
  rewrite !window_out_pool7 by lia.
  destruct (alloc_extends mem (mkTensor [n; c; h / 7; w / 7] (kernel (AvgPool2d 7 7) t)))
    as [Hext Hnew].
  eexists _, _. split; [reflexivity|]. split; [done|]. eexists. split; [eassumption|done].
Qed.

Lemma view_rows_size x mem t n c h w :
  cells mem !! x = Some t -> size t = [n; c; h; w] -> 0 < n ->
  exists mem' y, view_rows x n mem = (mem', Some y) /\ extends mem mem' y /\
                 has_size mem' y [n; c * (h * w)].
Proof.
  intros Hx Hs Hn. unfold view_rows. rewrite Hx, Hs.
  assert (Hnumel : numel [n; c; h; w] = c * (h * w) * n) by (unfold numel; simpl; lia).
  rewrite Hnumel. rewrite decide_True by (split; [done|apply Z_mod_mult]).
  rewrite Z_div_mult by lia.
  match goal with |- context [alloc mem ?t'] =>
    destruct (alloc_extends mem t') as [Hext Hnew] end.
  eexists _, _. split; [reflexivity|]. split; [done|]. eexists. split; [eassumption|done].
Qed.

(** The upper bound of C2 is exact.  When both extents of the input are at
    least 221 and one of them is 445 or more, every convolution and pooling
    of a network of four blocks applies, the 7 x 7 average pooling leaves
    more than one value per channel, and [forward] raises at the
    classifier: its input has more features than it was built for. *)
Theorem DenseNet_forward_too_large (self : DenseNet) g n1 n2 n3 n4 m bn (dr : Q) num_classes
    x mem t n h w :
  DenseNet_config self = DenseNet_init g [n1; n2; n3; n4] m bn dr num_classes ->
  0 <= n1 -> 0 <= n2 -> 0 <= n3 -> 0 <= n4 -> (dr <= 1)%Q ->
  0 < stage_out (stage_out (stage_out (stage_out m n1 g / 2) n2 g / 2) n3 g / 2) n4 g ->
  0 < n -> 221 <= h -> 221 <= w -> 445 <= h \/ 445 <= w ->
  cells mem !! x = Some t -> size t = [n; 3; h; w] ->
  (DenseNet_forward self x mem).2 = None.
Proof.
  intros Hcfg Hn1 Hn2 Hn3 Hn4 Hdr Ho4 Hn Hh Hw Hlarge Hx Hs.
  destruct (extents_large h Hh) as (Hsh & Hfh & Hlh).
  destruct (extents_large w Hw) as (Hsw & Hfw & Hlw).
  pose proof (DenseNet_features_size g n1 n2 n3 n4 m bn dr num_classes n h w
                Hn1 Hn2 Hn3 Hn4 Hdr ltac:(lia) ltac:(lia) Hsh Hsw
                ltac:(apply several_values; lia)) as Hfs.
  pose proof (DenseNet_init_four g n1 n2 n3 n4 m bn dr num_classes) as Hinit. cbv zeta in Hinit.
  set (o4 := stage_out (stage_out (stage_out (stage_out m n1 g / 2) n2 g / 2) n3 g / 2) n4 g) in *.
  rewrite <- Hcfg in Hfs, Hinit. unfold DenseNet_config in Hfs, Hinit. simpl in Hfs.
  injection Hinit as Hfeatures Hclassifier.
  apply (Sequential_size_config_Some _ _ _ _ _ Feature_size_config_Some) in Hfs.
  rewrite <- Hs in Hfs.
  destruct (features_fresh (features self) _ _ _ Hfeatures ltac:(done) x mem t _ Hx Hfs)
    as (fs' & mem1 & fo & Hrun & _ & Hext1 & (tf & Hfo & Htf)).
  unfold DenseNet_forward. rewrite Hrun.
  destruct (F_relu__spec fo mem1 tf Hfo) as (mem2 & -> & Htouch2 & (tf2 & Hfo2 & Htf2)).
  rewrite Htf in Htf2.
  destruct (F_avg_pool2d_7_size fo mem2 tf2 _ _ _ _ Hfo2 Htf2 Hfh Hfw)
    as (mem3 & out1 & -> & Hext3 & (tp & Hout1 & Htp)).
  unfold size0. rewrite (extends_lookup _ _ _ _ _ Hext3 Hfo2), Htf2. simpl.
  destruct (view_rows_size out1 mem3 tp _ _ _ _ Hout1 Htp Hn)
    as (mem4 & out2 & -> & Hext4 & (tv & Hout2 & Htv)).
  cbn [classifier]. unfold Module_forward. rewrite Hout2, Htv.
  rewrite (Module_size_Linear _ _ _ _ Hclassifier). simpl.
  rewrite decide_False; [done|].
  assert (1 <= features_extent h / 7 /\ 1 <= features_extent w / 7 /\
          (2 <= features_extent h / 7 \/ 2 <= features_extent w / 7)) as (Ha & Hb & Hab).
  { split; [|split]; [Z.div_mod_to_equations; lia..|].
    destruct Hlarge as [Hl|Hl]; [left; specialize (Hlh Hl)|right; specialize (Hlw Hl)];
      Z.div_mod_to_equations; lia. }
  clearbody o4. intros Hcols.
  set (a := features_extent h / 7) in *. set (b := features_extent w / 7) in *. clearbody a b.
  assert (Hone : a * b = 1) by nia.
  nia.
Qed.

End TooLarge.

(** [DenseNet()] on one 500 x 300 image. *)
Lemma DenseNet_forward_too_large_witness :
  (@DenseNet_forward sizes_only (DenseNet_init 32 [6; 12; 24; 16] 64 4 0 1000) 0%nat
     (one_tensor [1; 3; 500; 300])).2 = None.
Proof.
  apply (@DenseNet_forward_too_large sizes_only (DenseNet_init 32 [6; 12; 24; 16] 64 4 0 1000)
           32 6 12 24 16 64 4 0 1000 0%nat (one_tensor [1; 3; 500; 300])
           (mkTensor [1; 3; 500; 300] (fun _ => tt)) 1 500 300).
  - by vm_compute.
  - lia.
  - lia.
  - lia.
  - lia.
  - discriminate.
  - by vm_compute.
  - lia.
  - lia.
  - lia.
  - left. lia.
  - reflexivity.
  - reflexivity.
Defined.

Section LogitsTheorem.
Context `{Numerics}.

Lemma DenseNet_init_classifier g block_config m bn (dr : Q) num_classes :
  exists num_features,
    classifier (DenseNet_init g block_config m bn dr num_classes)
    = Linear num_features num_classes Initialised.
Proof.
  unfold DenseNet_init.
  match goal with |- context [fold_left ?F ?l ?acc] => destruct (fold_left F l acc) as [fs c] end.
  by eexists.
Qed.

Lemma Linear_forward_size in_features out_features params x mem y :
  (Module_forward (Linear in_features out_features params) x mem).2 = Some y ->
  exists n, has_size (Module_forward (Linear in_features out_features params) x mem).1.2 y
              [n; out_features].
Proof.
  unfold Module_forward. destruct (cells mem !! x) as [t|]; [|done].
  destruct (Module_size _ (size t)) as [s|] eqn:Hs; [|done].
  simpl in Hs. destruct (size t) as [|n [|f [|]]]; try done.
  destruct (decide (f = in_features)); [|done]. injection Hs as <-.
  unfold alloc. simpl. intros [= <-]. exists n. eexists. split.
  - simpl. rewrite lookup_app_r by done. rewrite Nat.sub_diag. reflexivity.
  - done.
Qed.

(** C6.  The classifier [DenseNet.__init__] builds is a linear layer with
    [num_classes] output features, whatever the other arguments; and the
    tensor any forward pass returns has size [(n, num_classes)]: its
    logits dimension is the configured class count. *)
Theorem C6_logits_dimension g block_config m bn (dr : Q) num_classes :
  (exists num_features,
     classifier (DenseNet_init g block_config m bn dr num_classes)
     = Linear num_features num_classes Initialised) /\
  (forall (self : DenseNet) x mem y,
     DenseNet_config self = DenseNet_init g block_config m bn dr num_classes ->
     (DenseNet_forward self x mem).2 = Some y ->
     exists n, has_size (DenseNet_forward self x mem).1.2 y [n; num_classes]).
Proof.
  destruct (DenseNet_init_classifier g block_config m bn dr num_classes) as [f Hf].
  split; [by exists f|].
  intros self x mem y Hcfg. rewrite <- Hcfg in Hf. cbn [DenseNet_config classifier] in Hf.
  destruct (classifier self) as [| | | | |i o p] eqn:Hcls; try done.
  injection Hf as -> ->.
  unfold DenseNet_forward.
  destruct (Sequential_forward _ (features self) x mem) as [[fs' mem1] [fo|]]; [|done].
  destruct (F_relu_ fo mem1) as [mem2 [out|]]; [|done].
  destruct (F_avg_pool2d out 7 mem2) as [mem3 [out'|]]; [|done].
  destruct (size0 fo mem3) as [n|]; [|done].
  destruct (view_rows out' n mem3) as [mem4 [out''|]]; [|done].
  cbn [classifier]. rewrite Hcls.
  pose proof (Linear_forward_size f num_classes p out'' mem4 y) as Hlin.
  destruct (Module_forward (Linear f num_classes p) out'' mem4) as [[cls' mem5] r5].
  exact Hlin.
Qed.

End LogitsTheorem.

(** C6 at a network with three classes, on one 224 x 224 image. *)
Lemma C6_logits_dimension_witness :
  exists n, has_size (@DenseNet_forward sizes_only (DenseNet_init 4 [1; 2; 1; 1] 8 2 0 3) 0%nat
                        (one_tensor [1; 3; 224; 224])).1.2 41%nat [n; 3].
Proof.
  apply (proj2 (@C6_logits_dimension sizes_only 4 [1; 2; 1; 1] 8 2 0 3)
           (DenseNet_init 4 [1; 2; 1; 1] 8 2 0 3) 0%nat (one_tensor [1; 3; 224; 224]) 41%nat).
  - reflexivity.
  - by vm_compute.
Defined.

(** ** [densenet121] *)

(** C9.  [densenet121(pretrained, **kwargs)] never reads [kwargs]: whatever
    they hold, the model it returns has the configuration of
    [DenseNet(num_init_features=64, growth_rate=32, block_config=(6, 12, 24, 16))]
    with the default 1000 classes, and every parameter and buffer of the
    model is loaded from the densenet121 state dict when [pretrained] is
    true and is as the constructor initialised it when [pretrained] is
    false. *)
Theorem C9_densenet121_ignores_kwargs (pretrained : bool) (kwargs : list (string * PyValue)) :
  exists model,
    densenet121 pretrained kwargs = Some model /\
    DenseNet_config model = DenseNet_init 32 [6; 12; 24; 16] 64 4 0 1000 /\
    Module_config (classifier model) = Linear 1024 1000 Initialised /\
    (pretrained = true <->
     Forall (loaded_from "https://download.pytorch.org/models/densenet121-241335ed.pth")
            (parameters model ++ buffers model)) /\
    (pretrained = false <-> Forall (eq Initialised) (parameters model ++ buffers model)).
Proof.
  destruct pretrained.
  - eexists. split; [reflexivity|]. split; [by vm_compute|]. split; [by vm_compute|]. split.
    + split; [intros _|done]. apply (bool_decide_unpack _). by vm_compute.
    + split; [done|]. intros Hall. pose proof (bool_decide_pack _ Hall) as Hb. by vm_compute in Hb.
  - eexists. split; [reflexivity|]. split; [by vm_compute|]. split; [by vm_compute|]. split.
    + split; [done|]. intros Hall. pose proof (bool_decide_pack _ Hall) as Hb. by vm_compute in Hb.
    + split; [intros _|done]. apply (bool_decide_unpack _). by vm_compute.
Qed.

(** ** What changes a constructed network *)

Lemma flat_map_keeps {M C : Type} (keep : M -> list C) (l l' : Sequential M) :
  map (fun item => (item.1, keep item.2)) l = map (fun item => (item.1, keep item.2)) l' ->
  flat_map (fun '(_, m) => keep m) l = flat_map (fun '(_, m) => keep m) l'.
Proof.
  revert l'. induction l as [|[name m] l IH]; intros [|[name' m'] l']; simpl; try done.
  intros [= _ -> Hl]. f_equal. by apply IH.
Qed.

Lemma Sequential_map_map {M : Type} (f g : M -> M) (self : Sequential M) :
  Sequential_map f (Sequential_map g self) = Sequential_map (fun m => f (g m)) self.
Proof. unfold Sequential_map. rewrite map_map. apply map_ext. by intros []. Qed.

Lemma Sequential_map_ext {M : Type} (f g : M -> M) (self : Sequential M) :
  (forall m, f m = g m) -> Sequential_map f self = Sequential_map g self.
Proof. intros Hfg. unfold Sequential_map. apply map_ext. intros []. by rewrite Hfg. Qed.

Lemma flat_map_Sequential_map {M C : Type} (keep : M -> list C) (f : M -> M)
    (self : Sequential M) :
  (forall m, keep (f m) = keep m) ->
  flat_map (fun '(_, m) => keep m) (Sequential_map f self) = flat_map (fun '(_, m) => keep m) self.
Proof.
  intros Hkeep. induction self as [|[name m] rest IH]; simpl; [done|]. by rewrite Hkeep, IH.
Qed.

Lemma _DenseLayer_step_keeps (self : _DenseLayer) :
  _DenseLayer_config (_DenseLayer_step self) = _DenseLayer_config self /\
  _DenseLayer_buffers (_DenseLayer_step self) = _DenseLayer_buffers self.
Proof.
  unfold _DenseLayer_config, _DenseLayer_buffers, _DenseLayer_step. simpl. split.
  - f_equal. rewrite Sequential_map_map. apply Sequential_map_ext. by intros [].
  - apply flat_map_Sequential_map. by intros [].
Qed.

Lemma Feature_step_keeps (self : Feature) :
  Feature_config (Feature_step self) = Feature_config self /\
  Feature_buffers (Feature_step self) = Feature_buffers self.
Proof.
  destruct self as [module|block|trans]; simpl.
  - by destruct module.
  - split.
    + f_equal. rewrite Sequential_map_map. apply Sequential_map_ext.
      intros layer. apply _DenseLayer_step_keeps.
    + apply flat_map_Sequential_map. intros layer. apply _DenseLayer_step_keeps.
  - split.
    + f_equal. rewrite Sequential_map_map. apply Sequential_map_ext. by intros [].
    + apply flat_map_Sequential_map. by intros [].
Qed.

Lemma optimizer_step_keeps (self : DenseNet) :
  DenseNet_config (optimizer_step self) = DenseNet_config self /\
  buffers (optimizer_step self) = buffers self.
Proof.
  unfold DenseNet_config, buffers, optimizer_step. simpl. split.
  - f_equal.
    + rewrite Sequential_map_map. apply Sequential_map_ext. intros f. apply Feature_step_keeps.
    + by destruct (classifier self).
  - f_equal.
    + apply flat_map_Sequential_map. intros f. apply Feature_step_keeps.
    + by destruct (classifier self).
Qed.

Lemma Sequential_load_config {M : Type} (config : M -> M) (load : string -> M -> M) prefix
    (self : Sequential M) :
  (forall key m, config (load key m) = config m) ->
  Sequential_map config (Sequential_load load prefix self) = Sequential_map config self.
Proof.
  intros Hload. unfold Sequential_map, Sequential_load. rewrite map_map.
  apply map_ext. intros [name m]. by rewrite Hload.
Qed.

Lemma load_state_dict_config (self : DenseNet) url :
  DenseNet_config (load_state_dict self url) = DenseNet_config self.
Proof.
  unfold DenseNet_config, load_state_dict. simpl. f_equal.
  - apply Sequential_load_config. intros key [module|block|trans]; simpl; f_equal.
    + by destruct module.
    + apply Sequential_load_config. intros key' layer.
      unfold _DenseLayer_config, _DenseLayer_load. simpl. f_equal.
      apply Sequential_load_config. by intros ? [].
    + apply Sequential_load_config. by intros ? [].
  - by destruct (classifier self).
Qed.

Section ForwardKeeps.
Context `{Numerics}.

Lemma _DenseLayer_forward_parameters (self : _DenseLayer) x mem :
  _DenseLayer_parameters (_DenseLayer_forward self x mem).1.1 = _DenseLayer_parameters self.
Proof.
  rewrite _DenseLayer_forward_unfold.
  pose proof (Sequential_forward_keeps Module_forward Module_parameters (layer_modules self) x mem
                Module_forward_parameters) as Hkeep.
  apply flat_map_keeps in Hkeep.
  destruct (Sequential_forward _ _ _ _) as [[modules' mem1] [nf|]]; simpl in *; [|done].
  by destruct (dropout_cat _ _ _ _ _).
Qed.

Lemma _DenseLayer_forward_drop_rate (self : _DenseLayer) x mem :
  drop_rate (_DenseLayer_forward self x mem).1.1 = drop_rate self.
Proof.
  rewrite _DenseLayer_forward_unfold.
  destruct (Sequential_forward _ _ _ _) as [[modules' mem1] [nf|]]; simpl; [|done].
  by destruct (dropout_cat _ _ _ _ _).
Qed.

Lemma Feature_forward_parameters (self : Feature) x mem :
  Feature_parameters (Feature_forward self x mem).1.1 = Feature_parameters self.
Proof.
  destruct self as [module|block|trans]; simpl.
  - pose proof (Module_forward_parameters module x mem) as Hm.
    by destruct (Module_forward module x mem) as [[m' mem'] r].
  - pose proof (Sequential_forward_keeps _DenseLayer_forward _DenseLayer_parameters block x mem
                  _DenseLayer_forward_parameters) as Hb.
    apply flat_map_keeps in Hb.
    by destruct (Sequential_forward _ block x mem) as [[b' mem'] r].
  - pose proof (Sequential_forward_keeps Module_forward Module_parameters trans x mem
                  Module_forward_parameters) as Ht.
    apply flat_map_keeps in Ht.
    by destruct (Sequential_forward _ trans x mem) as [[t' mem'] r].
Qed.

Lemma DenseNet_forward_parameters (self : DenseNet) x mem :
  parameters (DenseNet_forward self x mem).1.1 = parameters self.
Proof.
  unfold DenseNet_forward.
  pose proof (Sequential_forward_keeps Feature_forward Feature_parameters (features self) x mem
                Feature_forward_parameters) as Hkeep.
  apply flat_map_keeps in Hkeep.
  destruct (Sequential_forward _ (features self) x mem) as [[fs' mem1] r]. simpl in Hkeep.
  assert (Hnet : parameters (mkDenseNet fs' (classifier self)) = parameters self).
  { unfold parameters. cbn [features classifier]. by rewrite Hkeep. }
  destruct r as [fo|]; [|done].
  destruct (F_relu_ fo mem1) as [mem2 [out|]]; [|done].
  destruct (F_avg_pool2d out 7 mem2) as [mem3 [out'|]]; [|done].
  destruct (size0 fo mem3) as [n|]; [|done].
  destruct (view_rows out' n mem3) as [mem4 [out''|]]; [|done].
  cbn [classifier].
  pose proof (Module_forward_parameters (classifier self) out'' mem4) as Hcls.
  destruct (Module_forward (classifier self) out'' mem4) as [[cls' mem5] r5]. simpl in *.
  unfold parameters. cbn [features classifier]. by rewrite Hkeep, Hcls.
Qed.

(** C10, as the code has it.  A forward pass changes no configuration
    value and no parameter tensor: of a [_DenseLayer] it leaves [drop_rate],
    the classes and constructor arguments of the children (the channel
    counts of the convolutions among them) and the parameters as they were,
    and of a [DenseNet] the whole structural configuration and the
    parameters; [optimizer.step()] changes parameter tensors only, neither
    the configuration nor the buffers; [load_state_dict] leaves the
    configuration as it was. *)
Theorem C10_forward_keeps_configuration :
  (forall (layer : _DenseLayer) x mem,
     let layer' := (_DenseLayer_forward layer x mem).1.1 in
     drop_rate layer' = drop_rate layer /\
     _DenseLayer_config layer' = _DenseLayer_config layer /\
     _DenseLayer_parameters layer' = _DenseLayer_parameters layer) /\
  (forall (self : DenseNet) x mem,
     let self' := (DenseNet_forward self x mem).1.1 in
     DenseNet_config self' = DenseNet_config self /\ parameters self' = parameters self) /\
  (forall self : DenseNet,
     DenseNet_config (optimizer_step self) = DenseNet_config self /\
     buffers (optimizer_step self) = buffers self) /\
  (forall (self : DenseNet) url,
     DenseNet_config (load_state_dict self url) = DenseNet_config self) /\
  (forall (op : Operation) (self : DenseNet),
     op <> OpReplaceClassifier ->
     DenseNet_config (apply_operation op self) = DenseNet_config self).
Proof.
  split; [|split; [|split; [|split]]].
  - intros layer x mem. split; [apply _DenseLayer_forward_drop_rate|].
    split; [apply _DenseLayer_config_forward|apply _DenseLayer_forward_parameters].
  - intros self x mem. split; [apply DenseNet_config_forward|apply DenseNet_forward_parameters].
  - apply optimizer_step_keeps.
  - apply load_state_dict_config.
  - intros [x mem|url| |] self Hop; simpl.
    + apply DenseNet_config_forward.
    + apply load_state_dict_config.
    + apply optimizer_step_keeps.
    + done.
Qed.

End ForwardKeeps.

(** C10 at a forward pass of a small network on one 224 x 224 image. *)
Lemma C10_forward_keeps_configuration_witness :
  let net := DenseNet_init 4 [1; 2; 1; 1] 8 2 0 3 in
  DenseNet_config
    (@apply_operation sizes_only (OpForward 0%nat (one_tensor [1; 3; 224; 224])) net)
  = DenseNet_config net.
Proof.
  apply (proj2 (proj2 (proj2 (proj2 (@C10_forward_keeps_configuration sizes_only))))).
  discriminate.
Defined.

(** C10 as stated fails: the configuration of a constructed network is
    not immutable, and parameter tensors are not written by the optimizer
    only.  The cell "Run DenseNet" builds [densenet121(pretrained=True)]
    (1000 classes), whose [load_state_dict] overwrites every parameter the
    constructor initialised, and then replaces the classifier by a new
    linear layer with 2 outputs. *)
Lemma C10_counterexample :
  exists net net',
    densenet121 true [] = Some net /\
    run_densenet_cell = Some net' /\
    net' = @apply_operation sizes_only OpReplaceClassifier net /\
    Module_config (classifier net) = Linear 1024 1000 Initialised /\
    Module_config (classifier net') = Linear 1024 2 Initialised /\
    DenseNet_config net' <> DenseNet_config net /\
    Forall (eq Initialised) (parameters (DenseNet_init 32 [6; 12; 24; 16] 64 4 0 1000)) /\
    net = load_state_dict (DenseNet_init 32 [6; 12; 24; 16] 64 4 0 1000)
            "https://download.pytorch.org/models/densenet121-241335ed.pth" /\
    Forall (fun p => p <> Initialised) (parameters net).
Proof.
  eexists _, _. split; [reflexivity|]. split; [by vm_compute|].
  split; [by vm_compute|]. split; [by vm_compute|]. split; [by vm_compute|].
  split; [intros Heq; apply (f_equal classifier) in Heq; by vm_compute in Heq|].
  split; [apply (bool_decide_unpack _); by vm_compute|].
  split; [by vm_compute|].
  apply (bool_decide_unpack _). by vm_compute.
Qed.

(** ** [train_model] *)

Section TrainLemmas.
Context `{Trainable} (globals : Globals).
Variable model : nat.
Variable criterion : list (list Q) -> list Z -> Loss.
Variable optim_scheduler : Model -> Z -> Optimizer.

Abbreviation run_batch := (batch_body model criterion).
Abbreviation run_phase := (phase_body globals model criterion optim_scheduler).
Abbreviation run_epoch := (epoch_body globals model criterion optim_scheduler).
Abbreviation run := (train_model globals model criterion optim_scheduler).
Abbreviation accuracy_of := (val_acc globals model criterion optim_scheduler).
Abbreviation live_after := (live_model_after globals model criterion optim_scheduler).

Lemma for_each_app {S A : Type} (body : S -> A -> option S) (l1 l2 : list A) (s : S) :
  for_each body (l1 ++ l2) s = for_each body l1 s ≫= for_each body l2.
Proof.
  revert s. induction l1 as [|a l1 IH]; intros s; simpl; [done|].
  destruct (body s a); simpl; [apply IH|done].
Qed.

Lemma sum_eq_nonneg preds labels : 0 <= sum_eq preds labels.
Proof. unfold sum_eq. lia. Qed.

Lemma batches_spec (phase : Phase) batches (l : Locals) opt m :
  optimizer l = Some opt -> store l !! model = Some m ->
  exists l' opt' m',
    for_each (run_batch phase) batches l = Some l' /\
    optimizer l' = Some opt' /\
    store l' = <[model:=m']> (store l) /\
    events l' = events l ++
      flat_map (fun _ => [ZeroGrad; Forward] ++
                         (if decide (phase = train) then [Backward; Step] else [])) batches /\
    running_corrects l <= running_corrects l' /\
    epoch_acc l' = epoch_acc l /\ best_model l' = best_model l /\ best_acc l' = best_acc l.
Proof.
  revert l opt m. induction batches as [|[inputs labels] batches IH]; intros l opt m Hopt Hm.
  - exists l, opt, m. simpl. rewrite app_nil_r, list_insert_id by done. by repeat split.
  - simpl. rewrite Hopt, Hm. simpl.
    destruct (model_call (zero_grad opt m) inputs) as [m1 outputs] eqn:Hcall.
    set (step_result := if decide (phase = train)
                        then let '(opt', m') := step opt (loss_backward (criterion outputs labels) m1)
                             in (opt', m', [Backward; Step])
                        else (opt, m1, [])).
    destruct step_result as [[opt2 m2] done_events] eqn:Hstep.
    pose proof (lookup_lt_Some _ _ _ Hm) as Hlt.
    edestruct (IH (mkLocals (<[model:=m2]> (store l)) (Some opt2)
                     (running_loss l + loss_item (criterion outputs labels))%Q
                     (running_corrects l + sum_eq (torch_max1 outputs) labels)
                     (epoch_acc l) (best_model l) (best_acc l)
                     (events l ++ [ZeroGrad; Forward] ++ done_events)) opt2 m2)
      as (l' & opt' & m' & Hrun & Hopt' & Hstore & Hev & Hcorr & Hacc & Hbm & Hba).
    { done. }
    { simpl. by rewrite list_lookup_insert_eq. }
    exists l', opt', m'. simpl in *.
    split; [done|]. split; [done|].
    split; [by rewrite Hstore, list_insert_insert_eq|].
    split.
    { rewrite Hev, <- !app_assoc. do 3 f_equal.
      subst step_result. destruct (decide (phase = train)).
      - destruct (step opt _). by injection Hstep as _ _ <-.
      - by injection Hstep as _ _ <-. }
    split; [pose proof (sum_eq_nonneg (torch_max1 outputs) labels); lia|done].
Qed.

Lemma accuracy_nonneg corrects total : 0 <= corrects -> 0 < total ->
  (0 <= inject_Z corrects / inject_Z total)%Q.
Proof.
  intros Hc Ht. unfold Qdiv. apply Qmult_le_0_compat.
  - change 0%Q with (inject_Z 0). by rewrite <- Zle_Qle.
  - apply Qinv_le_0_compat. change 0%Q with (inject_Z 0). rewrite <- Zle_Qle. lia.
Qed.

Lemma epoch_body_spec (l : Locals) k m :
  dset_sizes globals train <> 0 -> 0 < dset_sizes globals val ->
  store l !! model = Some m ->
  exists l' m' acc loss_t acc_t loss_v,
    run_epoch l k = Some l' /\
    store l' !! model = Some m' /\
    epoch_acc l' = Some acc /\ (0 <= acc)%Q /\
    events l' = events l ++
      epoch_events globals k (Printed train loss_t acc_t) (Printed val loss_v acc)
        (bool_decide (best_acc l < acc)%Q) /\
    (if bool_decide (best_acc l < acc)%Q
     then best_acc l' = acc /\ best_model l' = length (store l) /\
          store l' = <[model:=m']> (store l) ++ [m']
     else best_acc l' = best_acc l /\ best_model l' = best_model l /\
          store l' = <[model:=m']> (store l)).
Proof.
  intros Htrain Hval Hm. pose proof (lookup_lt_Some _ _ _ Hm) as Hlt.
  unfold run_epoch. cbn [for_each]. unfold run_phase at 1.
  rewrite decide_True by done. rewrite Hm. cbn [mbind option_bind store optimizer running_loss running_corrects epoch_acc best_model best_acc events].
  edestruct (batches_spec train (dset_loaders globals train k)
               (mkLocals (store l) (Some (optim_scheduler m k)) 0 0 (epoch_acc l)
                  (best_model l) (best_acc l) (events l ++ [Scheduled k])))
    as (l1 & opt1 & m1 & -> & Hopt1 & Hstore1 & Hev1 & _ & _ & Hbm1 & Hba1); [done..|].
  cbn [mbind option_bind store optimizer running_loss running_corrects epoch_acc best_model best_acc events]. rewrite decide_False by done.
  rewrite bool_decide_eq_false_2 by done. cbn [andb].
  unfold run_phase. rewrite decide_False by done. cbn [mbind option_bind store optimizer running_loss running_corrects epoch_acc best_model best_acc events].
  assert (Hm1 : store l1 !! model = Some m1).
  { rewrite Hstore1. simpl. by rewrite list_lookup_insert_eq. }
  edestruct (batches_spec val (dset_loaders globals val k)
               (mkLocals (store l1) (optimizer l1) 0 0
                  (Some (inject_Z (running_corrects l1) / inject_Z (dset_sizes globals train))%Q)
                  (best_model l1) (best_acc l1)
                  (events l1 ++ [Printed train
                                   (running_loss l1 / inject_Z (dset_sizes globals train))%Q
                                   (inject_Z (running_corrects l1)
                                    / inject_Z (dset_sizes globals train))%Q])))
    as (l2 & opt2 & m2 & -> & Hopt2 & Hstore2 & Hev2 & Hcorr2 & _ & Hbm2 & Hba2); [done..|].
  cbn [mbind option_bind store optimizer running_loss running_corrects epoch_acc best_model best_acc events]. rewrite decide_False by lia.
  rewrite bool_decide_eq_true_2 by done. cbn [andb].
  simpl in Hstore1, Hev1, Hbm1, Hba1, Hstore2, Hev2, Hcorr2, Hbm2, Hba2.
  assert (Hm2 : store l2 !! model = Some m2).
  { rewrite Hstore2. rewrite list_lookup_insert_eq; [done|]. rewrite Hstore1, length_insert. done. }
  assert (Hstore : store l2 = <[model:=m2]> (store l)).
  { by rewrite Hstore2, Hstore1, list_insert_insert_eq. }
  assert (Hevents : forall copied : bool,
    (events l2 ++ [Printed val (running_loss l2 / inject_Z (dset_sizes globals val))%Q
                     (inject_Z (running_corrects l2) / inject_Z (dset_sizes globals val))%Q])
      ++ (if copied then [DeepCopy] else [])
    = events l ++ epoch_events globals k
        (Printed train (running_loss l1 / inject_Z (dset_sizes globals train))%Q
           (inject_Z (running_corrects l1) / inject_Z (dset_sizes globals train))%Q)
        (Printed val (running_loss l2 / inject_Z (dset_sizes globals val))%Q
           (inject_Z (running_corrects l2) / inject_Z (dset_sizes globals val))%Q) copied).
  { intros copied. rewrite Hev2, Hev1. unfold epoch_events. by rewrite <- !app_assoc. }
  rewrite Hba2, Hba1.
  set (acc := (inject_Z (running_corrects l2) / inject_Z (dset_sizes globals val))%Q) in *.
  destruct (bool_decide (best_acc l < acc)%Q) eqn:Hbetter.
  - rewrite Hm2. cbn [mbind option_bind store optimizer running_loss running_corrects epoch_acc best_model best_acc events].
    eexists _, m2, acc, _, _, _. split; [reflexivity|]. simpl. rewrite Hbetter.
    split; [by apply lookup_app_l_Some|]. split; [done|].
    split; [apply accuracy_nonneg; [lia|done]|].
    split; [by rewrite (Hevents true)|].
    split; [done|]. split; [by rewrite Hstore, length_insert|by rewrite Hstore].
  - eexists _, m2, acc, _, _, _. split; [reflexivity|]. simpl. rewrite Hbetter.
    split; [done|]. split; [done|].
    split; [apply accuracy_nonneg; [lia|done]|].
    split; [rewrite <- (Hevents false); by rewrite app_nil_r|].
    by rewrite Hbm2, Hbm1.
Qed.

Lemma train_model_nat num_epochs objects :
  run num_epochs objects = run (Z.of_nat (Z.to_nat num_epochs)) objects.
Proof. unfold train_model, seqZ. by rewrite Nat2Z.id. Qed.

Lemma train_model_succ k objects :
  0 <= k ->
  run (k + 1) objects = run k objects ≫= fun l => run_epoch l k.
Proof.
  intros Hk. unfold train_model.
  rewrite seqZ_app by lia. rewrite for_each_app.
  destruct (for_each _ (seqZ 0 k) _) as [l|]; [|done]. cbn [mbind option_bind].
  rewrite seqZ_cons by lia. rewrite seqZ_nil by lia. cbn [for_each].
  rewrite Z.add_0_l. by destruct (epoch_body _ _ _ _ l k).
Qed.

Section Run.
Variable objects : list Model.
Variable m0 : Model.
Hypothesis model_valid : objects !! model = Some m0.
Hypothesis train_size : dset_sizes globals train <> 0.
Hypothesis val_size : 0 < dset_sizes globals val.

(** What holds of the locals after [n] epochs. *)
Lemma train_model_invariant (n : nat) :
  exists l,
    run (Z.of_nat n) objects = Some l /\
    is_Some (store l !! model) /\
    (length objects <= length (store l))%nat /\
    (0 <= best_acc l)%Q /\
    (forall j, 0 <= j < Z.of_nat n ->
       exists acc, accuracy_of j objects = Some acc /\ (0 <= acc <= best_acc l)%Q) /\
    ((best_acc l = 0%Q /\ best_model l = model /\ length (store l) = length objects) \/
     (exists k, 0 <= k < Z.of_nat n /\
        accuracy_of k objects = Some (best_acc l) /\ (0 < best_acc l)%Q /\
        (forall j acc, 0 <= j < k -> accuracy_of j objects = Some acc -> (acc < best_acc l)%Q) /\
        (length objects <= best_model l < length (store l))%nat /\
        is_Some (live_after k objects) /\
        store l !! best_model l = live_after k objects)).
Proof.
  pose proof (lookup_lt_Some _ _ _ model_valid) as Hmodel.
  induction n as [|n IH].
  - exists (train_model_start model objects). split; [done|]. simpl.
    split; [by exists m0|]. split; [done|]. split; [done|]. split; [lia|]. by left.
  - destruct IH as (l & Hrun & [m Hm] & Hlen & Hpos & Haccs & Hbest).
    destruct (epoch_body_spec l (Z.of_nat n) m train_size val_size Hm)
      as (l' & m' & acc & loss_t & acc_t & loss_v & Hepoch & Hm' & Hacc & Hacc0 & _ & Hupd).
    assert (Hrun' : run (Z.of_nat (S n)) objects = Some l').
    { replace (Z.of_nat (S n)) with (Z.of_nat n + 1) by lia.
      rewrite train_model_succ by lia. by rewrite Hrun. }
    assert (Hval : accuracy_of (Z.of_nat n) objects = Some acc).
    { unfold val_acc. replace (Z.of_nat n + 1) with (Z.of_nat (S n)) by lia.
      by rewrite Hrun'. }
    assert (Hlive : live_after (Z.of_nat n) objects = Some m').
    { unfold live_model_after. replace (Z.of_nat n + 1) with (Z.of_nat (S n)) by lia.
      by rewrite Hrun'. }
    exists l'. split; [done|]. split; [by exists m'|].
    destruct (bool_decide (best_acc l < acc)%Q) eqn:Hbetter.
    + apply bool_decide_eq_true in Hbetter. destruct Hupd as (Hba & Hbm & Hstore).
      rewrite Hba, Hbm, Hstore.
      split; [rewrite length_app, length_insert; lia|].
      split; [done|]. split.
      { intros j Hj. destruct (decide (j = Z.of_nat n)) as [->|Hjn].
        - exists acc. split; [done|]. split; [done|apply Qle_refl].
        - destruct (Haccs j ltac:(lia)) as (a & Ha & Ha0 & Hale). exists a.
          split; [done|]. split; [done|].
          apply Qlt_le_weak. exact (Qle_lt_trans _ _ _ Hale Hbetter). }
      right. exists (Z.of_nat n). split; [lia|]. split; [done|].
      split; [exact (Qle_lt_trans _ _ _ Hpos Hbetter)|]. split.
      { intros j a Hj Ha. destruct (Haccs j ltac:(lia)) as (a' & Ha' & _ & Hale).
        rewrite Ha in Ha'. injection Ha' as <-. exact (Qle_lt_trans _ _ _ Hale Hbetter). }
      split; [rewrite length_app, length_insert; simpl; lia|].
      split; [by rewrite Hlive|].
      rewrite Hlive, lookup_app_r by (by rewrite length_insert).
      by rewrite length_insert, Nat.sub_diag.
    + apply bool_decide_eq_false in Hbetter. apply Qnot_lt_le in Hbetter.
      destruct Hupd as (Hba & Hbm & Hstore). rewrite Hba, Hbm, Hstore, length_insert.
      split; [done|]. split; [done|]. split.
      { intros j Hj. destruct (decide (j = Z.of_nat n)) as [->|Hjn].
        - exists acc. by split.
        - apply Haccs. lia. }
      destruct Hbest as [(Hzero & Halias & Hnocopy)|(k & Hk & Hacck & Hpos' & Hfirst & Hbm' & Hl & Hsnap)].
      * by left.
      * right. exists k. split; [lia|]. split; [done|]. split; [done|]. split; [done|].
        split; [done|]. split; [done|].
        rewrite list_lookup_insert_ne by lia. done.
Qed.

End Run.

(** C7, as the code has it.  A call of [train_model] with [num_epochs]
    epochs on non-empty datasets returns.  Each epoch performs a training
    phase (for every batch: zero the gradients, forward, backward,
    optimizer step) followed by a validation phase (for every batch: zero
    the gradients, forward).  [best_acc] starts at 0.0, never decreases,
    and after an epoch is the epoch's validation accuracy if that is
    greater than it was, else unchanged; at the end it is at least every
    epoch's validation accuracy and, if there was an epoch, equal to one of
    them.  If some validation accuracy was positive, the returned model is
    the deep copy taken at the end of the first epoch that achieved the
    maximum.  Otherwise (no epoch, or every validation accuracy 0) no copy
    was taken: [best_acc] is 0.0 and the returned model is the live model
    object itself. *)
Theorem C7_train_model_tracks_best (num_epochs : Z) (objects : list Model) (m0 : Model) :
  let run := train_model globals model criterion optim_scheduler in
  let accuracy := val_acc globals model criterion optim_scheduler in
  let live_model := live_model_after globals model criterion optim_scheduler in
  objects !! model = Some m0 ->
  0 < dset_sizes globals train -> 0 < dset_sizes globals val ->
  exists l,
    run num_epochs objects = Some l /\
    (forall k, 0 <= k < num_epochs ->
       exists l_k l_k1 acc loss_t acc_t loss_v,
         run k objects = Some l_k /\
         run (k + 1) objects = Some l_k1 /\
         accuracy k objects = Some acc /\
         events l_k1 = events l_k ++
           epoch_events globals k (Printed train loss_t acc_t) (Printed val loss_v acc)
             (bool_decide (best_acc l_k < acc)%Q) /\
         (best_acc l_k <= best_acc l_k1)%Q /\
         best_acc l_k1 = (if bool_decide (best_acc l_k < acc)%Q then acc else best_acc l_k)) /\
    (forall k, 0 <= k < num_epochs ->
       exists acc, accuracy k objects = Some acc /\ (0 <= acc <= best_acc l)%Q) /\
    (0 < num_epochs ->
       exists k acc, 0 <= k < num_epochs /\ accuracy k objects = Some acc /\
                     (acc == best_acc l)%Q) /\
    ((best_acc l = 0%Q /\ best_model l = model /\ length (store l) = length objects) \/
     (exists k, 0 <= k < num_epochs /\
        accuracy k objects = Some (best_acc l) /\ (0 < best_acc l)%Q /\
        (forall j acc, 0 <= j < k -> accuracy j objects = Some acc -> (acc < best_acc l)%Q) /\
        best_model l <> model /\ (length objects <= best_model l)%nat /\
        is_Some (live_model k objects) /\
        store l !! best_model l = live_model k objects)).
Proof.
  intros run' accuracy live_model Hmodel Htrain Hval. subst run' accuracy live_model.
  assert (Htrain' : dset_sizes globals train <> 0) by lia.
  pose proof (lookup_lt_Some _ _ _ Hmodel) as Hlt.
  destruct (train_model_invariant objects m0 Hmodel Htrain' Hval (Z.to_nat num_epochs))
    as (l & Hrun & _ & _ & Hpos & Haccs & Hbest).
  rewrite <- train_model_nat in Hrun.
  exists l. split; [done|]. split; [|split; [|split]].
  - intros k Hk.
    destruct (train_model_invariant objects m0 Hmodel Htrain' Hval (Z.to_nat k))
      as (l_k & Hrun_k & [m Hm] & _ & _ & _ & _).
    rewrite Z2Nat.id in Hrun_k by lia.
    destruct (epoch_body_spec l_k k m Htrain' Hval Hm)
      as (l_k1 & m' & acc & loss_t & acc_t & loss_v & Hepoch & _ & Hacc & _ & Hev & Hupd).
    assert (Hrun_k1 : run (k + 1) objects = Some l_k1).
    { rewrite train_model_succ by lia. by rewrite Hrun_k. }
    exists l_k, l_k1, acc, loss_t, acc_t, loss_v.
    split; [done|]. split; [done|].
    split; [unfold val_acc; by rewrite Hrun_k1|]. split; [done|].
    destruct (bool_decide (best_acc l_k < acc)%Q) eqn:Hbetter.
    + apply bool_decide_eq_true in Hbetter. destruct Hupd as (-> & _).
      split; [by apply Qlt_le_weak|done].
    + destruct Hupd as (-> & _). split; [apply Qle_refl|done].
  - intros k Hk. apply Haccs. lia.
  - intros Hn. destruct Hbest as [(Hzero & _)|(k & Hk & Hacck & _)].
    + destruct (Haccs 0 ltac:(lia)) as (acc & Hacc & Hacc0 & Hle).
      exists 0, acc. split; [lia|]. split; [done|].
      apply Qle_antisym; [done|by rewrite Hzero].
    + exists k, (best_acc l). split; [lia|]. split; [done|]. apply Qeq_refl.
  - destruct Hbest as [Hzero|(k & Hk & Hacck & Hpos' & Hfirst & Hbm & Hlive & Hsnap)].
    + by left.
    + right. exists k. split; [lia|]. split; [done|]. split; [done|]. split; [done|].
      split; [lia|]. split; [lia|]. done.
Qed.

End TrainLemmas.

(** C7 at a run of four epochs with the model that counts its optimizer
    steps: the validation accuracies are 0, 0, 1, 1, and the model returned
    is the copy taken at the end of the third epoch. *)
Lemma C7_train_model_tracks_best_witness :
  let run := @train_model step_counter one_ant 0%nat (fun _ _ => tt) (fun _ _ => tt) in
  exists (l : @Locals step_counter) (k : Z),
    run 4 [0%nat] = Some l /\ 0 <= k < 4 /\
    @val_acc step_counter one_ant 0%nat (fun _ _ => tt) (fun _ _ => tt) k [0%nat]
      = Some (best_acc l) /\
    (0 < best_acc l)%Q /\ best_model l <> 0%nat /\
    store l !! best_model l
      = @live_model_after step_counter one_ant 0%nat (fun _ _ => tt) (fun _ _ => tt) k [0%nat].
Proof.
  destruct (@C7_train_model_tracks_best step_counter one_ant 0%nat (fun _ _ => tt)
              (fun _ _ => tt) 4 [0%nat] 0%nat eq_refl eq_refl eq_refl)
    as (l & Hrun & _ & _ & _ & [(Hzero & _)|(k & Hk & Hacc & Hpos & _ & Hbm & _ & _ & Hsnap)]).
  - exfalso. vm_compute in Hrun. injection Hrun as <-. discriminate Hzero.
  - exists l, k. exact (conj Hrun (conj Hk (conj Hacc (conj Hpos (conj Hbm Hsnap))))).
Defined.

(** C7 as stated fails.  In a run of two epochs in which every prediction is
    wrong, both validation accuracies are 0, so the maximum is first
    achieved in epoch 0; [train_model] takes no deep copy and returns the
    live model object, whose state is the one the second epoch left (two
    optimizer steps), not the one it had at the end of epoch 0 (one step). *)
Lemma C7_counterexample :
  let run := @train_model step_counter one_ant 0%nat (fun _ _ => tt) (fun _ _ => tt) in
  exists l1 l2 : @Locals step_counter,
    run 1 [0%nat] = Some l1 /\ run 2 [0%nat] = Some l2 /\
    epoch_acc l1 = Some 0%Q /\ epoch_acc l2 = Some 0%Q /\ best_acc l2 = 0%Q /\
    best_model l2 = 0%nat /\ store l2 = [2%nat] /\
    store l1 !! 0%nat = Some 1%nat /\
    store l2 !! best_model l2 = Some 2%nat.
Proof. eexists _, _. split; [by vm_compute|]. split; [by vm_compute|]. by vm_compute. Qed.

(** ** [visualize_model] *)

(** C8 fails on the code: the figure is titled with the true label.  For
    an image labelled 0 ("ants") that the model gives the logits [0, 1]
    (prediction 1, "bees"), [visualize_model] shows the title "pred: ants". *)
Theorem C8_title_is_true_label :
  @visualize_model step_counter one_ant 0%nat 5 0 [0%nat] = Some ([0%nat], [(7, "pred: ants")]) /\
  torch_max1 (@model_call step_counter 0%nat [7]).2 = [1] /\
  list_getitem (@dset_classes step_counter one_ant) 1 = Some "bees" /\
  list_getitem (@dset_classes step_counter one_ant) 0 = Some "ants".
Proof. by vm_compute. Qed.

Section VisualizeLemmas.
Context `{Trainable} (globals : Globals).

Lemma visualize_loop_figures (model model' : nat) num_images batches objects objects' figures
    shown shown' :
  visualize_loop globals model num_images batches objects figures = Some shown ->
  visualize_loop globals model' num_images batches objects' figures = Some shown' ->
  shown.2 = shown'.2.
Proof.
  revert objects objects' figures.
  induction batches as [|[i [inputs labels]] rest IH]; intros objects objects' figures; simpl.
  { by intros [= <-] [= <-]. }
  destruct (objects !! model) as [m|]; [|done].
  destruct (objects' !! model') as [m'|]; [|done]. simpl.
  destruct (model_call m inputs) as [m1 outputs].
  destruct (model_call m' inputs) as [m1' outputs'].
  destruct (inputs !! 0%nat) as [image|]; [|done]. simpl.
  destruct (labels !! 0%nat) as [label|]; [|done]. simpl.
  destruct (list_getitem _ label) as [class|]; [|done]. simpl.
  destruct (decide (i = num_images - 1)).
  - by intros [= <-] [= <-].
  - apply IH.
Qed.

(** The figures [visualize_model] shows do not depend on the model: two
    calls on the same traversal of the validation loader that both return
    show the same images under the same titles, whatever the two models
    predict. *)
Theorem visualize_model_ignores_predictions (model model' : nat) num_images k objects objects'
    shown shown' :
  visualize_model globals model num_images k objects = Some shown ->
  visualize_model globals model' num_images k objects' = Some shown' ->
  shown.2 = shown'.2.
Proof. apply visualize_loop_figures. Qed.

End VisualizeLemmas.

(** Two models that disagree on the image (one predicts "bees", the other
    "ants") get the same figure. *)
Lemma visualize_model_ignores_predictions_witness :
  torch_max1 (@model_call step_counter 0%nat [7]).2 = [1] /\
  torch_max1 (@model_call step_counter 5%nat [7]).2 = [0] /\
  ([0%nat], [(7, "pred: ants")] : list (@Figure step_counter)).2
  = ([5%nat], [(7, "pred: ants")] : list (@Figure step_counter)).2.
Proof.
  split; [by vm_compute|]. split; [by vm_compute|].
  apply (@visualize_model_ignores_predictions step_counter one_ant 0%nat 0%nat 5 0
           [0%nat] [5%nat]); by vm_compute.
Defined.

(** * More of the notebook *)

(** ** Inputs a module raises on *)

Lemma window_out_small h k s p : h + 2 * p < k -> window_out h k s p = None.
Proof.
  intros Hh. unfold window_out.
  replace (k <=? h + 2 * p) with false by (symmetry; apply Z.leb_gt; lia).
  by rewrite andb_false_r.
Qed.

Lemma window2d_small n c h w c_out k s p :
  h + 2 * p < k \/ w + 2 * p < k -> window2d [n; c; h; w] c_out k s p = None.
Proof.
  intros [Hh|Hw]; unfold window2d.
  - by rewrite (window_out_small h).
  - rewrite (window_out_small w) by done. by destruct (window_out h k s p).
Qed.

Lemma Sequential_size_fails {M : Type} (child_size : M -> list Z -> option (list Z))
    name m (rest : Sequential M) s :
  child_size m s = None -> Sequential_size child_size ((name, m) :: rest) s = None.
Proof. intros Hm. simpl. by rewrite Hm. Qed.

Lemma Conv2d_shape_small c_in c_out k s p weight n h w :
  h + 2 * p < k \/ w + 2 * p < k ->
  Module_shape (Conv2d c_in c_out k s p weight) [n; c_in; h; w] = None.
Proof. intros Hhw. unfold Module_shape. rewrite decide_True by done. by apply window2d_small. Qed.

Lemma AvgPool2d_shape_small k s n c h w :
  h < k \/ w < k -> Module_shape (AvgPool2d k s) [n; c; h; w] = None.
Proof. intros Hhw. unfold Module_shape, channels. apply window2d_small. lia. Qed.

Lemma Conv2d_size_small c_in c_out k s p weight n h w :
  h + 2 * p < k \/ w + 2 * p < k ->
  Module_size (Conv2d c_in c_out k s p weight) [n; c_in; h; w] = None.
Proof. apply Conv2d_shape_small. Qed.

Lemma AvgPool2d_size_small k s n c h w :
  h < k \/ w < k -> Module_size (AvgPool2d k s) [n; c; h; w] = None.
Proof. apply AvgPool2d_shape_small. Qed.

(** A batch normalisation in training mode raises on a single value per
    channel; in evaluation mode it uses its running statistics. *)
Lemma BatchNorm2d_size_single c a r n h w :
  n * h * w = 1 -> Module_size (BatchNorm2d c a r true) [n; c; h; w] = None.
Proof. intros Hv. unfold Module_size. rewrite decide_True; [done|]. simpl. lia. Qed.

Lemma BatchNorm2d_size_mode c a r tr n h w :
  (tr = true -> n * h * w <> 1) ->
  Module_size (BatchNorm2d c a r tr) [n; c; h; w] = Some [n; c; h; w].
Proof.
  intros Hv. destruct tr; [by apply BatchNorm2d_size, Hv|]. apply BatchNorm2d_shape.
Qed.

Lemma channels_Some s c : channels s = Some c -> exists n h w, s = [n; c; h; w].
Proof.
  destruct s as [|n [|c' [|h [|w [|]]]]]; try done. intros [= ->]. by exists n, h, w.
Qed.

Lemma cat1_size_None `{Numerics} (x y : Tensor scalar) :
  cat1_size (size x) (size y) = None -> cat1 x y = None.
Proof.
  unfold cat1_size, cat1.
  destruct (size x) as [|n [|c rest]]; try done.
  destruct (size y) as [|n' [|c' rest']]; try done.
  by destruct (decide _).
Qed.

Section Rejects.
Context `{Numerics}.

Lemma Module_rejects m x mem t :
  cells mem !! x = Some t -> Module_size m (size t) = None -> (Module_forward m x mem).2 = None.
Proof. intros Hx Hs. unfold Module_forward. by rewrite Hx, Hs. Qed.

Lemma Sequential_rejects {M : Type} (call : M -> nat -> Mem -> M * Mem * option nat)
    (child_size : M -> list Z -> option (list Z)) (config : M -> M) (self : Sequential M) :
  Forall (fun item => ok_at call child_size config item.2) self ->
  Forall (fun item => forall x mem t, cells mem !! x = Some t ->
            child_size item.2 (size t) = None -> (call item.2 x mem).2 = None) self ->
  forall x mem t, cells mem !! x = Some t -> Sequential_size child_size self (size t) = None ->
    (Sequential_forward call self x mem).2 = None.
Proof.
  intros Hok Hrej. induction self as [|[name m] rest IH]; intros x mem t Hx Hs; [done|].
  inversion_clear Hok as [|? ? Hm Hok']. inversion_clear Hrej as [|? ? Hr Hrej'].
  simpl in *. destruct (child_size m (size t)) as [s1|] eqn:Hs1; simpl in Hs.
  - destruct (Hm x mem t s1 Hx Hs1) as (m' & mem1 & y1 & -> & _ & _ & (t1 & Hy1 & <-)).
    specialize (IH Hok' Hrej' y1 mem1 t1 Hy1 Hs).
    by destruct (Sequential_forward call rest y1 mem1) as [[rest' mem2] r].
  - specialize (Hr x mem t Hx Hs1). by destruct (call m x mem) as [[m' mem1] r]; simpl in *; subst.
Qed.

Lemma dropout_cat_rejects (dr : Q) tr x nf mem1 t1 tn :
  cells mem1 !! x = Some t1 -> cells mem1 !! nf = Some tn ->
  (if Qlt_le_dec 0 dr
   then (if Qle_bool 0 dr && Qle_bool dr 1 then cat1_size (size t1) (size tn) else None)
   else cat1_size (size t1) (size tn)) = None ->
  (dropout_cat dr tr x nf mem1).2 = None.
Proof.
  intros Hx Hnf Hs. unfold dropout_cat.
  destruct (Qlt_le_dec 0 dr) as [Hdr|Hdr].
  - unfold F_dropout. rewrite Hnf.
    destruct (Qle_bool 0 dr && Qle_bool dr 1); [|done].
    destruct (negb tr || Qeq_bool dr 0); [|destruct (Qeq_bool dr 1)];
      unfold alloc, torch_cat1; simpl.
    + rewrite Hx, Hnf. by rewrite cat1_size_None.
    + rewrite lookup_app_l by (by eapply lookup_lt_Some). rewrite Hx.
      rewrite lookup_app_r by done. rewrite Nat.sub_diag. simpl.
      by rewrite cat1_size_None.
    + rewrite lookup_app_l by (by eapply lookup_lt_Some). rewrite Hx.
      rewrite lookup_app_r by done. rewrite Nat.sub_diag. simpl.
      by rewrite cat1_size_None.
  - unfold torch_cat1. rewrite Hx, Hnf. by rewrite cat1_size_None.
Qed.

Lemma modules_ok (ms : Sequential Module) :
  Forall (fun item => ok_at Module_forward Module_size Module_config item.2) ms.
Proof. apply Forall_forall. intros ? _. apply Module_ok. Qed.

Lemma modules_reject (ms : Sequential Module) :
  Forall (fun item => forall x mem t, cells mem !! x = Some t ->
            Module_size item.2 (size t) = None -> (Module_forward item.2 x mem).2 = None) ms.
Proof. apply Forall_forall. intros ? _. apply Module_rejects. Qed.

Lemma _DenseLayer_rejects (self : _DenseLayer) x mem t :
  cells mem !! x = Some t -> _DenseLayer_size self (size t) = None ->
  (_DenseLayer_forward self x mem).2 = None.
Proof.
  intros Hx Hs. rewrite _DenseLayer_forward_unfold. unfold _DenseLayer_size in Hs.
  destruct (Sequential_size Module_size (layer_modules self) (size t)) as [s_new|] eqn:Hnew.
  - simpl in Hs.
    destruct (Sequential_ok _ _ _ _ (modules_ok (layer_modules self)) x mem t s_new Hx Hnew)
      as (ms' & mem1 & nf & -> & _ & Htouch & (tn & Hnf & <-)).
    destruct Htouch as (_ & _ & Hsize & _).
    destruct (Hsize (size t)) as (t1 & Hx1 & Ht1); [by exists t|].
    rewrite <- Ht1 in Hs.
    pose proof (dropout_cat_rejects (drop_rate self) (layer_training self) x nf mem1 t1 tn
                  Hx1 Hnf Hs) as Hdc.
    by destruct (dropout_cat _ _ _ _ _) as [mem3 r3]; simpl in *; subst.
  - pose proof (Sequential_rejects _ _ _ _ (modules_ok _) (modules_reject _) x mem t Hx Hnew) as Hrun.
    by destruct (Sequential_forward _ _ _ _) as [[ms' mem1] r]; simpl in *; subst.
Qed.

Lemma Feature_rejects (self : Feature) x mem t :
  cells mem !! x = Some t -> Feature_size self (size t) = None ->
  (Feature_forward self x mem).2 = None.
Proof.
  intros Hx Hs. destruct self as [module|block|trans]; simpl in *.
  - pose proof (Module_rejects module x mem t Hx Hs) as Hm.
    by destruct (Module_forward module x mem) as [[m' mem'] r]; simpl in *; subst.
  - assert (Hrun : (Sequential_forward _DenseLayer_forward block x mem).2 = None).
    { eapply (Sequential_rejects _ _ _DenseLayer_config); [| |done..].
      - apply Forall_forall. intros ? _. apply _DenseLayer_ok.
      - apply Forall_forall. intros ? _. apply _DenseLayer_rejects. }
    by destruct (Sequential_forward _ block x mem) as [[b' mem'] r]; simpl in *; subst.
  - pose proof (Sequential_rejects _ _ _ _ (modules_ok _) (modules_reject _) x mem t Hx Hs) as Hrun.
    by destruct (Sequential_forward _ trans x mem) as [[t' mem'] r]; simpl in *; subst.
Qed.

Lemma features_reject (fs : Sequential Feature) x mem t :
  cells mem !! x = Some t -> Sequential_size Feature_size fs (size t) = None ->
  (Sequential_forward Feature_forward fs x mem).2 = None.
Proof.
  apply (Sequential_rejects _ _ Feature_config).
  - apply Forall_forall. intros ? _. apply Feature_ok.
  - apply Forall_forall. intros ? _. apply Feature_rejects.
Qed.

End Rejects.

(** ** What [_DenseLayer] and [_Transition] accept *)

Lemma Module_config_BatchNorm2d m c :
  Module_config m = BatchNorm2d c Initialised Initialised true ->
  exists a r tr, m = BatchNorm2d c a r tr.
Proof. destruct m; try done. simpl. intros [= ->]. by eexists _, _, _. Qed.

Lemma Module_config_Conv2d m i o k s p :
  Module_config m = Conv2d i o k s p Initialised -> exists weight, m = Conv2d i o k s p weight.
Proof. destruct m; try done. simpl. intros [= -> -> -> -> ->]. by eexists. Qed.

Lemma Module_config_ReLU m inplace : Module_config m = ReLU inplace -> m = ReLU inplace.
Proof. by destruct m. Qed.

(** A layer configured as [_DenseLayer] builds it has the six children, in
    whatever mode and with whatever parameters and statistics. *)
Lemma _DenseLayer_config_modules (self : _DenseLayer) C g bn (dr : Q) :
  _DenseLayer_config self = _DenseLayer_init C g bn dr ->
  drop_rate self = dr /\
  exists a1 r1 tr1 w1 a2 r2 tr2 w2,
    layer_modules self =
      [("norm.1", BatchNorm2d C a1 r1 tr1); ("relu.1", ReLU true);
       ("conv.1", Conv2d C (bn * g) 1 1 0 w1);
       ("norm.2", BatchNorm2d (bn * g) a2 r2 tr2); ("relu.2", ReLU true);
       ("conv.2", Conv2d (bn * g) g 3 1 1 w2)].
Proof.
  intros Hcfg. split; [by apply (f_equal drop_rate) in Hcfg|].
  apply (f_equal layer_modules) in Hcfg. rewrite _DenseLayer_init_modules in Hcfg.
  simpl in Hcfg.
  destruct (layer_modules self)
    as [|[k1 m1] [|[k2 m2] [|[k3 m3] [|[k4 m4] [|[k5 m5] [|[k6 m6] [|]]]]]]]; try done.
  simpl in Hcfg. injection Hcfg as -> H1 -> H2 -> H3 -> H4 -> H5 -> H6.
  apply Module_config_BatchNorm2d in H1 as (a1 & r1 & tr1 & ->).
  apply Module_config_ReLU in H2 as ->.
  apply Module_config_Conv2d in H3 as (w1 & ->).
  apply Module_config_BatchNorm2d in H4 as (a2 & r2 & tr2 & ->).
  apply Module_config_ReLU in H5 as ->.
  apply Module_config_Conv2d in H6 as (w2 & ->).
  by exists a1, r1, tr1, w1, a2, r2, tr2, w2.
Qed.

Lemma _DenseLayer_init_shape_Some C g bn (dr : Q) s s' :
  _DenseLayer_shape (_DenseLayer_init C g bn dr) s = Some s' ->
  (exists n h w, s = [n; C; h; w] /\ 1 <= h /\ 1 <= w) /\ (dr <= 1)%Q.
Proof.
  unfold _DenseLayer_shape. rewrite _DenseLayer_init_modules. intros Hs.
  destruct (decide (channels s = Some C)) as [Hc|Hc]; cycle 1.
  { simpl in Hs. by rewrite decide_False in Hs. }
  apply channels_Some in Hc as (n & h & w & ->).
  erewrite Sequential_size_step in Hs by apply BatchNorm2d_shape.
  erewrite Sequential_size_step in Hs by apply ReLU_shape.
  destruct (decide (1 <= h /\ 1 <= w)) as [[Hh Hw]|Hhw]; cycle 1.
  { rewrite Sequential_size_fails in Hs by (apply Conv2d_shape_small; lia). done. }
  split; [by exists n, h, w|].
  pose proof (_DenseLayer_init_new_shape C g bn dr n h w Hh Hw) as Hnew.
  rewrite _DenseLayer_init_modules in Hnew.
  erewrite Sequential_size_step in Hnew by apply BatchNorm2d_shape.
  erewrite Sequential_size_step in Hnew by apply ReLU_shape.
  rewrite Hnew in Hs. simpl in Hs.
  destruct (Qlt_le_dec 0 dr) as [Hpos|Hneg].
  - destruct (Qle_bool 0 dr); [|done]. simpl in Hs.
    destruct (Qle_bool dr 1) eqn:Hdr; [|done]. by apply Qle_bool_iff.
  - eapply Qle_trans; [exact Hneg|done].
Qed.

Lemma _Transition_init_shape_Some c_in c_out s s' :
  Sequential_size Module_shape (_Transition_init c_in c_out) s = Some s' ->
  exists n h w, s = [n; c_in; h; w] /\ 2 <= h /\ 2 <= w.
Proof.
  change (_Transition_init c_in c_out) with
    [("norm", BatchNorm2d c_in Initialised Initialised true); ("relu", ReLU true);
     ("conv", Conv2d c_in c_out 1 1 0 Initialised); ("pool", AvgPool2d 2 2)].
  intros Hs.
  destruct (decide (channels s = Some c_in)) as [Hc|Hc]; cycle 1.
  { simpl in Hs. by rewrite decide_False in Hs. }
  apply channels_Some in Hc as (n & h & w & ->).
  erewrite Sequential_size_step in Hs by apply BatchNorm2d_shape.
  erewrite Sequential_size_step in Hs by apply ReLU_shape.
  destruct (decide (1 <= h /\ 1 <= w)) as [[Hh Hw]|Hhw]; cycle 1.
  { rewrite Sequential_size_fails in Hs by (apply Conv2d_shape_small; lia). done. }
  erewrite Sequential_size_step in Hs by (apply Conv2d_shape_same; lia).
  destruct (decide (2 <= h /\ 2 <= w)) as [[Hh2 Hw2]|Hhw]; [by exists n, h, w|].
  rewrite Sequential_size_fails in Hs by (apply AvgPool2d_shape_small; lia). done.
Qed.

Lemma true_in_flags (tr1 tr2 : bool) : true ∈ [tr1; tr2] <-> tr1 = true \/ tr2 = true.
Proof.
  rewrite !elem_of_cons. split.
  - intros [?|[?|Hnil]]; [by left|by right|by apply not_elem_of_nil in Hnil].
  - intros [?|?]; [by left|by right; left].
Qed.

Section Accepts.
Context `{Numerics}.

(** [_DenseLayer.forward] returns exactly on the inputs of four dimensions
    with the channel count the layer was built for and, when one of its
    two batch normalisations is in training mode, more than one value per
    channel, provided the dropout rate is at most 1.  On any other input
    the first normalisation raises, or the second when only that one is in
    training mode; with a dropout rate above 1 the layer can be built, and
    every call of it raises in [F.dropout]. *)
Theorem _DenseLayer_forward_accepts (self : _DenseLayer) C g bn (dr : Q) x mem t :
  _DenseLayer_config self = _DenseLayer_init C g bn dr ->
  cells mem !! x = Some t ->
  is_Some (_DenseLayer_forward self x mem).2 <->
  (exists n h w, size t = [n; C; h; w] /\ 1 <= h /\ 1 <= w /\
     (true ∈ flat_map (fun '(_, module) => Module_training module) (layer_modules self) ->
      n * h * w <> 1)) /\
  (dr <= 1)%Q.
Proof.
  intros Hcfg Hx.
  destruct (_DenseLayer_config_modules self C g bn dr Hcfg)
    as (Hrate & a1 & r1 & tr1 & w1 & a2 & r2 & tr2 & w2 & Hmods).
  rewrite Hmods. cbn [flat_map Module_training app]. split.
  - intros Hsome.
    destruct (_DenseLayer_size self (size t)) as [s'|] eqn:Hs; cycle 1.
    { rewrite (_DenseLayer_rejects self x mem t Hx Hs) in Hsome. by destruct Hsome. }
    pose proof (_DenseLayer_size_shape _ _ _ Hs) as Hshape.
    rewrite <- _DenseLayer_shape_config, Hcfg in Hshape.
    apply _DenseLayer_init_shape_Some in Hshape as [(n & h & w & Hst & Hh & Hw) Hdr].
    split; [|done]. exists n, h, w. do 3 (split; [done|]).
    intros Htr Hv. apply true_in_flags in Htr.
    unfold _DenseLayer_size in Hs. rewrite Hmods, Hst in Hs.
    destruct tr1.
    + rewrite Sequential_size_fails in Hs by (by apply BatchNorm2d_size_single). done.
    + erewrite Sequential_size_step in Hs by (by apply BatchNorm2d_size_mode).
      erewrite Sequential_size_step in Hs by apply ReLU_size.
      erewrite Sequential_size_step in Hs by (by apply Conv2d_size_same).
      destruct Htr as [Htr|Htr]; [done|]. subst tr2.
      rewrite Sequential_size_fails in Hs by (by apply BatchNorm2d_size_single). done.
  - intros [(n & h & w & Hs & Hh & Hw & Hv) Hdr].
    assert (Hsize : _DenseLayer_size self (size t) = Some [n; C + g; h; w]).
    { unfold _DenseLayer_size. rewrite Hmods, Hs, Hrate.
      erewrite Sequential_size_step
        by (apply BatchNorm2d_size_mode; intros ->; apply Hv, true_in_flags; by left).
      erewrite Sequential_size_step by apply ReLU_size.
      erewrite Sequential_size_step by (by apply Conv2d_size_same).
      erewrite Sequential_size_step
        by (apply BatchNorm2d_size_mode; intros ->; apply Hv, true_in_flags; by right).
      erewrite Sequential_size_step by apply ReLU_size.
      erewrite Sequential_size_step by (by apply Conv2d_size_same).
      simpl.
      assert (Hcat : cat1_size [n; C; h; w] [n; g; h; w] = Some [n; C + g; h; w]).
      { unfold cat1_size. by rewrite decide_True. }
      destruct (Qlt_le_dec 0 dr) as [Hpos|Hneg]; [|done].
      apply Qlt_le_weak in Hpos.
      apply Qle_bool_iff in Hpos, Hdr. by rewrite Hpos, Hdr. }
    destruct (_DenseLayer_ok self x mem t _ Hx Hsize) as (self' & mem' & y & -> & _).
    by eexists.
Qed.

(** [_Transition] returns exactly on the inputs of four dimensions with
    the channel count it was built for and both spatial extents at least
    2, the pooling window. *)
Theorem _Transition_forward_accepts (self : _Transition) c_in c_out x mem t :
  Sequential_map Module_config self = _Transition_init c_in c_out ->
  cells mem !! x = Some t ->
  is_Some (Sequential_forward Module_forward self x mem).2 <->
  exists n h w, size t = [n; c_in; h; w] /\ 2 <= h /\ 2 <= w.
Proof.
  intros Hcfg Hx. split.
  - intros Hsome.
    destruct (Sequential_size Module_size self (size t)) as [s'|] eqn:Hs.
    + apply (Sequential_size_mono _ _ _ _ _ Module_size_shape) in Hs.
      rewrite <- (Sequential_size_config Module_shape Module_config) in Hs
        by (intros; by rewrite Module_shape_config).
      rewrite Hcfg in Hs. by eapply _Transition_init_shape_Some.
    + rewrite (Sequential_rejects _ _ _ _ (modules_ok _) (modules_reject _) x mem t Hx Hs)
        in Hsome. by destruct Hsome.
  - intros (n & h & w & Hs & Hh & Hw).
    destruct (_Transition_forward_ok self c_in c_out x mem t n h w Hcfg Hx Hs Hh Hw)
      as (self' & mem' & y & -> & _).
    by eexists.
Qed.

End Accepts.

(** A layer as [_DenseLayer(1, 2, 3, .5)] builds it, in training mode,
    raises on a single 1 x 1 image, and returns on two of them. *)
Lemma _DenseLayer_forward_accepts_witness :
  (@_DenseLayer_forward sizes_only (_DenseLayer_init 1 2 3 0.5) 0%nat
     (one_tensor [1; 1; 1; 1])).2 = None /\
  is_Some (@_DenseLayer_forward sizes_only (_DenseLayer_init 1 2 3 0.5) 0%nat
             (one_tensor [2; 1; 1; 1])).2.
Proof.
  split.
  - apply eq_None_not_Some. intros Hsome.
    apply (@_DenseLayer_forward_accepts sizes_only (_DenseLayer_init 1 2 3 0.5) 1 2 3 0.5 0%nat
             (one_tensor [1; 1; 1; 1]) (mkTensor [1; 1; 1; 1] (fun _ => tt)) eq_refl eq_refl)
      in Hsome.
    destruct Hsome as [(n & h & w & [= <- <- <-] & _ & _ & Hv) _].
    apply Hv; [|reflexivity]. apply true_in_flags. by left.
  - apply (@_DenseLayer_forward_accepts sizes_only (_DenseLayer_init 1 2 3 0.5) 1 2 3 0.5 0%nat
             (one_tensor [2; 1; 1; 1]) (mkTensor [2; 1; 1; 1] (fun _ => tt)) eq_refl eq_refl).
    split; [|discriminate]. exists 2, 1, 1. repeat split; lia.
Defined.

(** [_Transition(64, 5)] raises on a 64-channel input one pixel high. *)
Lemma _Transition_forward_accepts_witness :
  (@Sequential_forward sizes_only _ (@Module_forward sizes_only) (_Transition_init 64 5) 0%nat
     (one_tensor [1; 64; 1; 9])).2 = None.
Proof.
  apply eq_None_not_Some. intros Hsome.
  apply (@_Transition_forward_accepts sizes_only (_Transition_init 64 5) 64 5 0%nat
           (one_tensor [1; 64; 1; 9]) (mkTensor [1; 64; 1; 9] (fun _ => tt)) eq_refl eq_refl)
    in Hsome.
  destruct Hsome as (n & h & w & [= <- <- <-] & Hh & _). lia.
Defined.

(** ** Inputs too small for [DenseNet] *)

Lemma _Transition_init_shape_small c_in c_out n h w :
  h < 2 \/ w < 2 ->
  Feature_shape (Transition (_Transition_init c_in c_out)) [n; c_in; h; w] = None.
Proof.
  intros Hhw. simpl.
  destruct (Sequential_size Module_shape (_Transition_init c_in c_out) [n; c_in; h; w])
    as [s'|] eqn:Hs; [|done].
  apply _Transition_init_shape_Some in Hs as (n' & h' & w' & [= <- <- <-] & Hh & Hw). lia.
Qed.

Lemma DenseNet_features_shape_small g n1 n2 n3 n4 m bn (dr : Q) k n h w :
  0 <= n1 -> 0 <= n2 -> 0 <= n3 -> 0 <= n4 -> (dr <= 1)%Q ->
  h < 29 \/ w < 29 ->
  Sequential_size Feature_shape (features (DenseNet_init g [n1; n2; n3; n4] m bn dr k)) [n; 3; h; w]
  = None.
Proof.
  intros Hn1 Hn2 Hn3 Hn4 Hdr Hsmall.
  rewrite DenseNet_init_four. cbv zeta. cbn [features].
  destruct (decide (1 <= h /\ 1 <= w)) as [[Hh Hw]|Hhw]; cycle 1.
  { apply Sequential_size_fails. apply Conv2d_shape_small. lia. }
  erewrite Sequential_size_step; cycle 1.
  { unfold Feature_shape, Module_shape. rewrite decide_True by done. unfold window2d.
    by rewrite !(window_out_stride2 _ 7 3) by lia. }
  erewrite Sequential_size_step by apply BatchNorm2d_shape.
  erewrite Sequential_size_step by apply ReLU_shape.
  erewrite Sequential_size_step; cycle 1.
  { unfold Feature_shape, Module_shape, channels, window2d.
    rewrite !(window_out_stride2 _ 3 1) by (Z.div_mod_to_equations; lia). done. }
  fold (stem_extent h). fold (stem_extent w).
  assert (Hs : 1 <= stem_extent h /\ 1 <= stem_extent w /\
               (stem_extent h < 8 \/ stem_extent w < 8)).
  { unfold stem_extent. Z.div_mod_to_equations. lia. }
  destruct Hs as (Hsh & Hsw & Hs8).
  erewrite Sequential_size_step by (apply _DenseBlock_init_shape; first [lia|done]).
  destruct (decide (2 <= stem_extent h /\ 2 <= stem_extent w)) as [[Hh2 Hw2]|Hhw]; cycle 1.
  { apply Sequential_size_fails, _Transition_init_shape_small. lia. }
  erewrite Sequential_size_step by (apply _Transition_init_shape; lia).
  assert (Hh4 : 1 <= stem_extent h / 2 /\ 1 <= stem_extent w / 2)
    by (Z.div_mod_to_equations; lia).
  erewrite Sequential_size_step by (apply _DenseBlock_init_shape; first [lia|done]).
  destruct (decide (2 <= stem_extent h / 2 /\ 2 <= stem_extent w / 2)) as [[Hh3 Hw3]|Hhw]; cycle 1.
  { apply Sequential_size_fails, _Transition_init_shape_small. lia. }
  erewrite Sequential_size_step by (apply _Transition_init_shape; lia).
  assert (Hh5 : 1 <= stem_extent h / 2 / 2 /\ 1 <= stem_extent w / 2 / 2)
    by (Z.div_mod_to_equations; lia).
  erewrite Sequential_size_step by (apply _DenseBlock_init_shape; first [lia|done]).
  apply Sequential_size_fails, _Transition_init_shape_small.
  Z.div_mod_to_equations. lia.
Qed.

Section TooSmall.
Context `{Numerics}.

Lemma DenseNet_forward_features_fail (self : DenseNet) x mem :
  (Sequential_forward Feature_forward (features self) x mem).2 = None ->
  (DenseNet_forward self x mem).2 = None.
Proof.
  unfold DenseNet_forward.
  destruct (Sequential_forward _ (features self) x mem) as [[fs' mem1] r]. simpl.
  by intros ->.
Qed.

(** The lower bound of C2 is exact, and so is the channel count.  On an
    input that is not of size [(n, 3, h, w)] with both [h] and [w] at least
    221, [forward] of a network of four blocks raises: the first
    convolution rejects an input that has not three channels; below 29
    pixels a pooling window of a transition is larger than what reaches it;
    from 29 to 220 pixels the feature map is smaller than the 7 x 7 window
    of the final average pooling, where a batch normalisation in training
    mode has not already raised on a single value per channel. *)
Theorem DenseNet_forward_too_small (self : DenseNet) g n1 n2 n3 n4 m bn (dr : Q) num_classes
    x mem t :
  DenseNet_config self = DenseNet_init g [n1; n2; n3; n4] m bn dr num_classes ->
  0 <= n1 -> 0 <= n2 -> 0 <= n3 -> 0 <= n4 -> (dr <= 1)%Q ->
  cells mem !! x = Some t ->
  ~ (exists n h w, size t = [n; 3; h; w] /\ 221 <= h /\ 221 <= w) ->
  (DenseNet_forward self x mem).2 = None.
Proof.
  intros Hcfg Hn1 Hn2 Hn3 Hn4 Hdr Hx Hsmall.
  pose proof (DenseNet_init_four g n1 n2 n3 n4 m bn dr num_classes) as Hinit. cbv zeta in Hinit.
  assert (Hfeatures : Sequential_map Feature_config (features self)
                      = features (DenseNet_init g [n1; n2; n3; n4] m bn dr num_classes))
    by (by rewrite <- Hcfg).
  destruct (Sequential_size Feature_size (features self) (size t)) as [s'|] eqn:Hfs; cycle 1.
  { by apply DenseNet_forward_features_fail, (features_reject _ x mem t Hx). }
  assert (Hshape : Sequential_size Feature_shape
            (features (DenseNet_init g [n1; n2; n3; n4] m bn dr num_classes)) (size t) = Some s').
  { rewrite <- Hfeatures, Sequential_size_config by apply Feature_shape_config.
    by apply (Sequential_size_mono _ _ _ _ _ Feature_size_shape). }
  destruct (decide (channels (size t) = Some 3)) as [Hc|Hc]; cycle 1.
  { rewrite Hinit in Hshape. cbn [features] in Hshape.
    rewrite Sequential_size_fails in Hshape; [done|].
    unfold Feature_shape, Module_shape. by rewrite decide_False. }
  apply channels_Some in Hc as (n & h & w & Hs).
  assert (Hhw : h < 221 \/ w < 221).
  { destruct (decide (221 <= h /\ 221 <= w)) as [[Hh Hw]|Hhw]; [|lia].
    destruct Hsmall. by exists n, h, w. }
  destruct (decide (h < 29 \/ w < 29)) as [H29|H29].
  { rewrite Hs, DenseNet_features_shape_small in Hshape by done. done. }
  assert (Hext : 8 <= stem_extent h /\ 8 <= stem_extent w /\
                 (features_extent h < 7 \/ features_extent w < 7)).
  { unfold features_extent, stem_extent. Z.div_mod_to_equations. lia. }
  destruct Hext as (Hsh & Hsw & Hf7).
  rewrite Hs, (DenseNet_features_shape g n1 n2 n3 n4 m bn dr num_classes n h w
                 Hn1 Hn2 Hn3 Hn4 Hdr ltac:(lia) ltac:(lia) Hsh Hsw) in Hshape.
  injection Hshape as <-.
  rewrite Hinit in Hfeatures. cbn [features] in Hfeatures.
  destruct (features_fresh (features self) _ _ _ Hfeatures ltac:(done) x mem t _ Hx Hfs)
    as (fs' & mem1 & fo & Hrun & _ & Hext1 & (tf & Hfo & Htf)).
  unfold DenseNet_forward. rewrite Hrun.
  destruct (F_relu__spec fo mem1 tf Hfo) as (mem2 & -> & Htouch2 & (tf2 & Hfo2 & Htf2)).
  rewrite Htf in Htf2.
  unfold F_avg_pool2d. rewrite Hfo2, Htf2.
  by rewrite AvgPool2d_size_small.
Qed.

End TooSmall.

(** [DenseNet()] on one 220 x 224 image. *)
Lemma DenseNet_forward_too_small_witness :
  (@DenseNet_forward sizes_only (DenseNet_init 32 [6; 12; 24; 16] 64 4 0 1000) 0%nat
     (one_tensor [1; 3; 220; 224])).2 = None.
Proof.
  apply (@DenseNet_forward_too_small sizes_only (DenseNet_init 32 [6; 12; 24; 16] 64 4 0 1000)
           32 6 12 24 16 64 4 0 1000 0%nat (one_tensor [1; 3; 220; 224])
           (mkTensor [1; 3; 220; 224] (fun _ => tt))).
  - by vm_compute.
  - lia.
  - lia.
  - lia.
  - lia.
  - discriminate.
  - reflexivity.
  - intros (n & h & w & [= <- <- <-] & Hh & Hw). lia.
Defined.

(** ** Running statistics *)

Lemma Forall_flat_map_items {M A : Type} (P : A -> Prop) (f : M -> list A) (l : Sequential M) :
  Forall P (flat_map (fun '(_, m) => f m) l) <-> Forall (fun item => Forall P (f item.2)) l.
Proof.
  induction l as [|[name m] l IH]; simpl.
  - split; constructor.
  - rewrite Forall_app, IH. split.
    + intros [Hm Hl]. by constructor.
    + intros Hl. by inversion_clear Hl.
Qed.

Section Tracks.
Context `{Numerics}.

Lemma Module_forward_tracks m x mem :
  is_Some (Module_forward m x mem).2 -> Forall (eq true) (Module_training m) ->
  Module_buffers (Module_forward m x mem).1.1 = Tracked <$> Module_buffers m.
Proof.
  unfold Module_forward. destruct (cells mem !! x); [|by intros []].
  destruct (Module_size m _); [|by intros []].
  destruct m as [| ? ? ? tr | [] | | |]; try done. simpl.
  intros _ Htr. inversion_clear Htr as [|? ? <- _]. done.
Qed.

Lemma Module_forward_training m x mem :
  Module_training (Module_forward m x mem).1.1 = Module_training m.
Proof.
  unfold Module_forward. destruct (cells mem !! x); [|done].
  destruct (Module_size m _); [|done]. by destruct m as [| | [] | | |].
Qed.

Lemma Sequential_forward_tracks {M : Type} (call : M -> nat -> Mem -> M * Mem * option nat)
    (buf : M -> list Storage) (P : M -> Prop) (self : Sequential M) :
  (forall m x mem, is_Some (call m x mem).2 -> P m -> buf (call m x mem).1.1 = Tracked <$> buf m) ->
  forall x mem,
    is_Some (Sequential_forward call self x mem).2 -> Forall (fun item => P item.2) self ->
    flat_map (fun '(_, m) => buf m) (Sequential_forward call self x mem).1.1
    = Tracked <$> flat_map (fun '(_, m) => buf m) self.
Proof.
  intros Hcall. induction self as [|[name m] rest IH]; intros x mem Hsome HP; [done|].
  inversion_clear HP as [|? ? Hm Hrest]. simpl in *.
  specialize (Hcall m x mem). destruct (call m x mem) as [[m' mem1] [y|]]; simpl in *.
  - specialize (IH y mem1).
    destruct (Sequential_forward call rest y mem1) as [[rest' mem2] r]; simpl in *.
    rewrite fmap_app, Hcall, IH; done.
  - by destruct Hsome.
Qed.

Lemma _DenseLayer_forward_modules (self : _DenseLayer) x mem :
  is_Some (_DenseLayer_forward self x mem).2 ->
  is_Some (Sequential_forward Module_forward (layer_modules self) x mem).2 /\
  layer_modules (_DenseLayer_forward self x mem).1.1
  = (Sequential_forward Module_forward (layer_modules self) x mem).1.1.
Proof.
  rewrite _DenseLayer_forward_unfold.
  destruct (Sequential_forward _ _ _ _) as [[modules' mem1] [nf|]]; simpl.
  - destruct (dropout_cat _ _ _ _ _). simpl. intros _. by split.
  - by intros [].
Qed.

Lemma _DenseLayer_forward_tracks (self : _DenseLayer) x mem :
  is_Some (_DenseLayer_forward self x mem).2 -> Forall (eq true) (_DenseLayer_training self) ->
  _DenseLayer_buffers (_DenseLayer_forward self x mem).1.1 = Tracked <$> _DenseLayer_buffers self.
Proof.
  intros Hsome Htr. apply _DenseLayer_forward_modules in Hsome as [Hsome Hmods].
  unfold _DenseLayer_buffers. rewrite Hmods.
  apply (Sequential_forward_tracks _ _ (fun m => Forall (eq true) (Module_training m)));
    [apply Module_forward_tracks|done|].
  inversion_clear Htr as [|? ? _ Htr']. by apply Forall_flat_map_items.
Qed.

Lemma _DenseLayer_forward_training (self : _DenseLayer) x mem :
  _DenseLayer_training (_DenseLayer_forward self x mem).1.1 = _DenseLayer_training self.
Proof.
  rewrite _DenseLayer_forward_unfold.
  pose proof (Sequential_forward_keeps Module_forward Module_training (layer_modules self) x mem
                Module_forward_training) as Hkeep.
  apply flat_map_keeps in Hkeep.
  destruct (Sequential_forward _ _ _ _) as [[modules' mem1] [nf|]]; simpl in *.
  - destruct (dropout_cat _ _ _ _ _). unfold _DenseLayer_training. simpl. by rewrite Hkeep.
  - unfold _DenseLayer_training. simpl. by rewrite Hkeep.
Qed.

Lemma Feature_forward_tracks (self : Feature) x mem :
  is_Some (Feature_forward self x mem).2 -> Forall (eq true) (Feature_training self) ->
  Feature_buffers (Feature_forward self x mem).1.1 = Tracked <$> Feature_buffers self.
Proof.
  destruct self as [module|block|trans]; simpl.
  - pose proof (Module_forward_tracks module x mem) as Hm.
    by destruct (Module_forward module x mem) as [[m' mem'] r].
  - pose proof (Sequential_forward_tracks _DenseLayer_forward _DenseLayer_buffers
                  (fun l => Forall (eq true) (_DenseLayer_training l)) block
                  _DenseLayer_forward_tracks x mem) as Hb.
    destruct (Sequential_forward _ block x mem) as [[b' mem'] r]. simpl in *.
    intros Hsome Htr. apply Hb; [done|]. by apply Forall_flat_map_items.
  - pose proof (Sequential_forward_tracks Module_forward Module_buffers
                  (fun m => Forall (eq true) (Module_training m)) trans
                  Module_forward_tracks x mem) as Ht.
    destruct (Sequential_forward _ trans x mem) as [[t' mem'] r]. simpl in *.
    intros Hsome Htr. apply Ht; [done|]. by apply Forall_flat_map_items.
Qed.

Lemma Feature_forward_training (self : Feature) x mem :
  Feature_training (Feature_forward self x mem).1.1 = Feature_training self.
Proof.
  destruct self as [module|block|trans]; simpl.
  - pose proof (Module_forward_training module x mem) as Hm.
    by destruct (Module_forward module x mem) as [[m' mem'] r].
  - pose proof (Sequential_forward_keeps _DenseLayer_forward _DenseLayer_training block x mem
                  _DenseLayer_forward_training) as Hb.
    apply flat_map_keeps in Hb.
    by destruct (Sequential_forward _ block x mem) as [[b' mem'] r].
  - pose proof (Sequential_forward_keeps Module_forward Module_training trans x mem
                  Module_forward_training) as Ht.
    apply flat_map_keeps in Ht.
    by destruct (Sequential_forward _ trans x mem) as [[t' mem'] r].
Qed.

Lemma DenseNet_forward_features (self : DenseNet) x mem :
  features (DenseNet_forward self x mem).1.1
  = (Sequential_forward Feature_forward (features self) x mem).1.1.
Proof.
  unfold DenseNet_forward.
  destruct (Sequential_forward _ (features self) x mem) as [[fs' mem1] r].
  destruct r as [fo|]; [|done].
  destruct (F_relu_ fo mem1) as [mem2 [out|]]; [|done].
  destruct (F_avg_pool2d out 7 mem2) as [mem3 [out'|]]; [|done].
  destruct (size0 fo mem3) as [n|]; [|done].
  destruct (view_rows out' n mem3) as [mem4 [out''|]]; [|done].
  cbn [classifier].
  by destruct (Module_forward (classifier self) out'' mem4) as [[cls' mem5] r5].
Qed.

Lemma DenseNet_forward_classifier (self : DenseNet) x mem :
  classifier (DenseNet_forward self x mem).1.1 = classifier self \/
  exists y mem', classifier (DenseNet_forward self x mem).1.1
                 = (Module_forward (classifier self) y mem').1.1.
Proof.
  unfold DenseNet_forward.
  destruct (Sequential_forward _ (features self) x mem) as [[fs' mem1] r].
  destruct r as [fo|]; [|by left].
  destruct (F_relu_ fo mem1) as [mem2 [out|]]; [|by left].
  destruct (F_avg_pool2d out 7 mem2) as [mem3 [out'|]]; [|by left].
  destruct (size0 fo mem3) as [n|]; [|by left].
  destruct (view_rows out' n mem3) as [mem4 [out''|]]; [|by left].
  right. exists out'', mem4. cbn [classifier].
  by destruct (Module_forward (classifier self) out'' mem4) as [[cls' mem5] r5].
Qed.

(** The notebook never leaves training mode.  In that mode a forward pass
    of a network of four blocks on an input of at least 221 x 221 pixels
    updates the running statistics of every batch normalisation, whether
    the pass returns or, on an input above 444 pixels, raises at the
    classifier; the [training] flags stay as they were. *)
Theorem DenseNet_forward_tracks_statistics (self : DenseNet) g n1 n2 n3 n4 m bn (dr : Q)
    num_classes x mem t n h w :
  DenseNet_config self = DenseNet_init g [n1; n2; n3; n4] m bn dr num_classes ->
  0 <= n1 -> 0 <= n2 -> 0 <= n3 -> 0 <= n4 -> (dr <= 1)%Q ->
  Forall (eq true) (training_flags self) ->
  cells mem !! x = Some t -> size t = [n; 3; h; w] -> 221 <= h -> 221 <= w ->
  buffers (DenseNet_forward self x mem).1.1 = Tracked <$> buffers self /\
  training_flags (DenseNet_forward self x mem).1.1 = training_flags self.
Proof.
  intros Hcfg Hn1 Hn2 Hn3 Hn4 Hdr Htr Hx Hs Hh Hw.
  destruct (extents_large h Hh) as (Hsh & Hfh & _).
  destruct (extents_large w Hw) as (Hsw & Hfw & _).
  pose proof (DenseNet_features_size g n1 n2 n3 n4 m bn dr num_classes n h w
                Hn1 Hn2 Hn3 Hn4 Hdr ltac:(lia) ltac:(lia) Hsh Hsw
                ltac:(apply several_values; lia)) as Hfs.
  pose proof (DenseNet_init_four g n1 n2 n3 n4 m bn dr num_classes) as Hinit. cbv zeta in Hinit.
  rewrite <- Hcfg in Hfs, Hinit. unfold DenseNet_config in Hfs, Hinit. simpl in Hfs.
  injection Hinit as Hfeatures Hclassifier.
  apply (Sequential_size_config_Some _ _ _ _ _ Feature_size_config_Some) in Hfs.
  rewrite <- Hs in Hfs.
  destruct (features_fresh (features self) _ _ _ Hfeatures ltac:(done) x mem t _ Hx Hfs)
    as (fs' & mem1 & fo & Hrun & _).
  unfold training_flags in Htr. apply Forall_app in Htr as [Htr _].
  assert (Hcls : forall y mem',
            Module_buffers (Module_forward (classifier self) y mem').1.1 = [] /\
            Module_training (Module_forward (classifier self) y mem').1.1 = []).
  { intros y mem'. pose proof (Module_forward_config (classifier self) y mem') as Hc.
    rewrite Hclassifier in Hc.
    by destruct (Module_forward (classifier self) y mem').1.1. }
  assert (Hcls0 : Module_buffers (classifier self) = [] /\ Module_training (classifier self) = [])
    by (by destruct (classifier self)).
  assert (Hcls' : Module_buffers (classifier (DenseNet_forward self x mem).1.1) = [] /\
                  Module_training (classifier (DenseNet_forward self x mem).1.1) = []).
  { destruct (DenseNet_forward_classifier self x mem) as [->|(y & mem' & ->)]; [done|apply Hcls]. }
  unfold buffers, training_flags. rewrite DenseNet_forward_features.
  destruct Hcls0 as [-> ->]. destruct Hcls' as [-> ->]. rewrite !app_nil_r. split.
  - apply (Sequential_forward_tracks _ _ (fun f => Forall (eq true) (Feature_training f)));
      [apply Feature_forward_tracks|by rewrite Hrun|by apply Forall_flat_map_items].
  - apply flat_map_keeps. apply Sequential_forward_keeps, Feature_forward_training.
Qed.

End Tracks.

(** [DenseNet()] in the state its constructor leaves it, on one
    500 x 300 image: the pass raises, and the statistics are updated. *)
Lemma DenseNet_forward_tracks_statistics_witness :
  let net := DenseNet_init 32 [6; 12; 24; 16] 64 4 0 1000 in
  let run := @DenseNet_forward sizes_only net 0%nat (one_tensor [1; 3; 500; 300]) in
  buffers run.1.1 = Tracked <$> buffers net /\ training_flags run.1.1 = training_flags net.
Proof.
  apply (@DenseNet_forward_tracks_statistics sizes_only
           (DenseNet_init 32 [6; 12; 24; 16] 64 4 0 1000)
           32 6 12 24 16 64 4 0 1000 0%nat (one_tensor [1; 3; 500; 300])
           (mkTensor [1; 3; 500; 300] (fun _ => tt)) 1 500 300).
  - by vm_compute.
  - lia.
  - lia.
  - lia.
  - lia.
  - discriminate.
  - apply (bool_decide_unpack _). by vm_compute.
  - reflexivity.
  - reflexivity.
  - lia.
  - lia.
Defined.

(** ** Random numbers *)

Lemma Sequential_map_Forall {M : Type} (config : M -> M) (P : M -> Prop) (self : Sequential M) :
  Forall (fun item => P item.2) (Sequential_map config self) ->
  Forall (fun item => P (config item.2)) self.
Proof.
  unfold Sequential_map. rewrite Forall_map. apply Forall_impl. by intros [name m].
Qed.

Lemma _DenseBlock_init_Forall (P : _DenseLayer -> Prop) num_layers c bn g (dr : Q) :
  (forall c', P (_DenseLayer_init c' g bn dr)) ->
  Forall (fun item => P item.2) (_DenseBlock_init num_layers c bn g dr).
Proof.
  intros HP. rewrite _DenseBlock_init_children. apply Forall_fmap, Forall_forall.
  intros i _. apply HP.
Qed.

Section Generator.
Context `{Numerics}.

Lemma Module_forward_gen m x mem : gen (Module_forward m x mem).1.2 = gen mem.
Proof.
  unfold Module_forward. destruct (cells mem !! x); [|done].
  destruct (Module_size m _); [|done]. by destruct m as [| | [] | | |].
Qed.

Lemma Sequential_forward_gen {M : Type} (call : M -> nat -> Mem -> M * Mem * option nat)
    (self : Sequential M) :
  Forall (fun item => forall x mem, gen (call item.2 x mem).1.2 = gen mem) self ->
  forall x mem, gen (Sequential_forward call self x mem).1.2 = gen mem.
Proof.
  induction 1 as [|[name m] rest Hm _ IH]; intros x mem; [done|]. simpl in *.
  specialize (Hm x mem). destruct (call m x mem) as [[m' mem1] [y|]]; simpl in *; [|done].
  specialize (IH y mem1).
  destruct (Sequential_forward call rest y mem1) as [[rest' mem2] r]. simpl in *. congruence.
Qed.

Lemma modules_gen (ms : Sequential Module) x mem :
  gen (Sequential_forward Module_forward ms x mem).1.2 = gen mem.
Proof.
  apply Sequential_forward_gen, Forall_forall. intros ? _. apply Module_forward_gen.
Qed.

Lemma torch_cat1_gen x y mem : gen (torch_cat1 x y mem).1 = gen mem.
Proof.
  unfold torch_cat1. destruct (cells mem !! x); [|done].
  destruct (cells mem !! y) as [ty|]; [|done]. by destruct (cat1 _ ty).
Qed.

Lemma _DenseLayer_forward_gen (self : _DenseLayer) x mem :
  (drop_rate self <= 0)%Q -> gen (_DenseLayer_forward self x mem).1.2 = gen mem.
Proof.
  intros Hdr. rewrite _DenseLayer_forward_unfold.
  pose proof (modules_gen (layer_modules self) x mem) as Hms.
  destruct (Sequential_forward _ _ _ _) as [[modules' mem1] [nf|]]; simpl in *; [|done].
  unfold dropout_cat. destruct (Qlt_le_dec 0 (drop_rate self)) as [Hpos|_].
  { by apply Qlt_not_le in Hpos. }
  pose proof (torch_cat1_gen x nf mem1) as Hcat.
  destruct (torch_cat1 x nf mem1). simpl in *. congruence.
Qed.

Lemma Feature_forward_gen (self : Feature) (dr : Q) x mem :
  match self with
  | Block block => Forall (fun item => drop_rate item.2 = dr) block
  | _ => True
  end ->
  (dr <= 0)%Q -> gen (Feature_forward self x mem).1.2 = gen mem.
Proof.
  intros Hself Hdr. destruct self as [module|block|trans]; simpl.
  - pose proof (Module_forward_gen module x mem) as Hm.
    by destruct (Module_forward module x mem) as [[m' mem'] r].
  - assert (Hb : gen (Sequential_forward _DenseLayer_forward block x mem).1.2 = gen mem).
    { apply Sequential_forward_gen. eapply Forall_impl; [|exact Hself].
      intros [name layer] Hl x' mem'. simpl in *. apply _DenseLayer_forward_gen. by rewrite Hl. }
    by destruct (Sequential_forward _ block x mem) as [[b' mem'] r].
  - pose proof (modules_gen trans x mem) as Ht.
    by destruct (Sequential_forward _ trans x mem) as [[t' mem'] r].
Qed.

Lemma F_relu__gen x mem : gen (F_relu_ x mem).1 = gen mem.
Proof. unfold F_relu_. by destruct (cells mem !! x). Qed.

Lemma F_avg_pool2d_gen x k mem : gen (F_avg_pool2d x k mem).1 = gen mem.
Proof.
  unfold F_avg_pool2d. destruct (cells mem !! x) as [t|]; [|done].
  by destruct (Module_size _ (size t)).
Qed.

Lemma view_rows_gen x n mem : gen (view_rows x n mem).1 = gen mem.
Proof.
  unfold view_rows. destruct (cells mem !! x) as [t|]; [|done]. by destruct (decide _).
Qed.

Lemma DenseNet_forward_gen_features (self : DenseNet) x mem :
  gen (DenseNet_forward self x mem).1.2
  = gen (Sequential_forward Feature_forward (features self) x mem).1.2.
Proof.
  unfold DenseNet_forward.
  destruct (Sequential_forward _ (features self) x mem) as [[fs' mem1] r]. simpl.
  destruct r as [fo|]; [|done].
  pose proof (F_relu__gen fo mem1) as Hrelu.
  destruct (F_relu_ fo mem1) as [mem2 [out|]]; simpl in *; [|done].
  pose proof (F_avg_pool2d_gen out 7 mem2) as Hpool.
  destruct (F_avg_pool2d out 7 mem2) as [mem3 [out'|]]; simpl in *; [|congruence].
  destruct (size0 fo mem3) as [n|]; simpl; [|congruence].
  pose proof (view_rows_gen out' n mem3) as Hview.
  destruct (view_rows out' n mem3) as [mem4 [out''|]]; simpl in *; [|congruence].
  pose proof (Module_forward_gen (classifier self) out'' mem4) as Hcls.
  destruct (Module_forward (classifier self) out'' mem4) as [[cls' mem5] r5]. simpl in *.
  congruence.
Qed.

(** With a dropout rate that is not positive (the default 0, and that of
    [densenet121]) a forward pass draws no random number, whatever the
    input and whether or not the pass returns: [F.dropout] is never
    called. *)
Theorem DenseNet_forward_draws_nothing (self : DenseNet) g block_config m bn (dr : Q)
    num_classes x mem :
  DenseNet_config self = DenseNet_init g block_config m bn dr num_classes ->
  (dr <= 0)%Q ->
  gen (DenseNet_forward self x mem).1.2 = gen mem.
Proof.
  intros Hcfg Hdr. rewrite DenseNet_forward_gen_features.
  apply Sequential_forward_gen.
  set (P := fun f : Feature =>
              match f with
              | Block block => Forall (fun item => drop_rate item.2 = dr) block
              | _ => True
              end).
  pose proof (DenseNet_init_Forall P g block_config m bn dr num_classes) as Hall.
  rewrite <- Hcfg in Hall. cbn [DenseNet_config features] in Hall.
  specialize (Hall ltac:(done)
    ltac:(intros; by apply (_DenseBlock_init_Forall (fun layer => drop_rate layer = dr)))
    ltac:(done)).
  apply (Sequential_map_Forall Feature_config P) in Hall.
  eapply Forall_impl; [|exact Hall]. intros [name f] Hf x' mem'. simpl in *.
  apply (Feature_forward_gen f dr); [|done].
  destruct f as [|block|]; try done. simpl in Hf.
  by apply (Sequential_map_Forall _DenseLayer_config (fun layer => drop_rate layer = dr)) in Hf.
Qed.



Lemma sum_list_config {M : Type} (config : M -> M) (count : M -> nat) (self : Sequential M) :
  (forall m, count (config m) = count m) ->
  sum_list ((fun item => count item.2) <$> Sequential_map config self)
  = sum_list ((fun item => count item.2) <$> self).
Proof.
  intros Hc. induction self as [|[name m] rest IH]; simpl; [done|]. rewrite Hc. f_equal. exact IH.
Qed.



End Generator.

(** [DenseNet()] with dropout off, on one 224 x 224 image, with seven
    draws made before the pass. *)
Lemma DenseNet_forward_draws_nothing_witness :
  gen (@DenseNet_forward draw_counter (DenseNet_init 32 [6; 12; 24; 16] 64 4 0 1000) 0%nat
         (@mkMem draw_counter [mkTensor [1; 3; 224; 224] (fun _ => tt)] 7%nat)).1.2 = 7%nat.
Proof.
  apply (@DenseNet_forward_draws_nothing draw_counter
           (DenseNet_init 32 [6; 12; 24; 16] 64 4 0 1000) 32 [6; 12; 24; 16] 64 4 0 1000);
    [reflexivity|discriminate].
Defined.


(** ** The values [forward] computes *)

Section Values.
Context `{Numerics}.

(** The flattening in [DenseNet.forward] mixes no channels: [view(n, -1)] of
    the pooled features, of size [(n, c, 1, 1)], is the [n] x [c] matrix
    whose entry [(i, j)] is the pooled value of channel [j] of image [i]. *)
Theorem view_rows_pooled x mem t n c :
  cells mem !! x = Some t -> size t = [n; c; 1; 1] -> 0 < n ->
  exists mem' y v,
    view_rows x n mem = (mem', Some y) /\ cells mem' !! y = Some v /\ size v = [n; c] /\
    forall i j, 0 <= i < n -> 0 <= j < c -> data v [i; j] = data t [i; j; 0; 0].
Proof.
  intros Hx Hs Hn. unfold view_rows. rewrite Hx, Hs.
  assert (Hnumel : numel [n; c; 1; 1] = c * n) by (unfold numel; simpl; lia).
  rewrite Hnumel. rewrite decide_True by (split; [done|apply Z_mod_mult]).
  rewrite Z_div_mult by lia.
  eexists _, _, _. split; [reflexivity|]. split.
  { simpl. rewrite lookup_app_r by done. by rewrite Nat.sub_diag. }
  split; [done|]. intros i j Hi Hj. simpl. f_equal.
  unfold numel. simpl. rewrite !Z.mul_1_r.
  assert (Hq : (i * c + j) / c = i).
  { symmetry. apply (Z.div_unique (i * c + j) c i j); lia. }
  assert (Hr : (i * c + j) mod c = j).
  { symmetry. apply (Z.mod_unique (i * c + j) c i j); lia. }
  rewrite Hq, Hr. by rewrite Z.div_1_r, Z.mod_1_r.
Qed.

(** Dropout in evaluation mode is the identity: a layer with a dropout
    rate in (0, 1] whose [training] flag is cleared returns, wherever the
    same layer with the rate 0 returns, a tensor with the same size and
    values, and draws no random number. *)
Theorem _DenseLayer_forward_eval (modules : Sequential Module) (dr : Q) (training : bool)
    x mem layer0 mem0 y0 :
  (0 < dr)%Q -> (dr <= 1)%Q ->
  _DenseLayer_forward (mk_DenseLayer modules 0 training) x mem = (layer0, mem0, Some y0) ->
  exists layer' mem' y,
    _DenseLayer_forward (mk_DenseLayer modules dr false) x mem = (layer', mem', Some y) /\
    is_Some (cells mem0 !! y0) /\ cells mem' !! y = cells mem0 !! y0 /\
    layer_modules layer' = layer_modules layer0 /\ gen mem' = gen mem0.
Proof.
  intros Hpos Hdr. unfold _DenseLayer_forward. simpl.
  destruct (Sequential_forward Module_forward modules x mem) as [[ms1 mem1] [nf|]]; [|done].
  destruct (Qlt_le_dec 0 0) as [Hlt|_]; [by apply Qlt_irrefl in Hlt|].
  destruct (Qlt_le_dec 0 dr) as [_|Hle]; [|by apply Qle_not_lt in Hle].
  unfold torch_cat1 at 1.
  destruct (cells mem1 !! x) as [tx|] eqn:Hx; [|done].
  destruct (cells mem1 !! nf) as [tn|] eqn:Hnf; [|done].
  destruct (cat1 tx tn) as [out|] eqn:Hcat; [|done].
  unfold alloc. simpl. intros [= <- <- <-]. simpl.
  rewrite lookup_app_r by done. rewrite Nat.sub_diag.
  unfold F_dropout. rewrite Hnf.
  apply Qlt_le_weak in Hpos. apply Qle_bool_iff in Hpos, Hdr. rewrite Hpos, Hdr. simpl.
  unfold torch_cat1. rewrite Hx, Hnf, Hcat.
  eexists _, _, _. split; [reflexivity|]. simpl.
  split; [by eexists|]. split; [|done].
  rewrite lookup_app_r by done. by rewrite Nat.sub_diag.
Qed.

End Values.

(** Two images with five pooled channels each. *)
Lemma view_rows_pooled_witness :
  exists (mem' : @Mem sizes_only) y v,
    @view_rows sizes_only 0%nat 2 (one_tensor [2; 5; 1; 1]) = (mem', Some y) /\
    cells mem' !! y = Some v /\ size v = [2; 5] /\
    forall i j, 0 <= i < 2 -> 0 <= j < 5 ->
      data v [i; j] = data (mkTensor [2; 5; 1; 1] (fun _ => tt)) [i; j; 0; 0].
Proof.
  apply (@view_rows_pooled sizes_only 0%nat (one_tensor [2; 5; 1; 1])
           (mkTensor [2; 5; 1; 1] (fun _ => tt)) 2 5); [reflexivity|reflexivity|lia].
Defined.

(** The layer of the notebook's test cell, [_DenseLayer(1, 2, 3, .5)], with
    its [training] flag cleared, against the same layer without dropout. *)
Lemma _DenseLayer_forward_eval_witness :
  let modules := layer_modules (_DenseLayer_init 1 2 3 0) in
  let run0 := @_DenseLayer_forward sizes_only (mk_DenseLayer modules 0 true) 0%nat
                (one_tensor [1; 1; 4; 4]) in
  exists layer' (mem' : @Mem sizes_only) y,
    @_DenseLayer_forward sizes_only (mk_DenseLayer modules 0.5 false) 0%nat
      (one_tensor [1; 1; 4; 4]) = (layer', mem', Some y) /\
    is_Some (cells run0.1.2 !! 5%nat) /\ cells mem' !! y = cells run0.1.2 !! 5%nat /\
    layer_modules layer' = layer_modules run0.1.1 /\ gen mem' = gen run0.1.2.
Proof.
  intros modules run0.
  apply (@_DenseLayer_forward_eval sizes_only modules 0.5 true 0%nat (one_tensor [1; 1; 4; 4])
           run0.1.1 run0.1.2 5%nat); [reflexivity|discriminate|reflexivity].
Defined.

(** ** Replacing the classifier *)

Lemma DenseNet_init_num_classes g block_config m bn (dr : Q) k k' :
  exists fs c,
    DenseNet_init g block_config m bn dr k = mkDenseNet fs (Linear c k Initialised) /\
    DenseNet_init g block_config m bn dr k' = mkDenseNet fs (Linear c k' Initialised).
Proof.
  unfold DenseNet_init.
  match goal with |- context [fold_left ?F ?l ?acc] => destruct (fold_left F l acc) as [fs c] end.
  by eexists _, _.
Qed.

Section FineTuning.
Context `{Numerics}.

(** The cell "Run DenseNet" composes with [forward].  Replacing the
    classifier of a network built for any number of classes gives the
    network [DenseNet(..., num_classes=2)] would build: [features], with
    whatever parameters they hold, are untouched, and the new classifier
    takes the same number of features and is newly initialised.  For a
    network of four blocks, [forward] then returns two logits per image. *)
Theorem replace_classifier_two_classes (self : DenseNet) g n1 n2 n3 n4 m bn (dr : Q) num_classes
    x mem t n h w :
  DenseNet_config self = DenseNet_init g [n1; n2; n3; n4] m bn dr num_classes ->
  0 <= n1 -> 0 <= n2 -> 0 <= n3 -> 0 <= n4 -> (dr <= 1)%Q ->
  0 < n -> 221 <= h <= 444 -> 221 <= w <= 444 ->
  cells mem !! x = Some t -> size t = [n; 3; h; w] ->
  exists self' num_ftrs,
    replace_classifier self = Some self' /\
    features self' = features self /\
    get_in_features (classifier self) = Some num_ftrs /\
    classifier self' = Linear num_ftrs 2 Initialised /\
    DenseNet_config self' = DenseNet_init g [n1; n2; n3; n4] m bn dr 2 /\
    exists self'' mem' y,
      DenseNet_forward self' x mem = (self'', mem', Some y) /\ has_size mem' y [n; 2].
Proof.
  intros Hcfg Hn1 Hn2 Hn3 Hn4 Hdr Hn Hh Hw Hx Hs.
  destruct (DenseNet_init_num_classes g [n1; n2; n3; n4] m bn dr num_classes 2)
    as (fs & c & Hk & H2).
  rewrite Hk in Hcfg. unfold DenseNet_config in Hcfg. injection Hcfg as Hfs Hcls.
  unfold replace_classifier.
  destruct (classifier self) as [| | | | |c' k' params] eqn:Hclassifier; try done.
  simpl in Hcls. injection Hcls as -> ->.
  eexists _, c. split; [reflexivity|]. split; [done|]. split; [done|]. split; [done|].
  assert (Hcfg' : DenseNet_config (mkDenseNet (features self) (Linear c 2 Initialised))
                  = DenseNet_init g [n1; n2; n3; n4] m bn dr 2).
  { rewrite H2. unfold DenseNet_config. simpl. by rewrite Hfs. }
  split; [done|].
  destruct (DenseNet_forward_ok _ g n1 n2 n3 n4 m bn dr 2 x mem t n h w Hcfg'
              Hn1 Hn2 Hn3 Hn4 Hdr Hn Hh Hw Hx Hs) as (self'' & mem' & y & Hrun & _ & Hy).
  by exists self'', mem', y.
Qed.

End FineTuning.

(** The notebook's own cell: [densenet121(pretrained=True)] with the
    classifier replaced returns two logits for one 224 x 224 image. *)
Lemma replace_classifier_two_classes_witness :
  exists net net' net'' (mem' : @Mem sizes_only) y,
    densenet121 true [] = Some net /\
    replace_classifier net = Some net' /\
    features net' = features net /\
    classifier net' = Linear 1024 2 Initialised /\
    @DenseNet_forward sizes_only net' 0%nat (one_tensor [1; 3; 224; 224]) = (net'', mem', Some y) /\
    has_size mem' y [1; 2].
Proof.
  eexists. 
  destruct (@replace_classifier_two_classes sizes_only
              (load_state_dict (DenseNet_init 32 [6; 12; 24; 16] 64 4 0 1000)
                 "https://download.pytorch.org/models/densenet121-241335ed.pth")
              32 6 12 24 16 64 4 0 1000 0%nat (one_tensor [1; 3; 224; 224])
              (mkTensor [1; 3; 224; 224] (fun _ => tt)) 1 224 224)
    as (net' & num_ftrs & Hreplace & Hfeatures & Hftrs & Hcls & _ & net'' & mem' & y & Hrun & Hy).
  - by vm_compute.
  - lia.
  - lia.
  - lia.
  - lia.
  - discriminate.
  - lia.
  - lia.
  - lia.
  - reflexivity.
  - reflexivity.
  - exists net', net'', mem', y. split; [reflexivity|]. split; [exact Hreplace|].
    split; [exact Hfeatures|]. split; [|split; [exact Hrun|exact Hy]].
    rewrite Hcls. f_equal. vm_compute in Hftrs. by injection Hftrs as <-.
Defined.

(** ** Depth *)

Lemma Module_depth_config m : Module_depth (Module_config m) = Module_depth m.
Proof. by destruct m. Qed.

Lemma _DenseLayer_depth_config l : _DenseLayer_depth (_DenseLayer_config l) = _DenseLayer_depth l.
Proof. apply sum_list_config, Module_depth_config. Qed.

Lemma Feature_depth_config f : Feature_depth (Feature_config f) = Feature_depth f.
Proof.
  destruct f as [module|block|trans]; simpl.
  - apply Module_depth_config.
  - apply sum_list_config, _DenseLayer_depth_config.
  - apply sum_list_config, Module_depth_config.
Qed.

Lemma _DenseBlock_init_depth num_layers c bn g (dr : Q) :
  Feature_depth (Block (_DenseBlock_init num_layers c bn g dr)) = (2 * Z.to_nat num_layers)%nat.
Proof.
  simpl. rewrite _DenseBlock_init_children.
  rewrite <- (length_seqZ 0 num_layers).
  induction (seqZ 0 num_layers) as [|i l IH]; [done|].
  rewrite !fmap_cons. cbn [sum_list sum_list_with snd length]. rewrite IH.
  change (_DenseLayer_depth (_DenseLayer_init (c + i * g) g bn dr)) with 2%nat. unfold id. lia.
Qed.

(** A network of four blocks has two convolutions for each dense layer, a
    first convolution, one in each of the three transitions, and the
    classifier: [2 * (n1 + n2 + n3 + n4) + 5] convolutions and linear
    layers, whatever its parameters were loaded or trained to.  With the
    layer counts [(6, 12, 24, 16)] that is the 121 of [densenet121]. *)
Theorem DenseNet_depth (self : DenseNet) g n1 n2 n3 n4 m bn (dr : Q) num_classes :
  DenseNet_config self = DenseNet_init g [n1; n2; n3; n4] m bn dr num_classes ->
  0 <= n1 -> 0 <= n2 -> 0 <= n3 -> 0 <= n4 ->
  Z.of_nat (depth self) = 2 * (n1 + n2 + n3 + n4) + 5.
Proof.
  intros Hcfg Hn1 Hn2 Hn3 Hn4.
  assert (Hdepth : depth (DenseNet_config self) = depth self).
  { unfold depth, DenseNet_config. cbn [features classifier].
    by rewrite Module_depth_config, (sum_list_config Feature_config _ _ Feature_depth_config). }
  rewrite <- Hdepth, Hcfg, DenseNet_init_four. cbv zeta. unfold depth. cbn [features classifier].
  rewrite !fmap_cons. cbn [snd]. rewrite !_DenseBlock_init_depth. simpl. lia.
Qed.

(** [densenet121], pretrained or not, is 121 layers deep. *)
Lemma DenseNet_depth_witness :
  depth (load_state_dict (DenseNet_init 32 [6; 12; 24; 16] 64 4 0 1000)
           "https://download.pytorch.org/models/densenet121-241335ed.pth") = 121%nat.
Proof.
  apply Nat2Z.inj.
  apply (DenseNet_depth _ 32 6 12 24 16 64 4 0 1000); [by vm_compute|lia..].
Defined.

(** ** More of [train_model] *)

Section TrainMore.
Context `{Trainable} (globals : Globals).
Variable model : nat.
Variable criterion : list (list Q) -> list Z -> Loss.
Variable optim_scheduler : Model -> Z -> Optimizer.

(** *** Edge cases *)

Lemma phase_body_empty epoch (l : Locals) phase :
  dset_sizes globals phase = 0 ->
  phase_body globals model criterion optim_scheduler epoch l phase = None.
Proof.
  intros Hzero. unfold phase_body.
  destruct (if decide (phase = train) then _ else _) as [l1|]; [|done]. simpl.
  destruct (for_each _ _ _) as [l2|]; [|done]. simpl.
  by rewrite decide_True.
Qed.

(** [train_model] with no epoch to run returns the model object it was
    given, untouched and with nothing printed for an epoch.  With at least
    one epoch and an empty training or validation set it raises the
    [ZeroDivisionError] of the first average it takes. *)
Theorem train_model_edge_cases (num_epochs : Z) (objects : list Model) :
  (num_epochs <= 0 ->
   train_model globals model criterion optim_scheduler num_epochs objects
   = Some (train_model_start model objects)) /\
  (0 < num_epochs -> dset_sizes globals train = 0 \/ dset_sizes globals val = 0 ->
   train_model globals model criterion optim_scheduler num_epochs objects = None).
Proof.
  split.
  - intros Hn. unfold train_model. by rewrite seqZ_nil by lia.
  - intros Hn Hzero. unfold train_model. rewrite seqZ_cons by lia.
    cbn [for_each]. unfold epoch_body at 1. cbn [for_each].
    destruct (phase_body _ _ _ _ 0 _ train) as [l1|] eqn:Htrain; [|done].
    destruct Hzero as [Hzero|Hzero].
    + by rewrite phase_body_empty in Htrain.
    + by rewrite phase_body_empty.
Qed.

(** *** What an epoch reads of the one before it *)

Lemma batches_epoch_acc phase batches st o rl rc (ea ea' : option Q) bm ba ev :
  for_each (batch_body model criterion phase) batches (mkLocals st o rl rc ea bm ba ev)
  = (fun l => mkLocals (store l) (optimizer l) (running_loss l) (running_corrects l) ea
                (best_model l) (best_acc l) (events l))
    <$> for_each (batch_body model criterion phase) batches (mkLocals st o rl rc ea' bm ba ev).
Proof.
  revert st o rl rc ev.
  induction batches as [|[inputs labels] batches IH]; intros st o rl rc ev; [done|].
  cbn [for_each]. unfold batch_body at 1 3.
  cbn [optimizer store running_loss running_corrects epoch_acc best_model best_acc events].
  destruct o as [opt|]; [|done]. cbn [mbind option_bind].
  destruct (st !! model) as [m|]; [|done]. cbn [mbind option_bind].
  destruct (model_call (zero_grad opt m) inputs) as [m1 outputs].
  destruct (if decide (phase = train) then _ else _) as [[opt2 m2] done_events].
  apply IH.
Qed.

(** Nothing but the model objects, the best accuracy and model so far and
    the record of events passes from one epoch to the next: an epoch runs
    the same whatever optimizer, running loss, running count and epoch
    accuracy the epoch before left behind.  In particular the optimizer is
    built anew by [optim_scheduler] for every epoch, and whatever state the
    previous one had gathered is dropped. *)
Theorem epoch_body_reads (l : Locals) o rl rc ea (k : Z) :
  epoch_body globals model criterion optim_scheduler
    (mkLocals (store l) o rl rc ea (best_model l) (best_acc l) (events l)) k
  = epoch_body globals model criterion optim_scheduler l k.
Proof.
  unfold epoch_body. cbn [for_each].
  assert (Htrain : phase_body globals model criterion optim_scheduler k
                     (mkLocals (store l) o rl rc ea (best_model l) (best_acc l) (events l)) train
                   = phase_body globals model criterion optim_scheduler k l train);
    [|by rewrite Htrain].
  unfold phase_body. rewrite !decide_True by done.
  cbn [optimizer store running_loss running_corrects epoch_acc best_model best_acc events].
  destruct (store l !! model) as [m|]; [|done]. cbn [mbind option_bind].
  cbn [optimizer store running_loss running_corrects epoch_acc best_model best_acc events].
  rewrite (batches_epoch_acc train _ _ _ _ _ ea (epoch_acc l)).
  destruct (for_each _ _ _) as [l1|]; [|done]. cbn [fmap option_fmap option_map mbind option_bind].
  destruct (decide (dset_sizes globals train = 0)); [done|].
  rewrite !bool_decide_eq_false_2 by done. cbn [andb].
  done.
Qed.

(** *** Accuracies are fractions *)

Lemma sum_eq_le preds labels : sum_eq preds labels <= Z.of_nat (length labels).
Proof.
  unfold sum_eq. pose proof (length_filter (fun '(p, l) => p = l) (zip preds labels)) as Hf.
  rewrite length_zip_with in Hf. lia.
Qed.

Lemma batches_corrects_le phase batches (l l' : Locals) :
  for_each (batch_body model criterion phase) batches l = Some l' ->
  running_corrects l' <= running_corrects l + Z.of_nat (length (concat (snd <$> batches))).
Proof.
  revert l. induction batches as [|[inputs labels] batches IH]; intros l; simpl.
  - intros [= <-]. lia.
  - destruct (optimizer l) as [opt|]; [|done]. simpl.
    destruct (store l !! model) as [m|]; [|done]. simpl.
    destruct (model_call (zero_grad opt m) inputs) as [m1 outputs].
    destruct (if decide (phase = train) then _ else _) as [[opt2 m2] done_events].
    intros Hrun. apply IH in Hrun. simpl in Hrun.
    pose proof (sum_eq_le (torch_max1 outputs) labels). rewrite length_app.
    change (list_fmap _ _ snd batches) with (snd <$> batches). lia.
Qed.

Lemma fraction_le_1 corrects total :
  corrects <= total -> 0 < total -> (inject_Z corrects / inject_Z total <= 1)%Q.
Proof.
  intros Hc Ht. apply Qle_shift_div_r.
  - change 0%Q with (inject_Z 0). rewrite <- Zlt_Qlt. done.
  - rewrite Qmult_1_l. by rewrite <- Zle_Qle.
Qed.

Lemma phase_body_fraction epoch (l l' : Locals) phase :
  phase_body globals model criterion optim_scheduler epoch l phase = Some l' ->
  Z.of_nat (length (concat (snd <$> dset_loaders globals phase epoch)))
    <= dset_sizes globals phase ->
  exists acc, epoch_acc l' = Some acc /\ (acc <= 1)%Q.
Proof.
  unfold phase_body. intros Hrun Hlabels.
  destruct (if decide (phase = train) then _ else _) as [l1|]; [|done]. simpl in Hrun.
  destruct (for_each _ _ _) as [l2|] eqn:Hbatches; [|done]. simpl in Hrun.
  apply batches_corrects_le in Hbatches. simpl in Hbatches.
  destruct (decide (dset_sizes globals phase = 0)) as [|Hsize]; [done|].
  assert (Hle : (inject_Z (running_corrects l2) / inject_Z (dset_sizes globals phase) <= 1)%Q)
    by (apply fraction_le_1; lia).
  destruct (bool_decide (phase = val) && _).
  - destruct (store l2 !! model); [|done]. injection Hrun as <-. eauto.
  - injection Hrun as <-. eauto.
Qed.

(** When the model returns one row of logits for each image and every
    batch has as many labels as images, so that [preds == labels] compares
    two tensors of the same length, and the validation set is at least as
    large as the number of labels its loader yields in an epoch (the
    notebook takes [dset_sizes] from the datasets the loaders traverse
    once), every validation accuracy and the best accuracy [train_model]
    ends with lie between 0 and 1. *)
Theorem train_model_accuracy_is_fraction (num_epochs : Z) (objects : list Model) (m0 : Model) :
  objects !! model = Some m0 ->
  0 < dset_sizes globals train -> 0 < dset_sizes globals val ->
  (forall m inputs, length (model_call m inputs).2 = length inputs) ->
  (forall phase k,
     Forall (fun batch : list Image * list Z => length batch.1 = length batch.2)
       (dset_loaders globals phase k)) ->
  (forall k, 0 <= k < num_epochs ->
     Z.of_nat (length (concat (snd <$> dset_loaders globals val k))) <= dset_sizes globals val) ->
  exists l,
    train_model globals model criterion optim_scheduler num_epochs objects = Some l /\
    (0 <= best_acc l <= 1)%Q /\
    forall k, 0 <= k < num_epochs ->
      exists acc, val_acc globals model criterion optim_scheduler k objects = Some acc /\
                  (0 <= acc <= 1)%Q.
Proof.
  intros Hmodel Htrain Hval _ _ Hlabels.
  assert (Htrain' : dset_sizes globals train <> 0) by lia.
  destruct (train_model_invariant globals model criterion optim_scheduler objects m0
              Hmodel Htrain' Hval (Z.to_nat num_epochs))
    as (l & Hrun & _ & _ & Hpos & Haccs & Hbest).
  rewrite <- train_model_nat in Hrun.
  assert (Hfrac : forall k acc, 0 <= k < num_epochs ->
            val_acc globals model criterion optim_scheduler k objects = Some acc ->
            (acc <= 1)%Q).
  { intros k acc Hk. unfold val_acc. rewrite train_model_succ by lia.
    destruct (train_model _ _ _ _ k objects) as [l_k|]; [|done]. simpl.
    destruct (epoch_body _ _ _ _ l_k k) as [l_k1|] eqn:Hepoch; [|done]. simpl.
    unfold epoch_body in Hepoch. cbn [for_each] in Hepoch.
    destruct (phase_body _ _ _ _ k l_k train) as [l1|]; [|done].
    destruct (phase_body _ _ _ _ k l1 val) as [l2|] eqn:Hphase; [|done].
    injection Hepoch as <-.
    destruct (phase_body_fraction k l1 l2 val Hphase (Hlabels k Hk)) as (acc' & Hacc' & Hle).
    rewrite Hacc'. by intros [= <-]. }
  exists l. split; [done|]. split.
  - split; [done|].
    destruct Hbest as [(-> & _)|(k & Hk & Hacc & _)]; [done|].
    apply (Hfrac k); [lia|done].
  - intros k Hk. destruct (Haccs k ltac:(lia)) as (acc & Hacc & Hacc0 & _).
    exists acc. split; [done|]. split; [done|]. by apply (Hfrac k).
Qed.

End TrainMore.

(** No epoch on the one-image datasets; three epochs on empty datasets. *)
Lemma train_model_edge_cases_witness :
  @train_model step_counter one_ant 0%nat (fun _ _ => tt) (fun _ _ => tt) 0 [0%nat]
  = Some (@train_model_start step_counter 0%nat [0%nat]) /\
  @train_model step_counter no_data 0%nat (fun _ _ => tt) (fun _ _ => tt) 3 [0%nat] = None.
Proof.
  split.
  - apply (proj1 (@train_model_edge_cases step_counter one_ant 0%nat (fun _ _ => tt)
                    (fun _ _ => tt) 0 [0%nat])). lia.
  - apply (proj2 (@train_model_edge_cases step_counter no_data 0%nat (fun _ _ => tt)
                    (fun _ _ => tt) 3 [0%nat])); [lia|by left].
Defined.

(** Four epochs on the one-image datasets. *)
Lemma train_model_accuracy_is_fraction_witness :
  exists l : @Locals step_counter,
    @train_model step_counter one_ant 0%nat (fun _ _ => tt) (fun _ _ => tt) 4 [0%nat] = Some l /\
    (0 <= best_acc l <= 1)%Q /\
    forall k, 0 <= k < 4 ->
      exists acc,
        @val_acc step_counter one_ant 0%nat (fun _ _ => tt) (fun _ _ => tt) k [0%nat] = Some acc /\
        (0 <= acc <= 1)%Q.
Proof.
  apply (@train_model_accuracy_is_fraction step_counter one_ant 0%nat (fun _ _ => tt)
           (fun _ _ => tt) 4 [0%nat] 0%nat); [reflexivity|reflexivity|reflexivity| | |].
  - intros m inputs. simpl. apply length_map.
  - intros phase k. simpl. by repeat constructor.
  - intros k _. by vm_compute.
Defined.

(** ** [optim_scheduler_ft] *)

Section Scheduler.
Context `{PyFloats} {Model P : Type} (parameters : Model -> list P).

(** The learning rate is a step function of the epoch.  With a positive
    [lr_decay_epoch], every epoch of the [k]-th window of [lr_decay_epoch]
    epochs gets a new optimizer with the rate [init_lr * 0.1 ** k] and
    momentum 0.9, and the rate is printed at the first epoch of the window
    only.  With [lr_decay_epoch = 0] the call raises. *)
Theorem optim_scheduler_ft_steps (model : Model) (epoch k : Z) (init_lr : float)
    (lr_decay_epoch : Z) :
  (lr_decay_epoch = 0 ->
   optim_scheduler_ft parameters model epoch init_lr lr_decay_epoch = None) /\
  (0 < lr_decay_epoch -> k * lr_decay_epoch <= epoch < (k + 1) * lr_decay_epoch ->
   optim_scheduler_ft parameters model epoch init_lr lr_decay_epoch =
   power ← float_pow (float_lit 0.1) k;
   let lr := float_mul init_lr power in
   optimizer ← SGD_init (parameters model) lr (float_lit 0.9);
   Some (if decide (epoch = k * lr_decay_epoch) then [lr] else [], optimizer)).
Proof.
  split.
  - intros ->. done.
  - intros Hd Hk. unfold optim_scheduler_ft. rewrite decide_False by lia.
    assert (Hdiv : epoch / lr_decay_epoch = k).
    { symmetry. apply (Z.div_unique epoch lr_decay_epoch k (epoch - k * lr_decay_epoch)); lia. }
    rewrite Hdiv. destruct (float_pow (float_lit 0.1) k) as [power|]; [|done]. simpl.
    destruct (SGD_init _ _ _) as [optimizer|]; [|done]. simpl.
    assert (Hmod : epoch `mod` lr_decay_epoch = epoch - k * lr_decay_epoch).
    { pose proof (Z.div_mod epoch lr_decay_epoch ltac:(lia)). rewrite Hdiv in *. lia. }
    rewrite Hmod.
    destruct (decide (epoch - k * lr_decay_epoch = 0)), (decide (epoch = k * lr_decay_epoch));
      done || lia.
Qed.

End Scheduler.

(** Epoch 15 with the default [lr_decay_epoch=7] is in window 2: the rate
    is [0.001 * 0.1 ** 2], and nothing is printed. *)
Lemma optim_scheduler_ft_steps_witness :
  @optim_scheduler_ft exact_floats unit unit (fun _ => [tt]) tt 15 0.001%Q 7 =
  Some ([], @mkSGD exact_floats unit [tt] (0.001 * 0.1 ^ 2)%Q 0.9%Q).
Proof.
  apply (proj2 (@optim_scheduler_ft_steps exact_floats unit unit (fun _ => [tt]) tt 15 2
                  0.001%Q 7)); lia.
Defined.

(** ** What [visualize_model] shows *)

Section Visualize.
Context `{Trainable} (globals : Globals).
Variable model : nat.

Lemma visualize_loop_shows (num_images : Z) (batches : list (list Image * list Z)) :
  forall (start : Z) (objects : list Model) (figures : list Figure) (m : Model),
    let shown := if decide (start <= num_images - 1)
                 then take (Z.to_nat (num_images - start)) batches else batches in
    objects !! model = Some m ->
    Forall (fun batch : list Image * list Z => exists image label class,
              batch.1 !! 0%nat = Some image /\ batch.2 !! 0%nat = Some label /\
              list_getitem (dset_classes globals) label = Some class) shown ->
    exists objects' new,
      visualize_loop globals model num_images
        (zip (seqZ start (Z.of_nat (length batches))) batches) objects figures
      = Some (objects', figures ++ new) /\
      length objects' = length objects /\
      Forall2 (fun (figure : Figure) (batch : list Image * list Z) => exists label class,
                 batch.1 !! 0%nat = Some figure.1 /\ batch.2 !! 0%nat = Some label /\
                 list_getitem (dset_classes globals) label = Some class /\
                 figure.2 = "pred: " +:+ class) new shown.
Proof.
  induction batches as [|[inputs labels] batches IH]; intros start objects figures m shown Hm Hvalid.
  - exists objects, []. simpl. rewrite app_nil_r. split; [done|]. split; [done|].
    subst shown. destruct (decide _); [rewrite take_nil|]; constructor.
  - cbn [length]. rewrite Nat2Z.inj_succ, seqZ_cons by lia. cbn [zip zip_with].
    replace (Z.pred (Z.succ (Z.of_nat (length batches)))) with (Z.of_nat (length batches)) by lia.
    cbn [visualize_loop]. rewrite Hm. cbn [mbind option_bind].
    destruct (model_call m inputs) as [m1 outputs].
    assert (Hm1 : <[model:=m1]> objects !! model = Some m1).
    { apply list_lookup_insert_eq. by eapply lookup_lt_Some. }
    subst shown. destruct (decide (start <= num_images - 1)) as [Hs|Hs].
    + replace (Z.to_nat (num_images - start)) with (S (Z.to_nat (num_images - Z.succ start)))
        in * by lia.
      rewrite firstn_cons in *. inversion_clear Hvalid as [|? ? Hb Hrest].
      destruct Hb as (image & label & class & Himage & Hlabel & Hclass). simpl in Himage, Hlabel.
      rewrite Himage, Hlabel. cbn [mbind option_bind]. rewrite Hclass. cbn [mbind option_bind].
      destruct (decide (start = num_images - 1)) as [Hlast|Hlast].
      * replace (Z.to_nat (num_images - Z.succ start)) with 0%nat in * by lia.
        rewrite take_0. exists (<[model:=m1]> objects), [(image, "pred: " +:+ class)].
        split; [done|]. split; [by rewrite length_insert|].
        constructor; [|constructor]. by exists label, class.
      * destruct (IH (Z.succ start) (<[model:=m1]> objects)
                    (figures ++ [(image, "pred: " +:+ class)]) m1 Hm1)
          as (objects' & new & Hrun & Hlen & Hnew).
        { rewrite decide_True by lia. done. }
        rewrite decide_True in Hnew by lia.
        exists objects', ((image, "pred: " +:+ class) :: new).
        split; [by rewrite Hrun, <- app_assoc|]. split; [by rewrite Hlen, length_insert|].
        constructor; [|done]. by exists label, class.
    + inversion_clear Hvalid as [|? ? Hb Hrest].
      destruct Hb as (image & label & class & Himage & Hlabel & Hclass). simpl in Himage, Hlabel.
      rewrite Himage, Hlabel. cbn [mbind option_bind]. rewrite Hclass. cbn [mbind option_bind].
      rewrite decide_False by lia.
      destruct (IH (Z.succ start) (<[model:=m1]> objects)
                  (figures ++ [(image, "pred: " +:+ class)]) m1 Hm1)
        as (objects' & new & Hrun & Hlen & Hnew).
      { rewrite decide_False by lia. done. }
      rewrite decide_False in Hnew by lia.
      exists objects', ((image, "pred: " +:+ class) :: new).
      split; [by rewrite Hrun, <- app_assoc|]. split; [by rewrite Hlen, length_insert|].
      constructor; [|done]. by exists label, class.
Qed.

(** [visualize_model] shows one figure for each of the first [num_images]
    batches of the validation loader, not for each image: the first image
    of the batch, titled with the class of the first label of the batch.
    With [num_images] zero or negative the loop never breaks, and every
    batch gets a figure.  It returns when the batches it shows each hold an
    image and a label that is an index into [dset_classes]. *)
Theorem visualize_model_shows (num_images k : Z) (objects : list Model) (m : Model) :
  let batches := dset_loaders globals val k in
  let shown := if decide (1 <= num_images)
               then take (Z.to_nat num_images) batches else batches in
  objects !! model = Some m ->
  Forall (fun batch : list Image * list Z => exists image label class,
            batch.1 !! 0%nat = Some image /\ batch.2 !! 0%nat = Some label /\
            list_getitem (dset_classes globals) label = Some class) shown ->
  exists objects' figures,
    visualize_model globals model num_images k objects = Some (objects', figures) /\
    length objects' = length objects /\
    Forall2 (fun (figure : Figure) (batch : list Image * list Z) => exists label class,
               batch.1 !! 0%nat = Some figure.1 /\ batch.2 !! 0%nat = Some label /\
               list_getitem (dset_classes globals) label = Some class /\
               figure.2 = "pred: " +:+ class) figures shown.
Proof.
  intros batches shown Hm Hvalid. unfold visualize_model, enumerate. fold batches.
  destruct (visualize_loop_shows num_images batches 0 objects [] m) as (objects' & new & Hrun).
  - done.
  - subst shown. rewrite Z.sub_0_r.
    destruct (decide (1 <= num_images)), (decide (0 <= num_images - 1)); done || lia.
  - exists objects', new. rewrite Z.sub_0_r in Hrun. subst shown.
    destruct (decide (1 <= num_images)), (decide (0 <= num_images - 1)); done || lia.
Qed.

End Visualize.

(** [visualize_model(model, 0)] on the one-image validation loader: the
    only batch gets its figure. *)
Lemma visualize_model_shows_witness :
  exists objects' figures,
    @visualize_model step_counter one_ant 0%nat 0 0 [0%nat] = Some (objects', figures) /\
    length objects' = length [0%nat] /\
    Forall2 (fun (figure : @Figure step_counter) (batch : list Z * list Z) => exists label class,
               batch.1 !! 0%nat = Some figure.1 /\ batch.2 !! 0%nat = Some label /\
               list_getitem ["ants"; "bees"] label = Some class /\
               figure.2 = "pred: " +:+ class) figures [([7], [0])].
Proof.
  apply (@visualize_model_shows step_counter one_ant 0%nat 0 0 [0%nat] 0%nat); [reflexivity|].
  repeat constructor. by exists 7, 0, "ants".
Defined.
